(** * Cellular city simulations (single-cell and multi-cell): topology,
      traffic descriptors and flow-statistics aggregation

    Shallow embedding of [cellular_city_sim.cc] (single cell) and
    [cellular_city_multicell_sim.cc] (multi cell).  The ns-3 engine is an
    external collaborator: it appears as a function from the configured
    scenario to the per-flow statistics it hands back.

    The C++ type [double] is an abstract type [D] with the operations the
    programs use ([DoubleOps]).  Two interpretations are given:
    - [Binary64]: IEEE 754 binary64 (Rocq's primitive floats), the arithmetic
      the programs run on;
    - [Exact]: rational arithmetic without rounding, the arithmetic the
      specification's formulas are written in.
    Unsigned integers are [Z] with their wrap-around written out. *)

From Stdlib Require Import ZArith QArith Qround Qpower Floats List String Bool.
From Stdlib Require Import Lia Lqa.
From Stdlib Require Import Permutation.
From Stdlib Require Uint63Axioms PrimInt63 Uint63.
Import ListNotations.
Open Scope Z_scope.

(** * The programs *)

(** ** Machine integers *)

Definition u16 (z : Z) : Z := Z.land z 0xFFFF.
Definition u64 (z : Z) : Z := Z.land z 0xFFFFFFFFFFFFFFFF.

Definition is_u16 (z : Z) : Prop := 0 <= z < 2 ^ 16.
Definition is_u32 (z : Z) : Prop := 0 <= z < 2 ^ 32.
Definition is_u64 (z : Z) : Prop := 0 <= z < 2 ^ 64.

(** ** The type [double] *)

Class DoubleOps (D : Type) : Type := {
  of_int : Z -> D;          (* integer -> double conversion, integer literals *)
  dadd : D -> D -> D;
  dopp : D -> D;
  dmul : D -> D -> D;
  ddiv : D -> D -> D;
  dsqrt : D -> D;           (* std::sqrt *)
  dfloor : D -> D;          (* std::floor *)
  dceil : D -> D;           (* std::ceil *)
  to_int : D -> Z;          (* double -> integer conversion (truncation) *)
  is_zero : D -> bool       (* comparison with 0.0 *)
}.

(** A decimal literal [num / den], e.g. [0.02] is [dlit 2 100]. *)
Definition dlit {D} `{DoubleOps D} (num den : Z) : D :=
  ddiv (of_int num) (of_int den).

Declare Scope double_scope.
Delimit Scope double_scope with D.
Notation "x + y" := (dadd x y) : double_scope.
Notation "x * y" := (dmul x y) : double_scope.
Notation "x / y" := (ddiv x y) : double_scope.
Notation "- x" := (dopp x) : double_scope.

(** *** Exact rational arithmetic *)

Module Exact.

(** [Q] has no square root: [sqrt_down] is the square root rounded down to
    64 fractional bits.  The programs only take its [floor]. *)
Definition sqrt_down (q : Q) : Q :=
  Qmake (Z.sqrt (Qnum q * 4 ^ 64 / Zpos (Qden q))) (2 ^ 64).

Definition truncate (q : Q) : Z := Z.quot (Qnum q) (Zpos (Qden q)).

Definition zerob (q : Q) : bool := Qnum q =? 0.

#[global] Instance ops : DoubleOps Q := {|
  of_int := inject_Z;
  dadd := Qplus;
  dopp := Qopp;
  dmul := Qmult;
  ddiv := Qdiv;
  dsqrt := sqrt_down;
  dfloor := fun q => inject_Z (Qfloor q);
  dceil := fun q => inject_Z (Qceiling q);
  to_int := truncate;
  is_zero := zerob
|}.

End Exact.

(** *** IEEE 754 binary64 *)

Module Binary64.

(** Round-to-nearest-even conversion of an integer. *)
Definition of_Z (z : Z) : float :=
  if (0 <=? z) && (z <? 9223372036854775808)
  then of_uint63 (Uint63Axioms.of_Z z)
  else SF2Prim (binary_normalize prec emax z 0 false).

(** [frshiftexp f] is [(r, se)] with [f = r * 2^(se - shift)] and
    [0.5 <= |r| < 1]; with the 53-bit mantissa [m] of [r],
    [|f| = m * 2^(se - point)]. *)
Definition point : PrimInt63.int :=
  Eval vm_compute in Uint63Axioms.of_Z (shift + prec).

Definition int_one : PrimInt63.int := Eval vm_compute in Uint63Axioms.of_Z 1.

(** The integer part of [|f|], for a finite [f]: [Whole] when [|f| >= 2^53]
    (then [f] is an integer), else [Small q whole] with [q] the integer part
    and [whole] telling whether [|f| = q]. *)
Inductive IntegerPart : Type :=
| Whole
| Small (q : PrimInt63.int) (whole : bool).

Definition integer_part (f : float) : IntegerPart :=
  let (r, se) := frshiftexp f in
  let m := normfr_mantissa r in
  if PrimInt63.leb se point
  then let k := PrimInt63.sub point se in
       let q := PrimInt63.lsr m k in
       Small q (PrimInt63.eqb (PrimInt63.lsl q k) m)
  else Whole.

(** [std::floor]: the largest integer not above [f]. *)
Definition floor (f : float) : float :=
  if PrimFloat.is_finite f
  then match integer_part f with
       | Whole | Small _ true => f
       | Small q false =>
           if PrimFloat.ltb f 0
           then PrimFloat.opp (of_uint63 (PrimInt63.add q int_one))
           else of_uint63 q
       end
  else f.

(** [std::ceil]. *)
Definition ceil (f : float) : float := PrimFloat.opp (floor (PrimFloat.opp f)).

(** Conversion to an integer type: the fractional part is discarded. *)
Definition truncate (f : float) : Z :=
  if PrimFloat.is_finite f
  then let magnitude :=
         match integer_part f with
         | Small q _ => Uint63Axioms.to_Z q
         | Whole =>
             let (r, e) := Z.frexp f in
             Z.shiftl (Uint63Axioms.to_Z (normfr_mantissa r)) (e - prec)
         end in
       if PrimFloat.ltb f 0 then - magnitude else magnitude
  else 0.

#[global] Instance ops : DoubleOps float := {|
  of_int := of_Z;
  dadd := PrimFloat.add;
  dopp := PrimFloat.opp;
  dmul := PrimFloat.mul;
  ddiv := PrimFloat.div;
  dsqrt := PrimFloat.sqrt;
  dfloor := floor;
  dceil := ceil;
  to_int := truncate;
  is_zero := fun f => PrimFloat.eqb f 0
|}.

End Binary64.

(** *** The real number a double stands for

    A finite double with sign [s], mantissa [m] and exponent [e] stands for
    [(-1)^s * m * 2^e]; the infinities and NaN stand for no number. *)

Definition SF2Q (x : spec_float) : option Q :=
  match x with
  | S754_zero _ => Some 0%Q
  | S754_finite s m e =>
      Some ((if s then - inject_Z (Zpos m) else inject_Z (Zpos m)) * 2 ^ e)%Q
  | _ => None
  end.

Definition real_value (f : float) : option Q := SF2Q (Prim2SF f).

(** [m * 2^e] for an integer mantissa. *)
Definition scaled (m e : Z) : Q := (inject_Z m * 2 ^ e)%Q.

(** [f] is a normal number: its mantissa has all 53 bits. *)
Definition normal (f : float) (s : bool) (m : positive) (e : Z) : Prop :=
  Prim2SF f = S754_finite s m e /\ 2 ^ 52 <= Zpos m < 2 ^ 53.

(** [eps = 2^-52] bounds the relative error of one rounded operation on
    normal numbers; [eta = 2^-49] bounds the error of one grid coordinate,
    relative to the area side. *)
Definition eps : Q := 1 # 4503599627370496.
Definition eta : Q := 1 # 562949953421312.

(** ** Divisions and their denominators

    A computation returns its value together with the denominators of the
    divisions it executed, in execution order. *)

Definition Calc (D A : Type) : Type := (A * list D)%type.

Definition ret {D A} (a : A) : Calc D A := (a, []).

Definition bind {D A B} (m : Calc D A) (k : A -> Calc D B) : Calc D B :=
  (fst (k (fst m)), snd m ++ snd (k (fst m))).

Definition divide {D} `{DoubleOps D} (x y : D) : Calc D D := (ddiv x y, [y]).

Definition value {D A} (m : Calc D A) : A := fst m.
Definition denominators {D A} (m : Calc D A) : list D := snd m.

Declare Scope calc_scope.
Delimit Scope calc_scope with calc.
Notation "x <- m ;; k" := (bind m (fun x => k))
  (at level 61, m at next level, right associativity) : calc_scope.

(** ** Data *)

Definition FlowId := Z.

(** The fields of [FlowMonitor::FlowStats] the programs read; [delaySum] and
    [jitterSum] hold the values of [GetSeconds()]. *)
Record FlowStats (D : Type) : Type := {
  rxPackets : Z;      (* uint32_t *)
  rxBytes : Z;        (* uint64_t *)
  lostPackets : Z;    (* uint32_t *)
  delaySum : D;
  jitterSum : D
}.
Arguments rxPackets {D} _.
Arguments rxBytes {D} _.
Arguments lostPackets {D} _.
Arguments delaySum {D} _.
Arguments jitterSum {D} _.

Record FiveTuple : Type := {
  sourceAddress : Z;
  destinationAddress : Z
}.

Definition wf_flow {D} (fs : FlowStats D) : Prop :=
  is_u32 (rxPackets fs) /\ is_u64 (rxBytes fs) /\ is_u32 (lostPackets fs).

(** The accumulators of the result-processing loop. *)
Record Totals (D : Type) : Type := {
  totalDelay : D;
  totalJitter : D;
  totalRxPackets : Z;     (* uint64_t *)
  totalRxBytes : Z;       (* uint64_t *)
  totalLostPackets : Z    (* uint64_t *)
}.
Arguments totalDelay {D} _.
Arguments totalJitter {D} _.
Arguments totalRxPackets {D} _.
Arguments totalRxBytes {D} _.
Arguments totalLostPackets {D} _.

(** One [NS_LOG_INFO("Flow ...")] line. *)
Record FlowLine (D : Type) : Type := {
  line_id : FlowId;
  line_tuple : FiveTuple;
  line_throughputMbps : D;
  line_meanDelayMs : D;
  line_rxPackets : Z;
  line_lostPackets : Z
}.

(** The four metrics and two counters printed at the end. *)
Record Report (D : Type) : Type := {
  meanDelayMs : D;
  jitterMs : D;
  throughputMbps : D;
  lossRatePct : D;
  receivedPackets : Z;
  lostPacketsTotal : Z
}.
Arguments meanDelayMs {D} _.
Arguments jitterMs {D} _.
Arguments throughputMbps {D} _.
Arguments lossRatePct {D} _.
Arguments receivedPackets {D} _.
Arguments lostPacketsTotal {D} _.

(** ** The scenario handed to the engine, and what a run leaves behind *)

Record Vector (D : Type) : Type := { vx : D; vy : D; vz : D }.
Arguments vx {D} _.
Arguments vy {D} _.
Arguments vz {D} _.

Record Rectangle (D : Type) : Type := {
  xMin : D; xMax : D; yMin : D; yMax : D
}.

(** Initial placement of the terminals. *)
Inductive UePlacement (D : Type) : Type :=
| RandomRectangle (bounds : Rectangle D)   (* drawn by the engine *)
| Listed (positions : list (Vector D)).    (* ListPositionAllocator *)

Inductive Attachment : Type :=
| AttachAllTo (enb : Z)      (* lteHelper->Attach(ue, enbDevs.Get(enb)) *)
| AttachStrongest.           (* lteHelper->Attach(ueDevs) *)

(** One [UdpClient] application with the active window of its container. *)
Record UdpClient (D : Type) : Type := {
  client_node : Z;
  client_port : Z;
  MaxPackets : Z;
  Interval : D;
  PacketSize : Z;
  client_start : D;
  client_stop : D
}.
Arguments client_node {D} _.
Arguments client_port {D} _.
Arguments MaxPackets {D} _.
Arguments Interval {D} _.
Arguments PacketSize {D} _.
Arguments client_start {D} _.
Arguments client_stop {D} _.

Record Scenario (D : Type) : Type := {
  DlBandwidth : Z;               (* resource blocks *)
  UlBandwidth : Z;
  p2pDataRate : string;
  p2pDelayMs : Z;                (* core transport delay *)
  enbPositions : list (Vector D);
  ueCount : Z;
  uePlacement : UePlacement D;
  walkBounds : Rectangle D;
  walkSpeedMin : D;
  walkSpeedMax : D;
  attachment : Attachment;
  serverPort : Z;
  serverStart : D;
  serverStop : D;
  clientApps : list (UdpClient D);
  stopTime : D
}.

Arguments DlBandwidth {D} _.
Arguments UlBandwidth {D} _.
Arguments p2pDataRate {D} _.
Arguments p2pDelayMs {D} _.
Arguments enbPositions {D} _.
Arguments ueCount {D} _.
Arguments attachment {D} _.
Arguments clientApps {D} _.
Arguments stopTime {D} _.

(** The external engine: [Simulator::Run] followed by the flow monitor's
    statistics (in the order of the flow ids) and its classifier. *)
Record Engine (D : Type) : Type := {
  GetFlowStats : Scenario D -> list (FlowId * FlowStats D);
  FindFlow : Scenario D -> FlowId -> FiveTuple
}.
Arguments GetFlowStats {D} _ _.
Arguments FindFlow {D} _ _ _.

Inductive LogEvent (D : Type) : Type :=
| LogStartSingle (nUes : Z) (tech : string)
| LogStartMulti (nUes nEnbs : Z) (tech : string) (areaSize : D)
| LogEnb (i : Z) (position : Vector D)
| LogFlow (line : FlowLine D).
Arguments LogStartSingle {D} _ _.
Arguments LogStartMulti {D} _ _ _ _.
Arguments LogEnb {D} _ _.
Arguments LogFlow {D} _.

(** The summary written to standard output. *)
Record Printed (D : Type) : Type := {
  printed_tech : string;
  printed_nUes : Z;
  printed_nEnbs : option Z;        (* multi-cell only *)
  printed_areaSize : option D;     (* multi-cell only *)
  printed_simTime : D;
  printed_report : Report D
}.
Arguments printed_report {D} _.

Inductive Outcome (D : Type) : Type :=
| Aborted (log : list (LogEvent D)) (msg : string)
| Exited (log : list (LogEvent D)) (out : Printed D) (code : Z).
Arguments Aborted {D} _ _.
Arguments Exited {D} _ _ _.

Definition abort_message : string :=
  "Valor inválido para --tech (use 4g ou 5g)"%string.

Definition when {A} (b : bool) (l : list A) : list A := if b then l else [].

(** The loop counters [0, 1, ..., n-1]. *)
Definition upto (n : Z) : list Z := map Z.of_nat (seq 0 (Z.to_nat n)).

(** A test on each of the [count] integers from [i] on. *)
Fixpoint all_from (test : Z -> bool) (count : nat) (i : Z) : bool :=
  match count with
  | O => true
  | S count' => test i && all_from test count' (i + 1)
  end.

(** ** Single-cell program ([cellular_city_sim.cc]) *)

Module SingleCell.
(** *** 7 Result processing *)

Section Aggregation.
Context {D : Type} `{DoubleOps D}.
Local Open Scope double_scope.
Local Open Scope calc_scope.

Variable simTime : D.
Variable classifier : FlowId -> FiveTuple.

Definition initial : Totals D :=
  {| totalDelay := of_int 0; totalJitter := of_int 0;
     totalRxPackets := 0; totalRxBytes := 0; totalLostPackets := 0 |}.

(** Body of [for (auto const &flow : stats)]. *)
Definition flow_body (acc : Totals D) (flow : FlowId * FlowStats D)
  : Calc D (FlowLine D * Totals D) :=
  let id := fst flow in
  let fs := snd flow in
  let t := classifier id in
  throughputMbps <- divide (of_int (rxBytes fs) * of_int 8)
                           (simTime * of_int 1000000) ;;
  meanDelayMs <- (if 0 <? rxPackets fs
                  then q <- divide (delaySum fs) (of_int (rxPackets fs)) ;;
                       ret (q * of_int 1000)
                  else ret (of_int 0)) ;;
  ret ({| line_id := id; line_tuple := t;
          line_throughputMbps := throughputMbps;
          line_meanDelayMs := meanDelayMs;
          line_rxPackets := rxPackets fs;
          line_lostPackets := lostPackets fs |},
       {| totalDelay := totalDelay acc + delaySum fs;
          totalJitter := if 1 <? rxPackets fs
                         then totalJitter acc + jitterSum fs
                         else totalJitter acc;
          totalRxPackets := u64 (totalRxPackets acc + rxPackets fs);
          totalRxBytes := u64 (totalRxBytes acc + rxBytes fs);
          totalLostPackets := u64 (totalLostPackets acc + lostPackets fs) |}).

(** The loop over [stats], in the order of the map's keys. *)
Fixpoint loop (stats : list (FlowId * FlowStats D)) (acc : Totals D)
  : Calc D (list (FlowLine D) * Totals D) :=
  match stats with
  | [] => ret ([], acc)
  | flow :: rest =>
      step <- flow_body acc flow ;;
      done <- loop rest (snd step) ;;
      ret (fst step :: fst done, snd done)
  end.

(** The code after the loop, up to the values that are printed. *)
Definition summary (tot : Totals D) : Calc D (Report D) :=
  metrics <- (if 0 <? totalRxPackets tot
              then
                meanDelay <- divide (totalDelay tot)
                                    (of_int (totalRxPackets tot)) ;;
                meanJitter <- (if 1 <? totalRxPackets tot
                               then divide (totalJitter tot)
                                      (of_int (totalRxPackets tot - 1))
                               else ret (of_int 0)) ;;
                throughput <- divide (of_int (totalRxBytes tot) * of_int 8)
                                     (simTime * of_int 1000000) ;;
                ret (meanDelay * of_int 1000, meanJitter * of_int 1000,
                     throughput)
              else ret (of_int 0, of_int 0, of_int 0)) ;;
  let totalOfferedPackets :=
    u64 (totalRxPackets tot + totalLostPackets tot) in
  lossRate <- (if 0 <? totalOfferedPackets
               then divide (of_int (totalLostPackets tot) * of_int 100)
                           (of_int totalOfferedPackets)
               else ret (of_int 0)) ;;
  ret {| meanDelayMs := fst (fst metrics);
         jitterMs := snd (fst metrics);
         throughputMbps := snd metrics;
         lossRatePct := lossRate;
         receivedPackets := totalRxPackets tot;
         lostPacketsTotal := totalLostPackets tot |}.

Definition aggregate (stats : list (FlowId * FlowStats D))
  : Calc D (list (FlowLine D) * Totals D * Report D) :=
  done <- loop stats initial ;;
  report <- summary (snd done) ;;
  ret (done, report).

End Aggregation.

Section Program.
Context {D : Type} `{DoubleOps D}.
Local Open Scope double_scope.

(** Command-line parameters after parsing. *)
Record Options : Type := {
  nUes : Z;          (* uint16_t, default 50 *)
  simTime : D;       (* default 30.0 *)
  tech : string;     (* default "4g" *)
  verbose : bool     (* default true *)
}.

(** [DlBandwidth]/[UlBandwidth] for the profile, or the abort. *)
Definition bandwidth (tech : string) : option Z :=
  if String.eqb tech "4g"%string then Some 50
  else if String.eqb tech "5g"%string then Some 100
  else None.

(** Delay of the link between PGW and remote host. *)
Definition core_delay_ms (tech : string) : Z :=
  if String.eqb tech "4g"%string then 10 else 2.

Definition dlPort : Z := 1234.
Definition packetInterval : D := dlit 1 10.
Definition packetSize : Z := 200.

Definition udp_clients (opts : Options) : list (UdpClient D) :=
  map (fun i =>
         {| client_node := i;
            client_port := dlPort;
            MaxPackets := 0xFFFFFFFF;
            Interval := packetInterval;
            PacketSize := packetSize;
            client_start := dlit 5 10;
            client_stop := simTime opts |})
      (upto (nUes opts)).

Definition scenario (opts : Options) (rbs : Z) : Scenario D :=
  {| DlBandwidth := rbs;
     UlBandwidth := rbs;
     p2pDataRate := "10Gbps"%string;
     p2pDelayMs := core_delay_ms (tech opts);
     enbPositions := [ {| vx := of_int 0; vy := of_int 0; vz := of_int 30 |} ];
     ueCount := nUes opts;
     uePlacement :=
       RandomRectangle D
         {| xMin := of_int (-500); xMax := of_int 500;
            yMin := of_int (-500); yMax := of_int 500 |};
     walkBounds :=
       {| xMin := of_int (-500); xMax := of_int 500;
          yMin := of_int (-500); yMax := of_int 500 |};
     walkSpeedMin := dlit 5 10;
     walkSpeedMax := of_int 2;
     attachment := AttachAllTo 0;
     serverPort := dlPort;
     serverStart := dlit 1 10;
     serverStop := simTime opts;
     clientApps := udp_clients opts;
     stopTime := simTime opts |}.

(** The scenario built before [Simulator::Run], unless the profile is
    rejected. *)
Definition configure (opts : Options) : option (Scenario D) :=
  match bandwidth (tech opts) with
  | None => None
  | Some rbs => Some (scenario opts rbs)
  end.

Definition main (engine : Engine D) (opts : Options) : Outcome D :=
  let log0 := when (verbose opts) [LogStartSingle (nUes opts) (tech opts)] in
  match configure opts with
  | None => Aborted log0 abort_message
  | Some sc =>
      let stats := GetFlowStats engine sc in
      let result :=
        value (aggregate (simTime opts) (FindFlow engine sc) stats) in
      Exited (log0 ++ when (verbose opts) (map LogFlow (fst (fst result))))
             {| printed_tech := tech opts;
                printed_nUes := nUes opts;
                printed_nEnbs := None;
                printed_areaSize := None;
                printed_simTime := simTime opts;
                printed_report := snd result |}
             0
  end.

End Program.
End SingleCell.

(** ** Multi-cell program ([cellular_city_multicell_sim.cc]) *)

Module MultiCell.
(** *** 7 Result processing *)

Section Aggregation.
Context {D : Type} `{DoubleOps D}.
Local Open Scope double_scope.
Local Open Scope calc_scope.

Variable simTime : D.
Variable classifier : FlowId -> FiveTuple.

Definition initial : Totals D :=
  {| totalDelay := of_int 0; totalJitter := of_int 0;
     totalRxPackets := 0; totalRxBytes := 0; totalLostPackets := 0 |}.

(** Body of [for (auto const &flow : stats)]. *)
Definition flow_body (acc : Totals D) (flow : FlowId * FlowStats D)
  : Calc D (FlowLine D * Totals D) :=
  let id := fst flow in
  let fs := snd flow in
  let t := classifier id in
  throughputMbps <- divide (of_int (rxBytes fs) * of_int 8)
                           (simTime * of_int 1000000) ;;
  meanDelayMs <- (if 0 <? rxPackets fs
                  then q <- divide (delaySum fs) (of_int (rxPackets fs)) ;;
                       ret (q * of_int 1000)
                  else ret (of_int 0)) ;;
  ret ({| line_id := id; line_tuple := t;
          line_throughputMbps := throughputMbps;
          line_meanDelayMs := meanDelayMs;
          line_rxPackets := rxPackets fs;
          line_lostPackets := lostPackets fs |},
       {| totalDelay := totalDelay acc + delaySum fs;
          totalJitter := if 1 <? rxPackets fs
                         then totalJitter acc + jitterSum fs
                         else totalJitter acc;
          totalRxPackets := u64 (totalRxPackets acc + rxPackets fs);
          totalRxBytes := u64 (totalRxBytes acc + rxBytes fs);
          totalLostPackets := u64 (totalLostPackets acc + lostPackets fs) |}).

(** The loop over [stats], in the order of the map's keys. *)
Fixpoint loop (stats : list (FlowId * FlowStats D)) (acc : Totals D)
  : Calc D (list (FlowLine D) * Totals D) :=
  match stats with
  | [] => ret ([], acc)
  | flow :: rest =>
      step <- flow_body acc flow ;;
      done <- loop rest (snd step) ;;
      ret (fst step :: fst done, snd done)
  end.

(** The code after the loop, up to the values that are printed. *)
Definition summary (tot : Totals D) : Calc D (Report D) :=
  metrics <- (if 0 <? totalRxPackets tot
              then
                meanDelay <- divide (totalDelay tot)
                                    (of_int (totalRxPackets tot)) ;;
                meanJitter <- (if 1 <? totalRxPackets tot
                               then divide (totalJitter tot)
                                      (of_int (totalRxPackets tot - 1))
                               else ret (of_int 0)) ;;
                throughput <- divide (of_int (totalRxBytes tot) * of_int 8)
                                     (simTime * of_int 1000000) ;;
                ret (meanDelay * of_int 1000, meanJitter * of_int 1000,
                     throughput)
              else ret (of_int 0, of_int 0, of_int 0)) ;;
  let totalOfferedPackets :=
    u64 (totalRxPackets tot + totalLostPackets tot) in
  lossRate <- (if 0 <? totalOfferedPackets
               then divide (of_int (totalLostPackets tot) * of_int 100)
                           (of_int totalOfferedPackets)
               else ret (of_int 0)) ;;
  ret {| meanDelayMs := fst (fst metrics);
         jitterMs := snd (fst metrics);
         throughputMbps := snd metrics;
         lossRatePct := lossRate;
         receivedPackets := totalRxPackets tot;
         lostPacketsTotal := totalLostPackets tot |}.

Definition aggregate (stats : list (FlowId * FlowStats D))
  : Calc D (list (FlowLine D) * Totals D * Report D) :=
  done <- loop stats initial ;;
  report <- summary (snd done) ;;
  ret (done, report).

End Aggregation.

Section Program.
Context {D : Type} `{DoubleOps D}.
Local Open Scope double_scope.

Record Options : Type := {
  nUes : Z;          (* uint32_t, default 100 *)
  nEnbs : Z;         (* uint16_t, default 4 *)
  simTime : D;       (* default 60.0 *)
  tech : string;     (* default "4g" *)
  verbose : bool;    (* default true *)
  areaSize : D       (* default 2000.0 *)
}.

Definition bandwidth (tech : string) : option Z :=
  if String.eqb tech "4g"%string then Some 50
  else if String.eqb tech "5g"%string then Some 100
  else None.

Definition core_delay_ms (tech : string) : Z :=
  if String.eqb tech "4g"%string then 10 else 2.

(** *** 3.1 eNodeB grid

    A [double] assigned to a [uint16_t] is truncated; the values that occur
    are in range (out of range the conversion is undefined in C++, the model
    wraps). *)

Definition nRows (nEnbs : Z) : Z :=
  let r := u16 (to_int (dfloor (dsqrt (of_int nEnbs)))) in
  if r =? 0 then 1 else r.

Definition nCols (nEnbs : Z) : Z :=
  u16 (to_int (dceil (of_int nEnbs / of_int (nRows nEnbs)))).

(** Body of the placement loop for counter [i]. *)
Definition enb_position (areaSize : D) (nEnbs i : Z) : Vector D :=
  let half := areaSize / of_int 2 in
  let dx := areaSize / of_int (nCols nEnbs + 1) in
  let dy := areaSize / of_int (nRows nEnbs + 1) in
  let row := u16 (Z.quot i (nCols nEnbs)) in
  let col := u16 (Z.rem i (nCols nEnbs)) in
  {| vx := - half + of_int (col + 1) * dx;
     vy := - half + of_int (row + 1) * dy;
     vz := of_int 30 |}.

Definition enb_positions (areaSize : D) (nEnbs : Z) : list (Vector D) :=
  map (enb_position areaSize nEnbs) (upto nEnbs).

(** *** 3.2 Terminals: [posX k], [posY k] are the k-th values drawn from
    the two uniform variables on [[-half, half]]. *)

Definition ue_positions (posX posY : D -> D -> nat -> D) (half : D)
           (nUes : Z) : list (Vector D) :=
  map (fun k => {| vx := posX (- half) half k;
                   vy := posY (- half) half k;
                   vz := dlit 15 10 |})
      (seq 0 (Z.to_nat nUes)).

(** *** 5 Traffic *)

Definition dlPort : Z := 1234.
Definition packetInterval : D := dlit 2 100.
Definition packetSize : Z := 200.

Definition udp_clients (opts : Options) : list (UdpClient D) :=
  map (fun i =>
         {| client_node := i;
            client_port := dlPort;
            MaxPackets := 0xFFFFFFFF;
            Interval := packetInterval;
            PacketSize := packetSize;
            client_start := dlit 5 10;
            client_stop := simTime opts |})
      (upto (nUes opts)).

Variables posX posY : D -> D -> nat -> D.

Definition scenario (opts : Options) (rbs : Z) : Scenario D :=
  let half := areaSize opts / of_int 2 in
  {| DlBandwidth := rbs;
     UlBandwidth := rbs;
     p2pDataRate := "10Gbps"%string;
     p2pDelayMs := core_delay_ms (tech opts);
     enbPositions := enb_positions (areaSize opts) (nEnbs opts);
     ueCount := nUes opts;
     uePlacement := Listed D (ue_positions posX posY half (nUes opts));
     walkBounds :=
       {| xMin := - half; xMax := half; yMin := - half; yMax := half |};
     walkSpeedMin := dlit 5 10;
     walkSpeedMax := of_int 2;
     attachment := AttachStrongest;
     serverPort := dlPort;
     serverStart := dlit 1 10;
     serverStop := simTime opts;
     clientApps := udp_clients opts;
     stopTime := simTime opts |}.

Definition configure (opts : Options) : option (Scenario D) :=
  match bandwidth (tech opts) with
  | None => None
  | Some rbs => Some (scenario opts rbs)
  end.

Definition main (engine : Engine D) (opts : Options) : Outcome D :=
  let log0 :=
    when (verbose opts)
         [LogStartMulti (nUes opts) (nEnbs opts) (tech opts) (areaSize opts)] in
  match configure opts with
  | None => Aborted log0 abort_message
  | Some sc =>
      let log1 :=
        when (verbose opts)
             (map (fun i => LogEnb i (enb_position (areaSize opts)
                                                   (nEnbs opts) i))
                  (upto (nEnbs opts))) in
      let stats := GetFlowStats engine sc in
      let result :=
        value (aggregate (simTime opts) (FindFlow engine sc) stats) in
      Exited (log0 ++ log1
                ++ when (verbose opts) (map LogFlow (fst (fst result))))
             {| printed_tech := tech opts;
                printed_nUes := nUes opts;
                printed_nEnbs := Some (nEnbs opts);
                printed_areaSize := Some (areaSize opts);
                printed_simTime := simTime opts;
                printed_report := snd result |}
             0
  end.

End Program.
End MultiCell.

(** ** The two programs side by side *)

Inductive Variant : Type := SingleCellSim | MultiCellSim.

Definition Stage (D : Type) : Type :=
  Calc D (list (FlowLine D) * Totals D * Report D).

(** The result-processing stage of either program. *)
Definition aggregation_stage {D} `{DoubleOps D} (v : Variant) (simTime : D)
           (classifier : FlowId -> FiveTuple)
           (stats : list (FlowId * FlowStats D)) : Stage D :=
  match v with
  | SingleCellSim => SingleCell.aggregate simTime classifier stats
  | MultiCellSim => MultiCell.aggregate simTime classifier stats
  end.

Definition totals_of {D} (r : Stage D) : Totals D := snd (fst (value r)).
Definition report_of {D} (r : Stage D) : Report D := snd (value r).

(** ** The specification's sums *)

Section SpecSums.
Context {D : Type} `{DoubleOps D}.
Local Open Scope double_scope.

(** Sum of an integer field over all flows. *)
Definition sum_over (field : FlowStats D -> Z)
           (stats : list (FlowId * FlowStats D)) : Z :=
  fold_right (fun flow s => field (snd flow) + s)%Z 0 stats.

(** Cumulative delay of all flows, added in the order of the flows. *)
Definition spec_totalDelaySum (stats : list (FlowId * FlowStats D)) : D :=
  fold_left (fun sum flow => sum + delaySum (snd flow)) stats (of_int 0).

(** Cumulative jitter of the flows with more than one received packet. *)
Definition spec_totalJitterSum (stats : list (FlowId * FlowStats D)) : D :=
  fold_left (fun sum flow => sum + jitterSum (snd flow))
            (filter (fun flow => 1 <? rxPackets (snd flow)) stats)
            (of_int 0).

(** Flow records as the flow monitor can produce them: every counter within
    its C++ type, and at most [2^32] flows (flow ids are 32-bit). *)
Definition wf_stats (stats : list (FlowId * FlowStats D)) : Prop :=
  Forall (fun flow => wf_flow (snd flow)) stats /\
  Z.of_nat (List.length stats) <= 2 ^ 32.

End SpecSums.

(** ** The specification's flows

    A constant-bit-rate flow sends packet [k] (counted from 0) at the instant
    [start + k * interval].  It "sends continuously until its stop time" when
    every such instant before the stop time is within the maximum packet
    count. *)

Definition send_instant (start interval : Q) (k : Z) : Q :=
  (start + inject_Z k * interval)%Q.

Definition sends_until_stop (maxPackets : Z) (start interval stop : Q) : Prop :=
  forall k : Z,
    0 <= k -> (send_instant start interval k < stop)%Q -> k < maxPackets.

(** ** The specification's worked examples *)

Section Examples.
Context {D : Type} `{DoubleOps D}.

(** Flow A: 10 received, 2 lost, delay sum 1.0 s, jitter sum 0.2 s. *)
Definition flowA : FlowStats D :=
  {| rxPackets := 10; rxBytes := 2000; lostPackets := 2;
     delaySum := of_int 1; jitterSum := dlit 2 10 |}.

(** Flow B: 5 received, 0 lost, delay sum 0.3 s, jitter sum 0.05 s. *)
Definition flowB : FlowStats D :=
  {| rxPackets := 5; rxBytes := 1000; lostPackets := 0;
     delaySum := dlit 3 10; jitterSum := dlit 5 100 |}.

Definition two_flows : list (FlowId * FlowStats D) :=
  [(1, flowA); (2, flowB)].

(** One packet of 100 bytes received after 0.05 s, none lost. *)
Definition single_packet_flow_record : FlowStats D :=
  {| rxPackets := 1; rxBytes := 100; lostPackets := 0;
     delaySum := dlit 5 100; jitterSum := of_int 0 |}.

(** A flow on which nothing arrived: 5 packets lost. *)
Definition dead_flow : FlowStats D :=
  {| rxPackets := 0; rxBytes := 0; lostPackets := 5;
     delaySum := of_int 0; jitterSum := of_int 0 |}.

(** A record with bytes but no packets (outside the data model). *)
Definition bytes_only_flow : FlowStats D :=
  {| rxPackets := 0; rxBytes := 100; lostPackets := 0;
     delaySum := of_int 0; jitterSum := of_int 0 |}.

End Examples.

(** [lo < x < hi] on binary64 values. *)
Definition strictly_between (lo x hi : float) : bool :=
  PrimFloat.ltb lo x && PrimFloat.ltb x hi.

(** Strictly inside the square of side [areaSize], in binary64. *)
Definition inside_squareb (areaSize : float) (p : Vector float) : bool :=
  let half := PrimFloat.div areaSize 2 in
  strictly_between (PrimFloat.opp half) (vx p) half
  && strictly_between (PrimFloat.opp half) (vy p) half.

Definition same_placeb (p q : Vector float) : bool :=
  PrimFloat.eqb (vx p) (vx q) && PrimFloat.eqb (vy p) (vy q).

Fixpoint pairwise_distinctb (stations : list (Vector float)) : bool :=
  match stations with
  | [] => true
  | p :: rest =>
      forallb (fun q => negb (same_placeb p q)) rest
      && pairwise_distinctb rest
  end.

(** The three requirements on the stations of a grid, tested in binary64. *)
Definition stations_okb (areaSize : float) (N : Z) : bool :=
  let stations := MultiCell.enb_positions areaSize N in
  (Z.of_nat (List.length stations) =? N)
  && forallb (inside_squareb areaSize) stations
  && pairwise_distinctb stations.

(** What rounding a positive mantissa to binary64 can give: an infinity or a
    finite value of the same sign, with a mantissa of at most 53 bits, an
    exponent of at least [e0] and a magnitude (bits + exponent) of at least
    [mag]. *)
Definition rounded (sx : bool) (mag e0 : Z) (x : spec_float) : Prop :=
  match x with
  | S754_infinity s => s = sx
  | S754_finite s m e =>
      s = sx /\ e0 <= e /\ Z.log2 (Zpos m) + 1 <= 53
      /\ mag <= Z.log2 (Zpos m) + 1 + e
  | _ => False
  end.

(** ** Properties of the arithmetic that some theorems rely on *)

Section Laws.
Context (D : Type) `{DoubleOps D}.

(** [0.0 * 1000.0] is [0.0]. *)
Definition zero_times_1000 : Prop :=
  dmul (of_int 0) (of_int 1000) = of_int 0.

(** A non-zero 64-bit count converts to a non-zero double. *)
Definition conversion_nonzero : Prop :=
  forall z, 0 < z < 2 ^ 64 -> is_zero (of_int z) = false.

(** The integer part of the grid computation is exact on 16-bit counts:
    [floor(sqrt(n))] is the integer square root and [ceil(n / r)] the
    rounded-up quotient by the clamped row count. *)
Definition grid_exact_at (n : Z) : Prop :=
  u16 (to_int (dfloor (dsqrt (of_int n)))) = Z.sqrt n
  /\ u16 (to_int (dceil (ddiv (of_int n) (of_int (Z.max 1 (Z.sqrt n))))))
     = (n + Z.max 1 (Z.sqrt n) - 1) / Z.max 1 (Z.sqrt n).

Definition grid_exact : Prop := forall n, is_u16 n -> grid_exact_at n.

(** The same, as a test: [c] is the rounded-up quotient of [n] by [r] when
    [(c - 1) * r < n <= c * r]. *)
Definition grid_exact_atb (n : Z) : bool :=
  let r := Z.max 1 (Z.sqrt n) in
  let c := u16 (to_int (dceil (ddiv (of_int n) (of_int r)))) in
  (u16 (to_int (dfloor (dsqrt (of_int n)))) =? Z.sqrt n)
  && ((c - 1) * r <? n) && (n <=? c * r).

End Laws.

(** * Supporting lemmas *)

(** ** Facts about the result-processing stage *)

Lemma u64_mod (z : Z) : u64 z = z mod 2 ^ 64.
Proof.
  unfold u64. change 0xFFFFFFFFFFFFFFFF with (Z.ones 64).
  apply Z.land_ones. lia.
Qed.

Lemma u64_idem (z : Z) : u64 (u64 z) = u64 z.
Proof. rewrite !u64_mod. apply Z.mod_mod. lia. Qed.

Lemma u64_small (z : Z) : is_u64 z -> u64 z = z.
Proof. unfold is_u64. intros Hz. rewrite u64_mod. apply Z.mod_small. exact Hz. Qed.

Lemma u64_range (z : Z) : is_u64 (u64 z).
Proof. unfold is_u64. rewrite u64_mod. apply Z.mod_pos_bound. lia. Qed.

Lemma u64_add_l (a b : Z) : u64 (u64 a + b) = u64 (a + b).
Proof. rewrite !u64_mod. apply Zplus_mod_idemp_l. Qed.

Section AggregationFacts.
Context {D : Type} `{DoubleOps D}.
Local Open Scope double_scope.

Variable simTime : D.
Variable classifier : FlowId -> FiveTuple.

Lemma value_bind {A B} (m : Calc D A) (k : A -> Calc D B) :
  value (bind m k) = value (k (value m)).
Proof. reflexivity. Qed.

Lemma denominators_bind {A B} (m : Calc D A) (k : A -> Calc D B) :
  denominators (bind m k) = denominators m ++ denominators (k (value m)).
Proof. reflexivity. Qed.

(** The two loops and the two summaries coincide. *)
Lemma flow_body_agree acc flow :
  SingleCell.flow_body simTime classifier acc flow
  = MultiCell.flow_body simTime classifier acc flow.
Proof. reflexivity. Qed.

Lemma loop_agree stats : forall acc,
  SingleCell.loop simTime classifier stats acc
  = MultiCell.loop simTime classifier stats acc.
Proof.
  induction stats as [|flow rest IH]; intros acc; simpl.
  - reflexivity.
  - unfold bind. rewrite flow_body_agree, !IH. reflexivity.
Qed.

Lemma summary_agree tot :
  SingleCell.summary simTime tot = MultiCell.summary simTime tot.
Proof. reflexivity. Qed.

Lemma stage_totals v stats :
  totals_of (aggregation_stage v simTime classifier stats)
  = snd (value (MultiCell.loop simTime classifier stats MultiCell.initial)).
Proof.
  destruct v; unfold totals_of, aggregation_stage.
  - unfold SingleCell.aggregate, bind, ret, value; cbn [fst snd].
    rewrite loop_agree. reflexivity.
  - reflexivity.
Qed.

Lemma stage_report v stats :
  report_of (aggregation_stage v simTime classifier stats)
  = value (MultiCell.summary simTime
             (totals_of (aggregation_stage v simTime classifier stats))).
Proof.
  destruct v; unfold report_of, totals_of, aggregation_stage.
  - unfold SingleCell.aggregate, bind, ret, value; cbn [fst snd].
    rewrite summary_agree. reflexivity.
  - reflexivity.
Qed.

(** *** The accumulators after the loop *)

Lemma loop_cons flow rest acc :
  snd (value (MultiCell.loop simTime classifier (flow :: rest) acc))
  = snd (value (MultiCell.loop simTime classifier rest
           (snd (value (MultiCell.flow_body simTime classifier acc flow))))).
Proof. reflexivity. Qed.

Lemma loop_totalDelay stats : forall acc,
  totalDelay (snd (value (MultiCell.loop simTime classifier stats acc)))
  = fold_left (fun sum flow => sum + delaySum (snd flow)) stats
              (totalDelay acc).
Proof.
  induction stats as [|flow rest IH]; intros acc.
  - reflexivity.
  - rewrite loop_cons, IH. reflexivity.
Qed.

Lemma loop_totalJitter stats : forall acc,
  totalJitter (snd (value (MultiCell.loop simTime classifier stats acc)))
  = fold_left (fun sum flow => sum + jitterSum (snd flow))
              (filter (fun flow => 1 <? rxPackets (snd flow)) stats)
              (totalJitter acc).
Proof.
  induction stats as [|flow rest IH]; intros acc.
  - reflexivity.
  - rewrite loop_cons, IH. simpl.
    destruct (1 <? rxPackets (snd flow)); reflexivity.
Qed.

Lemma fold_u64 (field : FlowStats D -> Z) stats : forall n,
  fold_left (fun a flow => u64 (a + field (snd flow))) stats (u64 n)
  = u64 (n + sum_over field stats).
Proof.
  induction stats as [|flow rest IH]; intros n; simpl.
  - f_equal. lia.
  - rewrite u64_add_l, IH. f_equal. lia.
Qed.

Lemma loop_totalRxPackets stats :
  totalRxPackets
    (snd (value (MultiCell.loop simTime classifier stats MultiCell.initial)))
  = u64 (sum_over rxPackets stats).
Proof.
  change (sum_over rxPackets stats) with (0 + sum_over rxPackets stats)%Z.
  rewrite <- fold_u64.
  change (u64 0) with (totalRxPackets (MultiCell.initial (D:=D))).
  generalize (MultiCell.initial (D:=D)).
  induction stats as [|flow rest IH]; intros acc.
  - reflexivity.
  - rewrite loop_cons, IH. reflexivity.
Qed.

Lemma loop_totalRxBytes stats :
  totalRxBytes
    (snd (value (MultiCell.loop simTime classifier stats MultiCell.initial)))
  = u64 (sum_over rxBytes stats).
Proof.
  change (sum_over rxBytes stats) with (0 + sum_over rxBytes stats)%Z.
  rewrite <- fold_u64.
  change (u64 0) with (totalRxBytes (MultiCell.initial (D:=D))).
  generalize (MultiCell.initial (D:=D)).
  induction stats as [|flow rest IH]; intros acc.
  - reflexivity.
  - rewrite loop_cons, IH. reflexivity.
Qed.

Lemma loop_totalLostPackets stats :
  totalLostPackets
    (snd (value (MultiCell.loop simTime classifier stats MultiCell.initial)))
  = u64 (sum_over lostPackets stats).
Proof.
  change (sum_over lostPackets stats) with (0 + sum_over lostPackets stats)%Z.
  rewrite <- fold_u64.
  change (u64 0) with (totalLostPackets (MultiCell.initial (D:=D))).
  generalize (MultiCell.initial (D:=D)).
  induction stats as [|flow rest IH]; intros acc.
  - reflexivity.
  - rewrite loop_cons, IH. reflexivity.
Qed.

(** Within the C++ types the packet counters cannot wrap. *)
Lemma sum_over_bound (field : FlowStats D -> Z) stats :
  Forall (fun flow => is_u32 (field (snd flow))) stats ->
  (0 <= sum_over field stats
     <= Z.of_nat (List.length stats) * (2 ^ 32 - 1))%Z.
Proof.
  unfold is_u32. induction 1 as [|flow rest Hflow _ IH].
  - simpl. lia.
  - cbn [sum_over fold_right List.length]. fold (sum_over field rest).
    rewrite Nat2Z.inj_succ. lia.
Qed.

Lemma packets_no_wrap (stats : list (FlowId * FlowStats D)) :
  wf_stats stats ->
  u64 (sum_over rxPackets stats) = sum_over rxPackets stats /\
  u64 (sum_over lostPackets stats) = sum_over lostPackets stats.
Proof.
  intros [Hwf Hlen].
  assert (Hrx : Forall (fun flow : FlowId * FlowStats D =>
                          is_u32 (rxPackets (snd flow))) stats).
  { eapply Forall_impl; [|exact Hwf]. intros flow Hf. apply Hf. }
  assert (Hlost : Forall (fun flow : FlowId * FlowStats D =>
                            is_u32 (lostPackets (snd flow))) stats).
  { eapply Forall_impl; [|exact Hwf]. intros flow Hf. apply Hf. }
  apply sum_over_bound in Hrx. apply sum_over_bound in Hlost.
  split; apply u64_small; unfold is_u64; nia.
Qed.

Lemma offered_no_wrap (stats : list (FlowId * FlowStats D)) :
  wf_stats stats ->
  (Z.of_nat (List.length stats) <= 2 ^ 31)%Z ->
  u64 (u64 (sum_over rxPackets stats) + u64 (sum_over lostPackets stats))
  = (sum_over rxPackets stats + sum_over lostPackets stats)%Z.
Proof.
  intros Hwf Hlen.
  destruct (packets_no_wrap stats Hwf) as [-> ->].
  destruct Hwf as [Hwf _].
  assert (Hrx : Forall (fun flow : FlowId * FlowStats D =>
                          is_u32 (rxPackets (snd flow))) stats).
  { eapply Forall_impl; [|exact Hwf]. intros flow Hf. apply Hf. }
  assert (Hlost : Forall (fun flow : FlowId * FlowStats D =>
                            is_u32 (lostPackets (snd flow))) stats).
  { eapply Forall_impl; [|exact Hwf]. intros flow Hf. apply Hf. }
  apply sum_over_bound in Hrx. apply sum_over_bound in Hlost.
  apply u64_small. unfold is_u64. nia.
Qed.

End AggregationFacts.

Section SummaryFacts.
Context {D : Type} `{DoubleOps D}.
Local Open Scope double_scope.

Variable simTime : D.

Lemma summary_meanDelayMs tot :
  meanDelayMs (value (MultiCell.summary simTime tot))
  = if 0 <? totalRxPackets tot
    then (totalDelay tot / of_int (totalRxPackets tot)) * of_int 1000
    else of_int 0.
Proof.
  unfold MultiCell.summary, bind, ret, divide, value.
  destruct (0 <? totalRxPackets tot); reflexivity.
Qed.

Lemma summary_jitterMs tot :
  jitterMs (value (MultiCell.summary simTime tot))
  = if 0 <? totalRxPackets tot
    then (if 1 <? totalRxPackets tot
          then totalJitter tot / of_int (totalRxPackets tot - 1)
          else of_int 0) * of_int 1000
    else of_int 0.
Proof.
  unfold MultiCell.summary, bind, ret, divide, value.
  destruct (0 <? totalRxPackets tot);
    destruct (1 <? totalRxPackets tot); reflexivity.
Qed.

Lemma summary_throughputMbps tot :
  throughputMbps (value (MultiCell.summary simTime tot))
  = if 0 <? totalRxPackets tot
    then (of_int (totalRxBytes tot) * of_int 8)
         / (simTime * of_int 1000000)
    else of_int 0.
Proof.
  unfold MultiCell.summary, bind, ret, divide, value.
  destruct (0 <? totalRxPackets tot);
    destruct (1 <? totalRxPackets tot); reflexivity.
Qed.

Lemma summary_lossRatePct tot :
  lossRatePct (value (MultiCell.summary simTime tot))
  = if 0 <? u64 (totalRxPackets tot + totalLostPackets tot)
    then (of_int (totalLostPackets tot) * of_int 100)
         / of_int (u64 (totalRxPackets tot + totalLostPackets tot))
    else of_int 0.
Proof.
  unfold MultiCell.summary, bind, ret, divide, value; cbn [fst snd].
  destruct (0 <? u64 (totalRxPackets tot + totalLostPackets tot));
    reflexivity.
Qed.

Lemma summary_denominators tot :
  denominators (MultiCell.summary simTime tot)
  = (if 0 <? totalRxPackets tot
     then of_int (totalRxPackets tot)
          :: (if 1 <? totalRxPackets tot
              then [of_int (totalRxPackets tot - 1)] else [])
          ++ [simTime * of_int 1000000]
     else [])
    ++ (if 0 <? u64 (totalRxPackets tot + totalLostPackets tot)
        then [of_int (u64 (totalRxPackets tot + totalLostPackets tot))]
        else []).
Proof.
  unfold MultiCell.summary, bind, ret, divide, denominators; cbn [fst snd].
  destruct (0 <? totalRxPackets tot);
    destruct (1 <? totalRxPackets tot);
    destruct (0 <? u64 (totalRxPackets tot + totalLostPackets tot));
    reflexivity.
Qed.

End SummaryFacts.

(** ** Divisions executed by the stage *)

Section DivisionFacts.
Context {D : Type} `{DoubleOps D}.
Local Open Scope double_scope.

Variable simTime : D.
Variable classifier : FlowId -> FiveTuple.

Lemma stage_is_multi v stats :
  aggregation_stage v simTime classifier stats
  = MultiCell.aggregate simTime classifier stats.
Proof.
  destruct v; [|reflexivity].
  unfold aggregation_stage, SingleCell.aggregate, MultiCell.aggregate, bind.
  rewrite loop_agree, (summary_agree simTime). reflexivity.
Qed.

Lemma aggregate_denominators stats :
  denominators (MultiCell.aggregate simTime classifier stats)
  = denominators (MultiCell.loop simTime classifier stats MultiCell.initial)
    ++ denominators
         (MultiCell.summary simTime
            (snd (value (MultiCell.loop simTime classifier stats
                           MultiCell.initial)))).
Proof.
  unfold MultiCell.aggregate.
  rewrite !denominators_bind. simpl. rewrite app_nil_r. reflexivity.
Qed.

Lemma flow_body_denominators acc flow :
  denominators (MultiCell.flow_body simTime classifier acc flow)
  = (simTime * of_int 1000000)
      :: (if 0 <? rxPackets (snd flow)
          then [of_int (rxPackets (snd flow))] else []).
Proof.
  unfold MultiCell.flow_body, bind, ret, divide, denominators; cbn [fst snd].
  destruct (0 <? rxPackets (snd flow)); reflexivity.
Qed.

Lemma loop_denominators stats : forall acc,
  denominators (MultiCell.loop simTime classifier stats acc)
  = flat_map (fun flow =>
                (simTime * of_int 1000000)
                  :: (if 0 <? rxPackets (snd flow)
                      then [of_int (rxPackets (snd flow))] else []))
             stats.
Proof.
  induction stats as [|flow rest IH]; intros acc.
  - reflexivity.
  - cbn [MultiCell.loop flat_map].
    rewrite !denominators_bind, flow_body_denominators, IH.
    simpl. rewrite app_nil_r. reflexivity.
Qed.

Lemma loop_denominators_nothing_received stats :
  Forall (fun flow => rxPackets (snd flow) = 0%Z) stats ->
  forall acc,
    denominators (MultiCell.loop simTime classifier stats acc)
    = repeat (simTime * of_int 1000000) (List.length stats).
Proof.
  intros Hzero acc. rewrite loop_denominators.
  induction Hzero as [|flow rest Hflow _ IH]; simpl.
  - reflexivity.
  - rewrite Hflow, IH. reflexivity.
Qed.

Lemma sum_over_nothing_received (stats : list (FlowId * FlowStats D)) :
  Forall (fun flow => rxPackets (snd flow) = 0%Z) stats ->
  sum_over rxPackets stats = 0%Z.
Proof.
  induction 1 as [|flow rest Hflow _ IH]; simpl.
  - reflexivity.
  - fold (sum_over rxPackets rest). rewrite Hflow, IH. reflexivity.
Qed.

Lemma nothing_received_total v stats :
  Forall (fun flow => rxPackets (snd flow) = 0%Z) stats ->
  totalRxPackets (totals_of (aggregation_stage v simTime classifier stats))
  = 0%Z.
Proof.
  intros Hzero. rewrite stage_totals, loop_totalRxPackets.
  rewrite (sum_over_nothing_received stats Hzero). reflexivity.
Qed.

Lemma nothing_received_loss_rate v stats :
  Forall (fun flow => rxPackets (snd flow) = 0%Z) stats ->
  let stage := aggregation_stage v simTime classifier stats in
  let lost := totalLostPackets (totals_of stage) in
  u64 (0 + lost) = lost
  /\ lossRatePct (report_of stage)
     = if 0 <? lost
       then (of_int lost * of_int 100) / of_int lost
       else of_int 0.
Proof.
  intros Hzero stage lost.
  assert (Hoff : u64 (0 + lost) = lost).
  { unfold lost, stage. rewrite stage_totals, loop_totalLostPackets.
    simpl. apply u64_idem. }
  split; [exact Hoff|].
  pose proof (nothing_received_total v stats Hzero) as Hn. fold stage in Hn.
  unfold stage. rewrite stage_report, summary_lossRatePct.
  fold stage. fold lost.
  rewrite Hn, Hoff. reflexivity.
Qed.

(** With counters inside their types, no division of the stage has a zero
    denominator, whatever was received. *)
Lemma no_division_by_zero v stats :
  conversion_nonzero D ->
  is_zero (simTime * of_int 1000000) = false ->
  Forall (fun flow => is_u64 (rxPackets (snd flow))) stats ->
  Forall (fun d => is_zero d = false)
         (denominators (aggregation_stage v simTime classifier stats)).
Proof.
  intros Hconv HT Hwf.
  rewrite stage_is_multi, aggregate_denominators.
  apply Forall_app. split.
  - rewrite loop_denominators. apply Forall_flat_map.
    eapply Forall_impl; [|exact Hwf].
    intros flow Hflow. unfold is_u64 in Hflow.
    constructor; [exact HT|].
    destruct (0 <? rxPackets (snd flow)) eqn:Hpos; constructor; [|constructor].
    apply Hconv. apply Z.ltb_lt in Hpos. lia.
  - rewrite summary_denominators, loop_totalRxPackets.
    pose proof (u64_range (sum_over rxPackets stats)) as Hn.
    unfold is_u64 in Hn.
    set (n := u64 (sum_over rxPackets stats)) in *.
    set (offered := u64 (n + _)).
    pose proof (u64_range (n + totalLostPackets
                  (snd (value (MultiCell.loop simTime classifier stats
                                 MultiCell.initial))))) as Hoff.
    fold offered in Hoff. unfold is_u64 in Hoff.
    apply Forall_app. split.
    + destruct (0 <? n) eqn:H0; [|constructor].
      apply Z.ltb_lt in H0.
      constructor; [apply Hconv; lia|].
      apply Forall_app. split; [|constructor; [exact HT|constructor]].
      destruct (1 <? n) eqn:H1; constructor; [|constructor].
      apply Hconv. apply Z.ltb_lt in H1. lia.
    + destruct (0 <? offered) eqn:Hpos; constructor; [|constructor].
      apply Hconv. apply Z.ltb_lt in Hpos. lia.
Qed.

End DivisionFacts.

(** ** Conversion of counts to [double]

    In binary64 a count below [2^64] has at most 64 bits: rounding it to 53
    bits keeps a non-zero mantissa. *)

Lemma digits2_pos_size (p : positive) : digits2_pos p = Pos.size p.
Proof. induction p as [p IH|p IH|]; simpl; try rewrite IH; reflexivity. Qed.

Lemma Zdigits2_log2 (p : positive) : Zdigits2 (Zpos p) = Z.log2 (Zpos p) + 1.
Proof.
  unfold Zdigits2. rewrite digits2_pos_size.
  destruct p as [p|p|]; simpl; try reflexivity; rewrite Pos.add_1_r; reflexivity.
Qed.

Lemma shr_1_m (r : shr_record) :
  0 <= shr_m r -> shr_m (shr_1 r) = Z.div2 (shr_m r) /\ 0 <= shr_m (shr_1 r).
Proof.
  destruct r as [m rb sb]. cbn [shr_m]. intros Hm.
  destruct m as [|p|p]; [split; [reflexivity|cbn; lia]| |lia].
  destruct p as [p|p|]; cbn; split; try reflexivity; lia.
Qed.

Lemma iter_shr_m (n : positive) : forall r,
  0 <= shr_m r ->
  shr_m (iter_pos shr_1 n r) = Z.shiftr (shr_m r) (Zpos n)
  /\ 0 <= shr_m (iter_pos shr_1 n r).
Proof.
  induction n as [n IH|n IH|]; intros r Hr; simpl.
  - destruct (shr_1_m r Hr) as [H1 H1'].
    destruct (IH _ H1') as [H2 H2'].
    destruct (IH _ H2') as [H3 H3'].
    split; [|exact H3'].
    rewrite H3, H2, H1.
    rewrite Z.div2_spec, !Z.shiftr_shiftr by lia.
    f_equal. lia.
  - destruct (IH _ Hr) as [H2 H2'].
    destruct (IH _ H2') as [H3 H3'].
    split; [|exact H3'].
    rewrite H3, H2. rewrite !Z.shiftr_shiftr by lia. f_equal. lia.
  - destruct (shr_1_m r Hr) as [H1 H1']. split; [|exact H1'].
    rewrite H1, Z.div2_spec. reflexivity.
Qed.

Lemma shr_record_of_loc_m (m : Z) (l : location) :
  shr_m (shr_record_of_loc m l) = m.
Proof. destruct l as [|[| |]]; reflexivity. Qed.

Lemma shiftr_pos_log2 (a n : Z) :
  0 < a -> 0 <= n <= Z.log2 a ->
  0 < Z.shiftr a n /\ Z.log2 (Z.shiftr a n) = Z.log2 a - n.
Proof.
  intros Ha Hn. split.
  - rewrite Z.shiftr_div_pow2 by lia.
    apply Z.div_str_pos. split; [apply Z.pow_pos_nonneg; lia|].
    pose proof (Z.log2_spec a Ha) as [Hlo _].
    apply Z.le_trans with (2 ^ Z.log2 a); [|exact Hlo].
    apply Z.pow_le_mono_r; lia.
  - rewrite Z.log2_shiftr by exact Ha. lia.
Qed.

(** One rounding shift keeps a positive mantissa of at most 53 digits and
    the magnitude [digits + exponent]. *)
Lemma shr_fexp_good (p : positive) (e : Z) (l : location) (r : shr_record)
      (e' : Z) :
  emin < Z.log2 (Zpos p) + 1 + e ->
  shr_fexp prec emax (Zpos p) e l = (r, e') ->
  0 < shr_m r /\ e <= e' /\ Z.log2 (shr_m r) + 1 <= 53
  /\ Z.log2 (shr_m r) + 1 + e' = Z.log2 (Zpos p) + 1 + e.
Proof.
  intros Hmag. unfold shr_fexp, shr. rewrite Zdigits2_log2.
  pose proof (Z.log2_nonneg (Zpos p)) as Hlog.
  set (d := Z.log2 (Zpos p) + 1) in *.
  assert (Hfexp : fexp prec emax (d + e) = Z.max (d + e - 53) (-1074))
    by reflexivity.
  change (emin) with (-1074) in Hmag.
  destruct (fexp prec emax (d + e) - e) as [|k|k] eqn:Hn; intros Heq;
    inversion Heq; subst r e'; clear Heq.
  - rewrite shr_record_of_loc_m. repeat split; lia.
  - assert (Hr0 : 0 <= shr_m (shr_record_of_loc (Zpos p) l))
      by (rewrite shr_record_of_loc_m; lia).
    destruct (iter_shr_m k _ Hr0) as [Hm _].
    rewrite Hm, shr_record_of_loc_m.
    destruct (shiftr_pos_log2 (Zpos p) (Zpos k) ltac:(lia) ltac:(lia))
      as [Hpos Hl2].
    rewrite Hl2. repeat split; lia.
  - rewrite shr_record_of_loc_m. repeat split; lia.
Qed.

Lemma round_nearest_even_bounds (m : Z) (l : location) :
  m <= round_nearest_even m l <= m + 1.
Proof.
  unfold round_nearest_even.
  destruct l as [|[| |]]; try lia. destruct (Z.even m); lia.
Qed.

Lemma binary_round_aux_rounded (sx : bool) (p : positive) (e : Z)
      (l : location) :
  emin < Z.log2 (Zpos p) + 1 + e ->
  rounded sx (Z.log2 (Zpos p) + 1 + e) e
          (binary_round_aux prec emax sx (Zpos p) e l).
Proof.
  intros Hmag. unfold binary_round_aux.
  destruct (shr_fexp prec emax (Zpos p) e l) as [r1 e1] eqn:H1.
  destruct (shr_fexp_good p e l r1 e1 Hmag H1) as [Hp1 [He1 [Hd1 Hm1]]].
  pose proof (round_nearest_even_bounds (shr_m r1) (loc_of_shr_record r1))
    as Hround.
  remember (round_nearest_even (shr_m r1) (loc_of_shr_record r1)) as m2 eqn:E2.
  destruct m2 as [|p2|p2]; try lia.
  assert (Hl2 : Z.log2 (shr_m r1) <= Z.log2 (Zpos p2))
    by (apply Z.log2_le_mono; lia).
  destruct (shr_fexp prec emax (Zpos p2) e1 loc_Exact) as [r3 e3] eqn:H3.
  assert (Hmag2 : emin < Z.log2 (Zpos p2) + 1 + e1) by lia.
  destruct (shr_fexp_good p2 e1 loc_Exact r3 e3 Hmag2 H3)
    as [Hp3 [He3 [Hd3 Hm3]]].
  destruct (shr_m r3) as [|p3|p3] eqn:E3; try lia.
  destruct (e3 <=? emax - prec); cbn [rounded]; repeat split; lia.
Qed.

Lemma rounded_weaken (sx : bool) (mag e0 e1 : Z) (x : spec_float) :
  e1 <= e0 -> rounded sx mag e0 x -> rounded sx mag e1 x.
Proof.
  intros He. destruct x as [s|s| |s m e]; cbn [rounded]; try tauto.
  intros [Hs [He0 [Hd Hm]]]. repeat split; try assumption. lia.
Qed.

Lemma iter_xO_log2 (p k : positive) :
  Z.log2 (Zpos (Pos.iter xO p k)) = Z.log2 (Zpos p) + Zpos k.
Proof.
  induction k as [|k IH] using Pos.peano_ind.
  - change (Pos.iter xO p 1) with (p~0)%positive.
    rewrite Pos2Z.inj_xO, Z.log2_double by lia. lia.
  - rewrite Pos.iter_succ.
    rewrite Pos2Z.inj_xO, Z.log2_double by lia. rewrite IH. lia.
Qed.

(** Rounding a positive integer [p * 2^e] whose magnitude is above the
    subnormal range never gives a zero. *)
Lemma binary_round_rounded (sx : bool) (p : positive) (e : Z) :
  emin < Z.log2 (Zpos p) + 1 + e ->
  rounded sx (Z.log2 (Zpos p) + 1 + e)
          (Z.min e (Z.log2 (Zpos p) + 1 + e - 53))
          (binary_round prec emax sx p e).
Proof.
  intros Hmag. unfold binary_round, shl_align.
  pose proof (Zdigits2_log2 p) as Hd. unfold Zdigits2 in Hd. rewrite Hd.
  pose proof (iter_xO_log2 p) as Hlog.
  remember (Z.log2 (Zpos p) + 1) as d eqn:Ed.
  assert (Hfexp : fexp prec emax (d + e) = Z.max (d + e - 53) (-1074))
    by reflexivity.
  change emin with (-1074) in Hmag.
  destruct (fexp prec emax (d + e) - e) as [|k|k] eqn:Hn.
  - apply rounded_weaken with (e0 := e); [lia|].
    pose proof (binary_round_aux_rounded sx p e loc_Exact) as Haux.
    rewrite <- Ed in Haux. apply Haux. exact Hmag.
  - apply rounded_weaken with (e0 := e); [lia|].
    pose proof (binary_round_aux_rounded sx p e loc_Exact) as Haux.
    rewrite <- Ed in Haux. apply Haux. exact Hmag.
  - pose proof (binary_round_aux_rounded sx (Pos.iter xO p k)
                  (fexp prec emax (d + e)) loc_Exact) as Haux.
    rewrite (Hlog k) in Haux.
    replace (Z.log2 (Zpos p) + Zpos k + 1 + fexp prec emax (d + e))
      with (d + e) in Haux by lia.
    apply rounded_weaken with (e0 := fexp prec emax (d + e)); [lia|].
    apply Haux. exact Hmag.
Qed.

Lemma rounded_not_zero (sx : bool) (mag e0 : Z) (x : spec_float) :
  rounded sx mag e0 x -> SFeqb x (S754_zero false) = false.
Proof.
  destruct x as [s|s| |s m e]; cbn [rounded]; try tauto;
    intros _; destruct s; reflexivity.
Qed.

Lemma to_Z_of_Z_small (z : Z) :
  0 <= z < 2 ^ 63 -> Uint63Axioms.to_Z (Uint63Axioms.of_Z z) = z.
Proof.
  intros Hz. rewrite Uint63.of_Z_spec. apply Z.mod_small. exact Hz.
Qed.

(** A positive 63-bit integer converts to a non-zero float. *)
Lemma of_uint63_rounded (z : Z) :
  0 < z < 2 ^ 63 ->
  rounded false (Z.log2 z + 1) (Z.min 0 (Z.log2 z + 1 - 53))
          (Prim2SF (of_uint63 (Uint63Axioms.of_Z z))).
Proof.
  intros Hz. rewrite of_uint63_spec, to_Z_of_Z_small by lia.
  destruct z as [|p|p]; try lia.
  pose proof (Z.log2_nonneg (Zpos p)) as Hlog.
  pose proof (binary_round_rounded false p 0) as Hr.
  change emin with (-1074) in Hr.
  replace (Z.log2 (Zpos p) + 1 + 0) with (Z.log2 (Zpos p) + 1) in Hr by lia.
  apply Hr. lia.
Qed.

Lemma SF2Prim_rounded_not_zero (m : positive) (e : Z) :
  0 <= e -> Z.log2 (Zpos m) + 1 <= 53 ->
  PrimFloat.eqb (SF2Prim (S754_finite false m e)) 0 = false.
Proof.
  intros He Hm. cbn [SF2Prim]. unfold Z.ldexp.
  rewrite FloatAxioms.eqb_spec, ldshiftexp_spec.
  pose proof (Z.log2_nonneg (Zpos m)) as Hlog.
  assert (Hsmall : 0 < Zpos m < 2 ^ 63).
  { split; [lia|].
    apply Z.log2_lt_pow2; [lia|]. lia. }
  pose proof (of_uint63_rounded (Zpos m) Hsmall) as Hr.
  set (ec := Z.max (Z.min e (emax - emin)) (emin - emax - 1)).
  assert (Hec : 0 <= ec <= 2098) by (unfold ec; change emin with (-1074); change emax with 1024; lia).
  rewrite to_Z_of_Z_small by (change shift with 2101; lia).
  replace (ec + shift - shift) with ec by lia.
  destruct (Prim2SF (of_uint63 (Uint63Axioms.of_Z (Zpos m))))
    as [s|s| |s m' e'] eqn:Ey; cbn [rounded] in Hr; try tauto.
  - cbn [SFldexp]. destruct s; reflexivity.
  - destruct Hr as [-> [He' [Hd' Hmag']]]. cbn [SFldexp].
    pose proof (Z.log2_nonneg (Zpos m')) as Hlog'.
    apply (rounded_not_zero false _ _ _
             (binary_round_rounded false m' (e' + ec)
                ltac:(change emin with (-1074); lia))).
Qed.

(** A non-zero 64-bit count converts to a non-zero binary64 value. *)
Lemma binary64_of_Z_nonzero (z : Z) :
  0 < z < 2 ^ 64 -> PrimFloat.eqb (Binary64.of_Z z) 0 = false.
Proof.
  intros Hz. unfold Binary64.of_Z.
  destruct (Z.ltb_spec z 9223372036854775808) as [Hlt|Hge].
  - replace (0 <=? z) with true by (symmetry; apply Z.leb_le; lia).
    cbn [andb].
    rewrite FloatAxioms.eqb_spec.
    apply (rounded_not_zero false _ _ _ (of_uint63_rounded z ltac:(lia))).
  - rewrite andb_false_r.
    destruct z as [|p|p]; try lia.
    cbn [binary_normalize].
    pose proof (binary_round_rounded false p 0) as Hr.
    assert (Hlog : Z.log2 (Zpos p) = 63).
    { apply Z.log2_unique; lia. }
    rewrite Hlog in Hr. specialize (Hr ltac:(change emin with (-1074); lia)).
    destruct (binary_round prec emax false p 0) as [s|s| |s m e];
      cbn [rounded] in Hr; try tauto.
    + subst s. reflexivity.
    + destruct Hr as [-> [He [Hd _]]].
      apply SF2Prim_rounded_not_zero; lia.
Qed.

Lemma binary64_conversion_nonzero : conversion_nonzero float.
Proof. intros z Hz. apply binary64_of_Z_nonzero. exact Hz. Qed.

(** Rational arithmetic converts a non-zero count to a non-zero value. *)
Lemma exact_conversion_nonzero : conversion_nonzero Q.
Proof.
  intros z Hz. cbn [is_zero of_int Exact.ops].
  unfold Exact.zerob, inject_Z. cbn [Qnum].
  apply Z.eqb_neq. lia.
Qed.

(** ** Arithmetic of the grid *)

Lemma upto_length (n : Z) : List.length (upto n) = Z.to_nat n.
Proof. unfold upto. rewrite length_map, length_seq. reflexivity. Qed.

Lemma upto_nth (n i : Z) :
  0 <= i < n -> nth_error (upto n) (Z.to_nat i) = Some i.
Proof.
  intros Hi. unfold upto.
  rewrite nth_error_map, nth_error_seq.
  destruct (Nat.ltb_spec (Z.to_nat i) (Z.to_nat n)) as [_|Hge]; [|lia].
  simpl. f_equal. lia.
Qed.

Lemma upto_In (n i : Z) : In i (upto n) <-> 0 <= i < n.
Proof.
  unfold upto. rewrite in_map_iff. split.
  - intros [k [Hk Hin]]. apply in_seq in Hin. lia.
  - intros Hi. exists (Z.to_nat i). split; [lia|]. apply in_seq. lia.
Qed.

Lemma sqrt_scaled (n k : Z) :
  0 <= n -> 0 < k -> Z.sqrt (n * (k * k)) / k = Z.sqrt n.
Proof.
  intros Hn Hk.
  pose proof (Z.sqrt_spec n Hn) as [Hlo Hhi].
  pose proof (Z.sqrt_nonneg n) as Hs.
  assert (Hlow : Z.sqrt n * k <= Z.sqrt (n * (k * k))).
  { apply Z.sqrt_le_square; nia. }
  assert (Hup : Z.sqrt (n * (k * k)) < (Z.sqrt n + 1) * k).
  { apply Z.sqrt_lt_square; nia. }
  symmetry. apply Z.div_unique with (r := Z.sqrt (n * (k * k)) - Z.sqrt n * k).
  - left. lia.
  - lia.
Qed.

Lemma ceil_quotient (n r : Z) : 0 < r -> - (- n / r) = (n + r - 1) / r.
Proof.
  intros Hr.
  pose proof (Z.div_mod (- n) r ltac:(lia)) as Hd.
  pose proof (Z.mod_pos_bound (- n) r Hr) as Hm.
  apply Z.div_unique with (r := r - 1 - (- n) mod r).
  - left. lia.
  - nia.
Qed.

(** Bounds on the clamped row count and the column count. *)
Lemma grid_dimensions (n : Z) :
  1 <= n < 2 ^ 16 ->
  let r := Z.max 1 (Z.sqrt n) in
  let c := (n + r - 1) / r in
  1 <= r <= 255 /\ 1 <= c <= n /\ n <= r * c.
Proof.
  intros Hn r c.
  pose proof (Z.sqrt_spec n ltac:(lia)) as [Hlo Hhi].
  pose proof (Z.sqrt_nonneg n) as Hs.
  assert (Hr : 1 <= r <= 255).
  { unfold r. split; [lia|].
    assert (Z.sqrt n < 256) by (apply Z.sqrt_lt_square; lia). lia. }
  assert (Hrn : r <= n) by (unfold r; nia).
  pose proof (Z.div_mod (n + r - 1) r ltac:(lia)) as Hd.
  pose proof (Z.mod_pos_bound (n + r - 1) r ltac:(lia)) as Hm.
  fold c in Hd.
  repeat split; try lia; nia.
Qed.

Lemma u16_small (z : Z) : is_u16 z -> u16 z = z.
Proof.
  unfold is_u16, u16. intros Hz. change 0xFFFF with (Z.ones 16).
  rewrite Z.land_ones by lia. apply Z.mod_small. exact Hz.
Qed.

(** Rational arithmetic computes the grid dimensions exactly. *)
Lemma exact_grid_exact : grid_exact Q.
Proof.
  intros n Hn. unfold is_u16 in Hn.
  pose proof (Z.sqrt_nonneg n) as Hs.
  assert (Hs16 : Z.sqrt n < 2 ^ 16).
  { assert (Z.sqrt n < 256) by (apply Z.sqrt_lt_square; lia). lia. }
  split.
  - cbn [to_int dfloor dsqrt of_int Exact.ops].
    unfold Exact.truncate, Exact.sqrt_down, inject_Z, Qfloor.
    cbn [Qnum Qden]. rewrite Z.quot_1_r, Z.div_1_r.
    change (4 ^ 64) with (2 ^ 64 * 2 ^ 64).
    change (Z.pos (2 ^ 64)) with (2 ^ 64).
    rewrite sqrt_scaled by lia.
    apply u16_small. unfold is_u16. lia.
  - set (r := Z.max 1 (Z.sqrt n)).
    assert (Hr : 0 < r) by (unfold r; lia).
    cbn [to_int dceil ddiv of_int Exact.ops].
    unfold Exact.truncate, inject_Z. cbn [Qnum Qden]. rewrite Z.quot_1_r.
    destruct r as [|p|p] eqn:Hrp; try lia.
    unfold Qceiling, Qfloor, Qdiv, Qinv, Qmult, Qopp. cbn [Qnum Qden].
    rewrite Z.mul_1_r, Pos.mul_1_l, <- Hrp.
    rewrite ceil_quotient by lia.
    destruct (Z.eq_dec n 0) as [->|Hne].
    + rewrite Hrp. unfold r in Hrp. simpl in Hrp. inversion Hrp. reflexivity.
    + pose proof (grid_dimensions n ltac:(lia)) as [_ [Hc _]].
      fold r in Hc. rewrite Hrp in Hc.
      rewrite Hrp. apply u16_small. unfold is_u16. lia.
Qed.

Lemma all_from_spec (test : Z -> bool) (count : nat) : forall i,
  all_from test count i = true ->
  forall n, i <= n < i + Z.of_nat count -> test n = true.
Proof.
  induction count as [|count IH]; intros i Hall n Hn.
  - lia.
  - cbn [all_from] in Hall. apply andb_true_iff in Hall.
    destruct Hall as [Hi Hrest].
    destruct (Z.eq_dec n i) as [->|Hne]; [exact Hi|].
    apply (IH (i + 1) Hrest). lia.
Qed.

Lemma ceil_quotient_unique (n r c : Z) :
  0 < r -> (c - 1) * r < n <= c * r -> c = (n + r - 1) / r.
Proof.
  intros Hr Hc. apply Z.div_unique with (r := n + r - 1 - r * c); lia.
Qed.

(** Binary64 computes them exactly too: all 65536 counts are evaluated. *)
Lemma binary64_grid_exact : grid_exact float.
Proof.
  assert (Hall : all_from (grid_exact_atb float) (Z.to_nat (2 ^ 16)) 0 = true).
  { vm_cast_no_check (eq_refl true). }
  intros n Hn. unfold is_u16 in Hn.
  pose proof (all_from_spec _ _ _ Hall n ltac:(lia)) as Hcheck.
  unfold grid_exact_atb in Hcheck.
  apply andb_true_iff in Hcheck. destruct Hcheck as [Hcheck Hhi].
  apply andb_true_iff in Hcheck. destruct Hcheck as [Hrow Hlo].
  apply Z.eqb_eq in Hrow. apply Z.ltb_lt in Hlo. apply Z.leb_le in Hhi.
  split; [exact Hrow|].
  apply ceil_quotient_unique; lia.
Qed.

(** ** The eNodeB grid *)

Section GridFacts.
Context {D : Type} `{DoubleOps D}.
Local Open Scope double_scope.

Hypothesis Hgrid : grid_exact D.

Lemma nRows_exact (n : Z) :
  is_u16 n -> MultiCell.nRows n = Z.max 1 (Z.sqrt n).
Proof.
  intros Hn. unfold MultiCell.nRows.
  rewrite (proj1 (Hgrid n Hn)).
  pose proof (Z.sqrt_nonneg n) as Hs.
  destruct (Z.eqb_spec (Z.sqrt n) 0) as [Hz|Hnz]; lia.
Qed.

Lemma nCols_exact (n : Z) :
  is_u16 n ->
  MultiCell.nCols n = ((n + Z.max 1 (Z.sqrt n) - 1) / Z.max 1 (Z.sqrt n))%Z.
Proof.
  intros Hn. unfold MultiCell.nCols.
  rewrite (nRows_exact n Hn). apply (proj2 (Hgrid n Hn)).
Qed.

Lemma enb_position_formula (areaSize : D) (n i : Z) :
  (1 <= n < 2 ^ 16)%Z -> (0 <= i < n)%Z ->
  let rows := Z.max 1 (Z.sqrt n) in
  let cols := ((n + rows - 1) / rows)%Z in
  MultiCell.enb_position areaSize n i
  = {| vx := - (areaSize / of_int 2)
             + of_int (i mod cols + 1) * (areaSize / of_int (cols + 1));
       vy := - (areaSize / of_int 2)
             + of_int (i / cols + 1) * (areaSize / of_int (rows + 1));
       vz := of_int 30 |}.
Proof.
  intros Hn Hi rows cols.
  assert (Hu : is_u16 n) by (unfold is_u16; lia).
  pose proof (grid_dimensions n Hn) as [Hr [Hc Hrc]].
  fold rows in Hr, Hc, Hrc. fold cols in Hc, Hrc.
  unfold MultiCell.enb_position.
  rewrite (nCols_exact n Hu), (nRows_exact n Hu). fold rows. fold cols.
  rewrite Z.quot_div_nonneg, Z.rem_mod_nonneg by lia.
  pose proof (Z.mod_pos_bound i cols ltac:(lia)) as Hm.
  assert (Hq : (0 <= i / cols < n)%Z).
  { split; [apply Z.div_pos; lia|].
    apply Z.div_lt_upper_bound; nia. }
  rewrite !u16_small by (unfold is_u16; lia).
  reflexivity.
Qed.

Lemma enb_positions_length (areaSize : D) (n : Z) :
  List.length (MultiCell.enb_positions areaSize n) = Z.to_nat n.
Proof. unfold MultiCell.enb_positions. rewrite length_map. apply upto_length. Qed.

Lemma enb_positions_nth (areaSize : D) (n i : Z) :
  (0 <= i < n)%Z ->
  nth_error (MultiCell.enb_positions areaSize n) (Z.to_nat i)
  = Some (MultiCell.enb_position areaSize n i).
Proof.
  intros Hi. unfold MultiCell.enb_positions.
  rewrite nth_error_map, (upto_nth n i Hi). reflexivity.
Qed.

End GridFacts.

Lemma enb_positions_nth_inv {D} `{DoubleOps D} (areaSize : D) (n : Z)
      (k : nat) (p : Vector D) :
  nth_error (MultiCell.enb_positions areaSize n) k = Some p ->
  0 <= Z.of_nat k < n /\ p = MultiCell.enb_position areaSize n (Z.of_nat k).
Proof.
  intros Hk.
  assert (Hlt : (k < Z.to_nat n)%nat).
  { rewrite <- (enb_positions_length areaSize n).
    apply nth_error_Some. rewrite Hk. discriminate. }
  assert (Hi : 0 <= Z.of_nat k < n) by lia.
  pose proof (enb_positions_nth areaSize n (Z.of_nat k) Hi) as Hnth.
  rewrite Nat2Z.id, Hk in Hnth. inversion Hnth. split; [exact Hi | reflexivity].
Qed.

(** ** Dimensions of the grid *)

(** The dimensions as integers. *)
Lemma grid_shape_Z (n : Z) :
  1 <= n < 2 ^ 16 ->
  let r := Z.max 1 (Z.sqrt n) in
  let c := (n + r - 1) / r in
  1 <= r <= 255 /\ r <= c <= r + 2 /\ c <= n
  /\ n <= r * c /\ (c - 1) * r < n /\ (r - 1) * c < n.
Proof.
  intros Hn r c.
  pose proof (Z.sqrt_spec n ltac:(lia)) as [Hlo Hhi].
  pose proof (Z.sqrt_nonneg n) as Hs.
  assert (Hs1 : 1 <= Z.sqrt n).
  { destruct (Z.eq_dec (Z.sqrt n) 0) as [E|E]; [rewrite E in Hhi; lia | lia]. }
  assert (Hr : r = Z.sqrt n) by (unfold r; lia).
  assert (Hr255 : r <= 255).
  { rewrite Hr. assert (Z.sqrt n < 256) by (apply Z.sqrt_lt_square; lia). lia. }
  pose proof (Z.div_mod (n + r - 1) r ltac:(lia)) as Hd.
  pose proof (Z.mod_pos_bound (n + r - 1) r ltac:(lia)) as Hm.
  fold c in Hd. rewrite <- Hr in Hlo, Hhi.
  assert (Hc1 : n <= r * c) by lia.
  assert (Hc2 : (c - 1) * r < n) by nia.
  assert (Hc3 : r <= c) by nia.
  assert (Hc4 : c <= r + 2) by nia.
  repeat split; try lia; nia.
Qed.

Section Shape.
Context {D : Type} `{DoubleOps D}.
Hypothesis Hgrid : grid_exact D.

Lemma grid_shape (n : Z) :
  1 <= n < 2 ^ 16 ->
  let r := MultiCell.nRows (D:=D) n in
  let c := MultiCell.nCols (D:=D) n in
  1 <= r <= 255 /\ r <= c <= r + 2 /\ c <= n
  /\ n <= r * c /\ (c - 1) * r < n /\ (r - 1) * c < n.
Proof.
  intros Hn. assert (Hu : is_u16 n) by (unfold is_u16; lia).
  cbv zeta. rewrite (nCols_exact Hgrid n Hu), (nRows_exact Hgrid n Hu).
  apply (grid_shape_Z n Hn).
Qed.

Lemma grid_zero :
  MultiCell.nRows (D:=D) 0 = 1 /\ MultiCell.nCols (D:=D) 0 = 0.
Proof.
  assert (Hu : is_u16 0) by (unfold is_u16; lia).
  rewrite (nCols_exact Hgrid 0 Hu), (nRows_exact Hgrid 0 Hu).
  split; reflexivity.
Qed.

End Shape.

(** ** Rounding in binary64

    One operation on normal numbers whose result is neither too large nor
    too small has a relative error of at most [eps]. *)

Lemma log2_53 (m : Z) : 2 ^ 52 <= m < 2 ^ 53 -> Z.log2 m = 52.
Proof. intros Hm. apply Z.log2_unique; lia. Qed.

Lemma shiftr_53 (p : positive) :
  let d := Z.log2 (Zpos p) + 1 in
  53 <= d ->
  2 ^ 52 <= Z.shiftr (Zpos p) (d - 53) < 2 ^ 53.
Proof.
  intros d Hd.
  pose proof (Z.log2_nonneg (Zpos p)) as Hlog.
  destruct (shiftr_pos_log2 (Zpos p) (d - 53) ltac:(lia) ltac:(unfold d; lia))
    as [Hpos Hl2].
  assert (Hl : Z.log2 (Z.shiftr (Zpos p) (d - 53)) = 52) by (unfold d in *; lia).
  pose proof (Z.log2_spec _ Hpos) as Hs. rewrite Hl in Hs.
  change (Z.succ 52) with 53 in Hs. exact Hs.
Qed.

(** Rounding a mantissa of at least 53 digits above the subnormal range. *)
Lemma binary_round_aux_normal (sx : bool) (p : positive) (e : Z) (l : location) :
  let d := Z.log2 (Zpos p) + 1 in
  53 <= d -> -1074 <= e ->
  exists m2 : Z,
    Z.shiftr (Zpos p) (d - 53) <= m2 <= Z.shiftr (Zpos p) (d - 53) + 1
    /\ (l = loc_Exact -> d = 53 -> m2 = Zpos p)
    /\ binary_round_aux prec emax sx (Zpos p) e l
       = (if m2 =? 2 ^ 53
          then (if e + (d - 53) + 1 <=? 971
                then S754_finite sx (2 ^ 52)%positive (e + (d - 53) + 1)
                else S754_infinity sx)
          else (if e + (d - 53) <=? 971
                then S754_finite sx (Z.to_pos m2) (e + (d - 53))
                else S754_infinity sx)).
Proof.
  intros d Hd He.
  pose proof (shiftr_53 p Hd) as HP0. fold d in HP0.
  set (P0 := Z.shiftr (Zpos p) (d - 53)) in *.
  unfold binary_round_aux.
  assert (Hshift1 : exists r1,
            shr_fexp prec emax (Zpos p) e l = (r1, e + (d - 53))
            /\ shr_m r1 = P0
            /\ (l = loc_Exact -> d = 53 -> loc_of_shr_record r1 = loc_Exact)).
  { unfold shr_fexp, shr. rewrite Zdigits2_log2. fold d.
    assert (Hfexp : fexp prec emax (d + e) - e = d - 53).
    { change (fexp prec emax (d + e)) with (Z.max (d + e - 53) (-1074)). lia. }
    rewrite Hfexp. unfold P0. clear HP0 P0 Hfexp.
    remember (d - 53) as n eqn:En.
    destruct n as [|k|k]; try lia.
    - eexists. split; [f_equal; lia|]. split.
      + rewrite shr_record_of_loc_m. reflexivity.
      + intros -> _. reflexivity.
    - eexists. split; [reflexivity|]. split.
      + assert (Hr0 : 0 <= shr_m (shr_record_of_loc (Zpos p) l))
          by (rewrite shr_record_of_loc_m; lia).
        destruct (iter_shr_m k _ Hr0) as [Hm _].
        rewrite Hm, shr_record_of_loc_m. reflexivity.
      + intros _ H53. lia. }
  destruct Hshift1 as [r1 [H1 [Hm1 Hex]]]. rewrite H1.
  pose proof (round_nearest_even_bounds (shr_m r1) (loc_of_shr_record r1))
    as Hround.
  set (m2 := round_nearest_even (shr_m r1) (loc_of_shr_record r1)) in *.
  rewrite Hm1 in Hround.
  exists m2. split; [exact Hround|]. split.
  { intros Hl H53. unfold m2. rewrite (Hex Hl H53). cbn [round_nearest_even].
    rewrite Hm1. unfold P0. rewrite H53. reflexivity. }
  set (e1 := e + (d - 53)) in *.
  assert (He1 : -1074 <= e1) by (unfold e1; lia).
  destruct (Z.eqb_spec m2 (2 ^ 53)) as [E53|N53].
  - (* carry *)
    unfold shr_fexp, shr. rewrite E53.
    change (Zdigits2 (2 ^ 53)) with 54.
    assert (Hfexp : fexp prec emax (54 + e1) - e1 = 1).
    { change (fexp prec emax (54 + e1)) with (Z.max (54 + e1 - 53) (-1074)). lia. }
    rewrite Hfexp. cbn [iter_pos shr_record_of_loc shr_1 shr_m].
    change (emax - prec) with 971.
    reflexivity.
  - assert (Hm2 : 2 ^ 52 <= m2 < 2 ^ 53) by lia.
    destruct m2 as [|q|q] eqn:Eq2; try lia.
    unfold shr_fexp, shr. rewrite Zdigits2_log2, (log2_53 _ Hm2).
    assert (Hfexp : fexp prec emax (52 + 1 + e1) - e1 = 0).
    { change (fexp prec emax (52 + 1 + e1)) with (Z.max (52 + 1 + e1 - 53) (-1074)). lia. }
    rewrite Hfexp. cbn [shr_record_of_loc shr_m].
    change (emax - prec) with 971. reflexivity.
Qed.

Lemma pow2_pos (e : Z) : (0 < 2 ^ e)%Q.
Proof. apply Qpower_0_lt. reflexivity. Qed.

Lemma pow2_add (a b : Z) : (2 ^ (a + b) == 2 ^ a * 2 ^ b)%Q.
Proof. apply Qpower_plus. discriminate. Qed.

Lemma pow2_inject (n : Z) : 0 <= n -> (inject_Z (2 ^ n) == 2 ^ n)%Q.
Proof. intros Hn. apply (Zpower_Qpower 2 n Hn). Qed.

Lemma pow2_lt_inv (a b : Z) : (2 ^ a < 2 ^ b)%Q -> a < b.
Proof.
  intros H. destruct (Z.lt_ge_cases a b) as [Hlt|Hge]; [exact Hlt|].
  exfalso. apply (Qlt_not_le _ _ H).
  apply Qpower_le_compat_l; [exact Hge | discriminate].
Qed.

Lemma scaled_le (m1 m2 e : Z) : m1 <= m2 -> (scaled m1 e <= scaled m2 e)%Q.
Proof.
  intros H. unfold scaled. apply Qmult_le_compat_r.
  - rewrite <- Zle_Qle. exact H.
  - apply Qlt_le_weak, pow2_pos.
Qed.

Lemma scaled_shift (m n e : Z) :
  0 <= n -> (scaled (m * 2 ^ n) e == scaled m (e + n))%Q.
Proof.
  intros Hn. unfold scaled.
  rewrite inject_Z_mult, (pow2_inject n Hn), pow2_add. ring.
Qed.

Lemma scaled_succ (m e : Z) : (scaled (m + 1) e == scaled m e + 2 ^ e)%Q.
Proof. unfold scaled. rewrite inject_Z_plus. change (inject_Z 1) with 1%Q. ring. Qed.

Lemma round_relative (sx : bool) (p : positive) (e : Z) (l : location) (v : Q) :
  let d := Z.log2 (Zpos p) + 1 in
  53 <= d -> -1074 <= e ->
  (scaled (Zpos p) e <= v)%Q -> (v <= scaled (Zpos p + 1) e)%Q ->
  (v * (1 + eps) < 2 ^ 1024)%Q ->
  exists (m' : positive) (e' : Z),
    binary_round_aux prec emax sx (Zpos p) e l = S754_finite sx m' e'
    /\ 2 ^ 52 <= Zpos m' < 2 ^ 53
    /\ e + (d - 53) <= e' <= 971
    /\ (v * (1 - eps) <= scaled (Zpos m') e')%Q
    /\ (scaled (Zpos m') e' <= v * (1 + eps))%Q
    /\ (l = loc_Exact -> d = 53 -> m' = p /\ e' = e).
Proof.
  intros d Hd He Hlo Hhi Hmax.
  destruct (binary_round_aux_normal sx p e l Hd He) as [m2 [Hm2 [Hex Hres]]].
  fold d in Hm2, Hex, Hres.
  pose proof (shiftr_53 p Hd) as HP0. fold d in HP0.
  set (n := d - 53) in *.
  set (P0 := Z.shiftr (Zpos p) n) in *.
  assert (Hn : 0 <= n) by (unfold n; lia).
  assert (Hdiv : P0 * 2 ^ n <= Zpos p /\ Zpos p + 1 <= (P0 + 1) * 2 ^ n).
  { unfold P0. rewrite Z.shiftr_div_pow2 by exact Hn.
    assert (Hpow : 0 < 2 ^ n) by (apply Z.pow_pos_nonneg; lia).
    pose proof (Z.div_mod (Zpos p) (2 ^ n) ltac:(lia)) as Hdm.
    pose proof (Z.mod_pos_bound (Zpos p) (2 ^ n) Hpow) as Hmod.
    nia. }
  destruct Hdiv as [Hd1 Hd2].
  (* everything in units of U = 2^(e+n) *)
  set (U := (2 ^ (e + n))%Q).
  assert (HU : (0 < U)%Q) by apply pow2_pos.
  set (X := scaled P0 (e + n)).
  assert (HX52 : (inject_Z (2 ^ 52) * U <= X)%Q).
  { unfold X, scaled, U. apply Qmult_le_compat_r.
    - rewrite <- Zle_Qle. lia.
    - apply Qlt_le_weak, pow2_pos. }
  assert (HvX : (X <= v)%Q).
  { unfold X. rewrite <- scaled_shift by exact Hn.
    eapply Qle_trans; [|exact Hlo]. apply scaled_le. exact Hd1. }
  assert (HvX1 : (v <= X + U)%Q).
  { unfold X, U. rewrite <- scaled_succ, <- scaled_shift by exact Hn.
    eapply Qle_trans; [exact Hhi|]. apply scaled_le. exact Hd2. }
  assert (Hr : (X <= scaled m2 (e + n) /\ scaled m2 (e + n) <= X + U)%Q).
  { unfold X, U. rewrite <- scaled_succ. split; apply scaled_le; lia. }
  assert (Heps : (U == eps * (inject_Z (2 ^ 52) * U))%Q).
  { unfold eps. change (inject_Z (2 ^ 52)) with (4503599627370496 # 1)%Q.
    field. }
  assert (Hval : (v * (1 - eps) <= scaled m2 (e + n)
                  /\ scaled m2 (e + n) <= v * (1 + eps))%Q).
  { remember (scaled m2 (e + n)) as r. remember (inject_Z (2 ^ 52) * U)%Q as W.
    assert (He0 : (0 < eps)%Q) by reflexivity.
    assert (HWv : (eps * W <= eps * v)%Q).
    { rewrite !(Qmult_comm eps). apply Qmult_le_compat_r; lra. }
    destruct Hr as [Hr1 Hr2]. clearbody U X.
    clear - Hr1 Hr2 HvX HvX1 Heps HWv He0. split; lra. }
  destruct Hval as [Hv1 Hv2].
  destruct (Z.eqb_spec m2 (2 ^ 53)) as [E53|N53].
  - (* the mantissa carried into 2^53 *)
    assert (Hsame : (scaled m2 (e + n) == scaled (2 ^ 52) (e + n + 1))%Q).
    { rewrite E53. rewrite <- (scaled_shift (2 ^ 52) 1 (e + n)) by lia.
      reflexivity. }
    assert (Hfin : e + n + 1 <= 971).
    { assert (Hlt : (2 ^ (52 + (e + n + 1)) < 2 ^ 1024)%Q).
      { eapply Qle_lt_trans; [|exact Hmax].
        eapply Qle_trans; [|exact Hv2]. rewrite Hsame. unfold scaled.
        rewrite pow2_add, <- (pow2_inject 52) by lia. apply Qle_refl. }
      apply pow2_lt_inv in Hlt. lia. }
    exists (2 ^ 52)%positive, (e + n + 1).
    rewrite Hres. replace (e + n + 1 <=? 971) with true
      by (symmetry; apply Z.leb_le; exact Hfin).
    split; [reflexivity|]. split; [lia|]. split; [lia|].
    change (Zpos (2 ^ 52)) with (2 ^ 52).
    split; [rewrite <- Hsame; exact Hv1|].
    split; [rewrite <- Hsame; exact Hv2|].
    intros Hl H53. specialize (Hex Hl H53).
    pose proof (Z.log2_spec (Zpos p) ltac:(lia)) as Hspec.
    replace (Z.succ (Z.log2 (Zpos p))) with 53 in Hspec by (unfold d in H53; lia).
    lia.
  - assert (Hm2' : 2 ^ 52 <= m2 < 2 ^ 53) by lia.
    assert (Hfin : e + n <= 971).
    { assert (Hlt : (2 ^ (52 + (e + n)) < 2 ^ 1024)%Q).
      { eapply Qle_lt_trans; [|exact Hmax].
        eapply Qle_trans; [|exact Hv2].
        eapply Qle_trans; [|apply (proj1 Hr)].
        eapply Qle_trans; [|exact HX52].
        unfold U. rewrite pow2_add, <- (pow2_inject 52) by lia. apply Qle_refl. }
      apply pow2_lt_inv in Hlt. lia. }
    exists (Z.to_pos m2), (e + n).
    rewrite Hres. replace (e + n <=? 971) with true
      by (symmetry; apply Z.leb_le; exact Hfin).
    rewrite Z2Pos.id by lia.
    split; [reflexivity|]. split; [lia|]. split; [lia|].
    split; [exact Hv1|]. split; [exact Hv2|].
    intros Hl H53. specialize (Hex Hl H53). split; [|unfold n; lia].
    rewrite Hex. reflexivity.
Qed.

Lemma scaled_pos (m e : Z) : 0 < m -> (0 < scaled m e)%Q.
Proof.
  intros Hm. unfold scaled. apply Qmult_lt_0_compat; [|apply pow2_pos].
  change 0%Q with (inject_Z 0). rewrite <- Zlt_Qlt. exact Hm.
Qed.

Lemma scaled_mul (m1 e1 m2 e2 : Z) :
  (scaled (m1 * m2) (e1 + e2) == scaled m1 e1 * scaled m2 e2)%Q.
Proof. unfold scaled. rewrite inject_Z_mult, pow2_add. ring. Qed.

Lemma digits_53 (m : positive) :
  2 ^ 52 <= Zpos m < 2 ^ 53 -> Zdigits2 (Zpos m) = 53.
Proof. intros Hm. rewrite Zdigits2_log2, (log2_53 _ Hm). reflexivity. Qed.

Lemma SFmul_relative (sx sy : bool) (mx my : positive) (ex ey : Z) :
  2 ^ 52 <= Zpos mx < 2 ^ 53 -> 2 ^ 52 <= Zpos my < 2 ^ 53 ->
  -1074 <= ex + ey ->
  let v := (scaled (Zpos mx) ex * scaled (Zpos my) ey)%Q in
  (v * (1 + eps) < 2 ^ 1024)%Q ->
  exists (m' : positive) (e' : Z),
    SFmul prec emax (S754_finite sx mx ex) (S754_finite sy my ey)
    = S754_finite (xorb sx sy) m' e'
    /\ 2 ^ 52 <= Zpos m' < 2 ^ 53
    /\ ex + ey + 52 <= e' <= 971
    /\ (v * (1 - eps) <= scaled (Zpos m') e')%Q
    /\ (scaled (Zpos m') e' <= v * (1 + eps))%Q.
Proof.
  intros Hmx Hmy He v Hmax. cbn [SFmul].
  assert (Hprod : 2 ^ 104 <= Zpos (mx * my)) by (rewrite Pos2Z.inj_mul; nia).
  assert (Hlog : 104 <= Z.log2 (Zpos (mx * my))).
  { apply Z.log2_le_pow2; lia. }
  assert (Hv : (scaled (Zpos (mx * my)) (ex + ey) == v)%Q).
  { rewrite Pos2Z.inj_mul. apply scaled_mul. }
  destruct (round_relative (xorb sx sy) (mx * my) (ex + ey) loc_Exact v
              ltac:(lia) He)
    as [m' [e' [Hres [Hm' [He' [Hlo [Hhi _]]]]]]].
  - rewrite Hv. apply Qle_refl.
  - rewrite <- Hv. apply scaled_le. lia.
  - exact Hmax.
  - exists m', e'. split; [exact Hres|]. split; [exact Hm'|].
    split; [lia|]. split; assumption.
Qed.

Lemma SFdiv_relative (sx sy : bool) (mx my : positive) (ex ey : Z) :
  2 ^ 52 <= Zpos mx < 2 ^ 53 -> 2 ^ 52 <= Zpos my < 2 ^ 53 ->
  -1074 <= ex - ey - 53 ->
  let v := (scaled (Zpos mx) ex / scaled (Zpos my) ey)%Q in
  (v * (1 + eps) < 2 ^ 1024)%Q ->
  exists (m' : positive) (e' : Z),
    SFdiv prec emax (S754_finite sx mx ex) (S754_finite sy my ey)
    = S754_finite (xorb sx sy) m' e'
    /\ 2 ^ 52 <= Zpos m' < 2 ^ 53
    /\ ex - ey - 53 <= e' <= 971
    /\ (v * (1 - eps) <= scaled (Zpos m') e')%Q
    /\ (scaled (Zpos m') e' <= v * (1 + eps))%Q.
Proof.
  intros Hmx Hmy He v Hmax. cbn [SFdiv]. unfold SFdiv_core_binary.
  rewrite (digits_53 mx Hmx), (digits_53 my Hmy).
  assert (Hfexp : fexp prec emax (53 + ex - (53 + ey)) = ex - ey - 53).
  { change (fexp prec emax (53 + ex - (53 + ey)))
      with (Z.max (53 + ex - (53 + ey) - 53) (-1074)). lia. }
  rewrite Hfexp.
  replace (Z.min (ex - ey - 53) (ex - ey)) with (ex - ey - 53) by lia.
  replace (ex - ey - (ex - ey - 53)) with 53 by lia.
  cbv iota.
  rewrite Z.shiftl_mul_pow2 by lia.
  set (num := Zpos mx * 2 ^ 53).
  pose proof (Z.div_eucl_eq num (Zpos my) ltac:(lia)) as Heucl.
  pose proof (Z.mod_pos_bound num (Zpos my) ltac:(lia)) as Hmod.
  unfold Z.modulo in Hmod.
  destruct (Z.div_eucl num (Zpos my)) as [q r].
  assert (Hq : 2 ^ 52 <= q < 2 ^ 54) by (unfold num in Heucl; nia).
  destruct q as [|q|q]; try lia.
  assert (Hlog : 52 <= Z.log2 (Zpos q)) by (apply Z.log2_le_pow2; lia).
  (* the quotient brackets the exact value *)
  assert (Hmy0 : (0 < scaled (Zpos my) ey)%Q) by (apply scaled_pos; lia).
  assert (Hmyz : (0 < inject_Z (Zpos my))%Q).
  { change 0%Q with (inject_Z 0). rewrite <- Zlt_Qlt. lia. }
  assert (Hv : (v == inject_Z num / inject_Z (Zpos my) * 2 ^ (ex - ey - 53))%Q).
  { unfold v, scaled, num. rewrite inject_Z_mult, (pow2_inject 53) by lia.
    replace ex with ((ex - ey - 53) + 53 + ey) at 1 by lia.
    rewrite !pow2_add.
    pose proof (pow2_pos ey). pose proof (pow2_pos 53).
    pose proof (pow2_pos (ex - ey - 53)).
    field. split; lra. }
  assert (Hql : (inject_Z (Zpos q) <= inject_Z num / inject_Z (Zpos my))%Q).
  { apply Qle_shift_div_l; [exact Hmyz|].
    rewrite <- inject_Z_mult, <- Zle_Qle. lia. }
  assert (Hqh : (inject_Z num / inject_Z (Zpos my) <= inject_Z (Zpos q + 1))%Q).
  { apply Qle_shift_div_r; [exact Hmyz|].
    rewrite <- inject_Z_mult, <- Zle_Qle. lia. }
  destruct (round_relative (xorb sx sy) q (ex - ey - 53)
              (new_location (Zpos my) r) v ltac:(lia) He)
    as [m' [e' [Hres [Hm' [He' [Hlo [Hhi _]]]]]]].
  - rewrite Hv. unfold scaled. apply Qmult_le_compat_r; [exact Hql|].
    apply Qlt_le_weak, pow2_pos.
  - rewrite Hv. unfold scaled. apply Qmult_le_compat_r; [exact Hqh|].
    apply Qlt_le_weak, pow2_pos.
  - exact Hmax.
  - exists m', e'. split; [exact Hres|]. split; [exact Hm'|].
    split; [lia|]. split; assumption.
Qed.

Lemma iter_xO_value (p k : positive) :
  Zpos (Pos.iter xO p k) = Zpos p * 2 ^ Zpos k.
Proof.
  induction k as [|k IH] using Pos.peano_ind.
  - change (Pos.iter xO p 1) with (p~0)%positive. rewrite Pos2Z.inj_xO. lia.
  - rewrite Pos.iter_succ, Pos2Z.inj_xO, IH, Pos2Z.inj_succ, Z.pow_succ_r by lia.
    lia.
Qed.

Lemma binary_round_relative (sx : bool) (m : positive) (e : Z) :
  let d := Z.log2 (Zpos m) + 1 in
  -1074 <= e -> -1074 <= d + e - 53 ->
  let v := scaled (Zpos m) e in
  (v * (1 + eps) < 2 ^ 1024)%Q ->
  exists (m' : positive) (e' : Z),
    binary_round prec emax sx m e = S754_finite sx m' e'
    /\ 2 ^ 52 <= Zpos m' < 2 ^ 53
    /\ Z.min e (d + e - 53) <= e' <= 971
    /\ (v * (1 - eps) <= scaled (Zpos m') e')%Q
    /\ (scaled (Zpos m') e' <= v * (1 + eps))%Q
    /\ (d <= 53 -> (scaled (Zpos m') e' == v)%Q).
Proof.
  intros d He Hnorm v Hmax. unfold binary_round, shl_align.
  pose proof (Zdigits2_log2 m) as Hd. unfold Zdigits2 in Hd. rewrite Hd.
  fold d.
  pose proof (Z.log2_nonneg (Zpos m)) as Hlog.
  assert (Hfexp : fexp prec emax (d + e) = d + e - 53).
  { change (fexp prec emax (d + e)) with (Z.max (d + e - 53) (-1074)). lia. }
  rewrite Hfexp.
  replace (d + e - 53 - e) with (d - 53) by lia.
  remember (d - 53) as n eqn:En.
  destruct n as [|k|k].
  - (* exactly 53 digits *)
    destruct (round_relative sx m e loc_Exact v ltac:(fold d; lia) He)
      as [m' [e' [Hres [Hm' [He' [Hlo [Hhi Hex]]]]]]].
    + apply Qle_refl.
    + apply scaled_le. lia.
    + exact Hmax.
    + exists m', e'. fold d in He'. split; [exact Hres|]. split; [exact Hm'|].
      split; [lia|]. split; [exact Hlo|]. split; [exact Hhi|].
      intros _. destruct (Hex eq_refl ltac:(fold d; lia)) as [-> ->].
      reflexivity.
  - (* more than 53 digits: rounded *)
    destruct (round_relative sx m e loc_Exact v ltac:(fold d; lia) He)
      as [m' [e' [Hres [Hm' [He' [Hlo [Hhi Hex]]]]]]].
    + apply Qle_refl.
    + apply scaled_le. lia.
    + exact Hmax.
    + exists m', e'. fold d in He'. split; [exact Hres|]. split; [exact Hm'|].
      split; [lia|]. split; [exact Hlo|]. split; [exact Hhi|].
      intros Hle. lia.
  - (* fewer than 53 digits: aligned, exact *)
    set (mz := Pos.iter xO m k).
    assert (Hmz : Zpos mz = Zpos m * 2 ^ Zpos k) by apply iter_xO_value.
    assert (Hlz : Z.log2 (Zpos mz) = Z.log2 (Zpos m) + Zpos k)
      by apply iter_xO_log2.
    assert (Hv : (scaled (Zpos mz) (d + e - 53) == v)%Q).
    { rewrite Hmz, scaled_shift by lia. unfold v.
      replace (d + e - 53 + Zpos k) with e by lia. reflexivity. }
    destruct (round_relative sx mz (d + e - 53) loc_Exact v
                ltac:(rewrite Hlz; unfold d in En; lia) Hnorm)
      as [m' [e' [Hres [Hm' [He' [Hlo [Hhi Hex]]]]]]].
    + rewrite Hv. apply Qle_refl.
    + rewrite <- Hv. apply scaled_le. lia.
    + exact Hmax.
    + exists m', e'. rewrite Hlz in He'.
      split; [exact Hres|]. split; [exact Hm'|].
      split; [unfold d in *; lia|]. split; [exact Hlo|]. split; [exact Hhi|].
      intros _.
      destruct (Hex eq_refl ltac:(rewrite Hlz; unfold d in En; lia)) as [-> ->].
      exact Hv.
Qed.

Lemma shl_align_value (m : positive) (e ez : Z) :
  ez <= e -> Zpos (fst (shl_align m e ez)) = Zpos m * 2 ^ (e - ez).
Proof.
  intros Hle. unfold shl_align.
  remember (ez - e) as n eqn:En.
  destruct n as [|k|k]; cbn [fst]; try lia.
  - replace (e - ez) with 0 by lia. lia.
  - rewrite iter_xO_value. f_equal. f_equal. lia.
Qed.

Lemma eps_pos : (0 < eps)%Q.
Proof. reflexivity. Qed.

Lemma eps_small : (eps < 1)%Q.
Proof. reflexivity. Qed.

(** [-h + t] for positive [h] and [t] *)
Lemma SFadd_relative (mh mt : positive) (eh et : Z) :
  -1022 <= eh -> -1022 <= et ->
  let hv := scaled (Zpos mh) eh in
  let tv := scaled (Zpos mt) et in
  (hv * (1 + eps) < 2 ^ 1024)%Q -> (tv * (1 + eps) < 2 ^ 1024)%Q ->
  exists r : Q,
    SF2Q (SFadd prec emax (S754_finite true mh eh) (S754_finite false mt et))
    = Some r
    /\ (tv - hv - eps * (tv + hv) <= r)%Q
    /\ (r <= tv - hv + eps * (tv + hv))%Q.
Proof.
  intros Heh Het hv tv Hhmax Htmax. cbn [SFadd cond_Zopp].
  set (ez := Z.min eh et).
  rewrite (shl_align_value mh eh ez) by (unfold ez; lia).
  rewrite (shl_align_value mt et ez) by (unfold ez; lia).
  set (H := Zpos mh * 2 ^ (eh - ez)). set (T := Zpos mt * 2 ^ (et - ez)).
  assert (HH : (scaled H ez == hv)%Q).
  { unfold H, hv. rewrite scaled_shift by (unfold ez; lia).
    replace (ez + (eh - ez)) with eh by lia. reflexivity. }
  assert (HT : (scaled T ez == tv)%Q).
  { unfold T, tv. rewrite scaled_shift by (unfold ez; lia).
    replace (ez + (et - ez)) with et by lia. reflexivity. }
  assert (Hh0 : (0 < hv)%Q) by (apply scaled_pos; lia).
  assert (Ht0 : (0 < tv)%Q) by (apply scaled_pos; lia).
  assert (HS : (scaled (- H + T) ez == tv - hv)%Q).
  { rewrite <- HH, <- HT. unfold scaled.
    rewrite inject_Z_plus, inject_Z_opp. ring. }
  pose proof eps_pos as He0. pose proof eps_small as He1.
  remember (- H + T) as S eqn:ES.
  destruct S as [|s|s]; cbn [binary_normalize].
  - exists 0%Q. split; [reflexivity|].
    assert (Hz : (tv - hv == 0)%Q).
    { rewrite <- HS. unfold scaled. change (inject_Z 0) with 0%Q. ring. }
    assert (Hp : (0 <= eps * (tv + hv))%Q).
    { apply Qmult_le_0_compat; lra. }
    remember (eps * (tv + hv))%Q as c. split; lra.
  - pose proof (Z.log2_nonneg (Zpos s)) as Hlog.
    destruct (binary_round_relative false s ez ltac:(unfold ez; lia)
                ltac:(unfold ez; lia))
      as [m' [e' [Hres [Hm' [He' [Hlo [Hhi _]]]]]]].
    { rewrite HS. remember (2 ^ 1024)%Q as P.
      assert (Hx : ((tv - hv) * (1 + eps) <= tv * (1 + eps))%Q).
      { apply Qmult_le_compat_r; lra. }
      lra. }
    rewrite Hres. cbn [SF2Q]. eexists. split; [reflexivity|].
    fold (scaled (Zpos m') e'). rewrite HS in Hlo, Hhi.
    assert (Hv0 : (0 < tv - hv)%Q).
    { rewrite <- HS. apply scaled_pos. lia. }
    remember (scaled (Zpos m') e') as r.
    remember (eps * tv)%Q as et'. remember (eps * hv)%Q as eh'.
    assert (Het' : (0 < et')%Q) by (subst et'; apply Qmult_lt_0_compat; lra).
    assert (Heh' : (0 < eh')%Q) by (subst eh'; apply Qmult_lt_0_compat; lra).
    assert (E1 : ((tv - hv) * (1 - eps) == tv - hv - et' + eh')%Q)
      by (subst; ring).
    assert (E2 : ((tv - hv) * (1 + eps) == tv - hv + et' - eh')%Q)
      by (subst; ring).
    assert (E3 : (eps * (tv + hv) == et' + eh')%Q) by (subst; ring).
    rewrite E1 in Hlo. rewrite E2 in Hhi. rewrite E3.
    split; lra.
  - pose proof (Z.log2_nonneg (Zpos s)) as Hlog.
    assert (HS' : (scaled (Zpos s) ez == hv - tv)%Q).
    { assert (Hopp : (scaled (Zpos s) ez == - scaled (Zneg s) ez)%Q).
      { unfold scaled. change (Zneg s) with (- Zpos s).
        rewrite inject_Z_opp. ring. }
      rewrite Hopp, HS. ring. }
    destruct (binary_round_relative true s ez ltac:(unfold ez; lia)
                ltac:(unfold ez; lia))
      as [m' [e' [Hres [Hm' [He' [Hlo [Hhi _]]]]]]].
    { rewrite HS'. remember (2 ^ 1024)%Q as P.
      assert (Hx : ((hv - tv) * (1 + eps) <= hv * (1 + eps))%Q).
      { apply Qmult_le_compat_r; lra. }
      lra. }
    rewrite Hres. cbn [SF2Q]. eexists. split; [reflexivity|].
    rewrite HS' in Hlo, Hhi.
    assert (Hr : ((- inject_Z (Zpos m') * 2 ^ e' == - scaled (Zpos m') e'))%Q)
      by (unfold scaled; ring).
    rewrite Hr.
    remember (scaled (Zpos m') e') as r.
    remember (eps * tv)%Q as et'. remember (eps * hv)%Q as eh'.
    assert (Het' : (0 < et')%Q) by (subst et'; apply Qmult_lt_0_compat; lra).
    assert (Heh' : (0 < eh')%Q) by (subst eh'; apply Qmult_lt_0_compat; lra).
    assert (E1 : ((hv - tv) * (1 - eps) == hv - tv - eh' + et')%Q)
      by (subst; ring).
    assert (E2 : ((hv - tv) * (1 + eps) == hv - tv + eh' - et')%Q)
      by (subst; ring).
    assert (E3 : (eps * (tv + hv) == et' + eh')%Q) by (subst; ring).
    rewrite E1 in Hlo. rewrite E2 in Hhi. rewrite E3.
    split; lra.
Qed.

Lemma below_pow (v : Q) (k : Z) :
  (0 <= v)%Q -> (v <= 2 ^ k)%Q -> k < 1024 -> (v * (1 + eps) < 2 ^ 1024)%Q.
Proof.
  intros H0 Hv Hk.
  assert (Hstep : (2 ^ (k + 1) <= 2 ^ 1024)%Q).
  { apply Qpower_le_compat_l; [lia | discriminate]. }
  rewrite pow2_add in Hstep. change (2 ^ 1)%Q with 2%Q in Hstep.
  pose proof (pow2_pos k) as Hp.
  pose proof eps_pos. pose proof eps_small.
  assert (Hve : (v * eps <= v * (1 # 2))%Q).
  { rewrite !(Qmult_comm v). apply Qmult_le_compat_r; [|exact H0].
    discriminate. }
  remember (2 ^ k)%Q as K. remember (2 ^ 1024)%Q as P.
  remember (v * eps)%Q as ve. 
  assert (E : (v * (1 + eps) == v + ve)%Q) by (subst; ring).
  rewrite E. lra.
Qed.

Lemma normal_bound (m : positive) (e : Z) :
  2 ^ 52 <= Zpos m < 2 ^ 53 ->
  (2 ^ (52 + e) <= scaled (Zpos m) e)%Q /\ (scaled (Zpos m) e <= 2 ^ (53 + e))%Q.
Proof.
  intros Hm. rewrite !pow2_add, <- (pow2_inject 52), <- (pow2_inject 53) by lia.
  split; apply scaled_le; lia.
Qed.

(** Small positive integers convert exactly. *)
Lemma of_int_normal (z : Z) :
  1 <= z < 2 ^ 53 ->
  exists (m : positive) (e : Z),
    normal (of_int z) false m e /\ -52 <= e <= 0
    /\ (scaled (Zpos m) e == inject_Z z)%Q.
Proof.
  intros Hz. cbn [of_int Binary64.ops]. unfold Binary64.of_Z.
  replace ((0 <=? z) && (z <? 9223372036854775808)) with true
    by (symmetry; apply andb_true_iff; split;
        [apply Z.leb_le | apply Z.ltb_lt]; lia).
  unfold normal. rewrite of_uint63_spec, to_Z_of_Z_small by lia.
  destruct z as [|p|p]; try lia. cbn [binary_normalize].
  pose proof (Z.log2_nonneg (Zpos p)) as Hlog.
  assert (Hl53 : Z.log2 (Zpos p) < 53) by (apply Z.log2_lt_pow2; lia).
  assert (Hv : (scaled (Zpos p) 0 == inject_Z (Zpos p))%Q).
  { unfold scaled. change (2 ^ 0)%Q with 1%Q. ring. }
  assert (Hp53 : (inject_Z (Zpos p) <= 2 ^ 53)%Q).
  { rewrite <- (pow2_inject 53), <- Zle_Qle by lia. lia. }
  destruct (binary_round_relative false p 0 ltac:(lia) ltac:(lia))
    as [m' [e' [Hres [Hm' [He' [Hlo [Hhi Hex]]]]]]].
  { apply (below_pow _ 53); [|rewrite Hv; exact Hp53 | lia].
    apply Qlt_le_weak, scaled_pos. lia. }
  specialize (Hex ltac:(lia)).
  exists m', e'. split; [split; assumption|]. split.
  - split; [lia|].
    destruct (normal_bound m' e' Hm') as [Hb _].
    assert (Hlt : (2 ^ (52 + e') < 2 ^ (52 + 1))%Q).
    { eapply Qle_lt_trans; [exact Hb|]. rewrite Hex, Hv.
      rewrite <- (pow2_inject (52 + 1)), <- Zlt_Qlt by lia. lia. }
    apply pow2_lt_inv in Hlt. lia.
  - rewrite Hex. exact Hv.
Qed.

Lemma div_relative (x y : float) (mx my : positive) (ex ey : Z) :
  normal x false mx ex -> normal y false my ey ->
  -1074 <= ex - ey - 53 ->
  let v := (scaled (Zpos mx) ex / scaled (Zpos my) ey)%Q in
  (v * (1 + eps) < 2 ^ 1024)%Q ->
  exists (m' : positive) (e' : Z),
    normal (PrimFloat.div x y) false m' e'
    /\ ex - ey - 53 <= e' <= 971
    /\ (v * (1 - eps) <= scaled (Zpos m') e')%Q
    /\ (scaled (Zpos m') e' <= v * (1 + eps))%Q.
Proof.
  intros [Hx Hmx] [Hy Hmy] He v Hmax.
  destruct (SFdiv_relative false false mx my ex ey Hmx Hmy He Hmax)
    as [m' [e' [Hres [Hm' [He' [Hlo Hhi]]]]]].
  exists m', e'. unfold normal.
  rewrite div_spec, Hx, Hy. unfold SF64div. rewrite Hres.
  repeat split; try assumption; lia.
Qed.

Lemma mul_relative (x y : float) (mx my : positive) (ex ey : Z) :
  normal x false mx ex -> normal y false my ey ->
  -1074 <= ex + ey ->
  let v := (scaled (Zpos mx) ex * scaled (Zpos my) ey)%Q in
  (v * (1 + eps) < 2 ^ 1024)%Q ->
  exists (m' : positive) (e' : Z),
    normal (PrimFloat.mul x y) false m' e'
    /\ ex + ey + 52 <= e' <= 971
    /\ (v * (1 - eps) <= scaled (Zpos m') e')%Q
    /\ (scaled (Zpos m') e' <= v * (1 + eps))%Q.
Proof.
  intros [Hx Hmx] [Hy Hmy] He v Hmax.
  destruct (SFmul_relative false false mx my ex ey Hmx Hmy He Hmax)
    as [m' [e' [Hres [Hm' [He' [Hlo Hhi]]]]]].
  exists m', e'. unfold normal.
  rewrite mul_spec, Hx, Hy. unfold SF64mul. rewrite Hres.
  repeat split; try assumption; lia.
Qed.

Lemma add_opp_relative (h t : float) (mh mt : positive) (eh et : Z) :
  normal h false mh eh -> normal t false mt et ->
  -1022 <= eh -> -1022 <= et ->
  let hv := scaled (Zpos mh) eh in
  let tv := scaled (Zpos mt) et in
  (hv * (1 + eps) < 2 ^ 1024)%Q -> (tv * (1 + eps) < 2 ^ 1024)%Q ->
  exists r : Q,
    real_value (PrimFloat.add (PrimFloat.opp h) t) = Some r
    /\ (tv - hv - eps * (tv + hv) <= r)%Q
    /\ (r <= tv - hv + eps * (tv + hv))%Q.
Proof.
  intros [Hh Hmh] [Ht Hmt] Heh Het hv tv Hhmax Htmax.
  destruct (SFadd_relative mh mt eh et Heh Het Hhmax Htmax)
    as [r [Hr Hb]].
  exists r. split; [|exact Hb].
  unfold real_value. rewrite add_spec, opp_spec, Hh, Ht. exact Hr.
Qed.

(** A double between [2^-900] and the largest finite double. *)
Lemma area_normal (A : float) :
  PrimFloat.leb 0x1p-900 A = true ->
  PrimFloat.leb A 0x1.fffffffffffffp+1023 = true ->
  exists (m : positive) (e : Z), normal A false m e /\ -952 <= e <= 971.
Proof.
  intros Hlo Hhi. rewrite leb_spec in Hlo, Hhi.
  pose proof (Prim2SF_valid A) as Hvalid.
  change (Prim2SF 0x1p-900) with (S754_finite false 4503599627370496 (-952))
    in Hlo.
  change (Prim2SF 0x1.fffffffffffffp+1023)
    with (S754_finite false 9007199254740991 971) in Hhi.
  destruct (Prim2SF A) as [s|s| |s m e] eqn:EA.
  - destruct s; discriminate Hlo.
  - destruct s; [discriminate Hlo | discriminate Hhi].
  - discriminate Hlo.
  - destruct s; [discriminate Hlo|].
    unfold SFleb, SFcompare in Hlo.
    cbn [valid_binary] in Hvalid. unfold bounded in Hvalid.
    apply andb_true_iff in Hvalid. destruct Hvalid as [Hcan Hemax].
    apply Z.leb_le in Hemax. change (emax - prec) with 971 in Hemax.
    unfold canonical_mantissa in Hcan. apply Z.eqb_eq in Hcan.
    assert (He : -952 <= e).
    { destruct (Z.compare_spec (-952) e) as [E|L|G];
        try lia; try discriminate Hlo. }
    pose proof (Zdigits2_log2 m) as Hd. unfold Zdigits2 in Hd.
    rewrite Hd in Hcan.
    change (fexp prec emax (Z.log2 (Zpos m) + 1 + e))
      with (Z.max (Z.log2 (Zpos m) + 1 + e - 53) (-1074)) in Hcan.
    assert (Hl : Z.log2 (Zpos m) = 52) by lia.
    pose proof (Z.log2_spec (Zpos m) ltac:(lia)) as Hs. rewrite Hl in Hs.
    change (Z.succ 52) with 53 in Hs.
    exists m, e. split; [split; [exact EA | exact Hs]|]. lia.
Qed.

(** ** Geometry of the grid in binary64 *)

Lemma ratio_facts (a : Q) (k m : Z) :
  (0 < a)%Q -> 1 <= k -> k < m -> m <= 2 ^ 16 ->
  let alpha := (a / inject_Z m)%Q in
  let beta := (inject_Z k * alpha)%Q in
  (0 < alpha)%Q /\ (a <= 65536 * alpha)%Q /\ (2 * alpha <= a)%Q
  /\ (alpha <= beta)%Q /\ (beta <= a - alpha)%Q.
Proof.
  intros Ha Hk Hkm Hm alpha beta.
  assert (Hm0 : (0 < inject_Z m)%Q).
  { change 0%Q with (inject_Z 0). rewrite <- Zlt_Qlt. lia. }
  assert (Halpha : (0 < alpha)%Q).
  { apply Qlt_shift_div_l; [exact Hm0 | lra]. }
  assert (Hma : (inject_Z m * alpha == a)%Q).
  { unfold alpha. field. lra. }
  assert (Hm16 : (inject_Z m * alpha <= 65536 * alpha)%Q).
  { apply Qmult_le_compat_r; [|lra].
    change 65536%Q with (inject_Z 65536). rewrite <- Zle_Qle. exact Hm. }
  assert (Hm2 : (2 * alpha <= inject_Z m * alpha)%Q).
  { apply Qmult_le_compat_r; [|lra].
    change 2%Q with (inject_Z 2). rewrite <- Zle_Qle. lia. }
  assert (Hk1 : (1 * alpha <= beta)%Q).
  { unfold beta. apply Qmult_le_compat_r; [|lra].
    change 1%Q with (inject_Z 1). rewrite <- Zle_Qle. exact Hk. }
  assert (Hkm1 : (beta <= inject_Z (m - 1) * alpha)%Q).
  { unfold beta. apply Qmult_le_compat_r; [|lra].
    rewrite <- Zle_Qle. lia. }
  assert (Hexp : (inject_Z (m - 1) * alpha == inject_Z m * alpha - alpha)%Q).
  { replace (m - 1) with (m + -1) by lia.
    rewrite inject_Z_plus. change (inject_Z (-1)) with (- (1))%Q. ring. }
  remember (inject_Z m * alpha)%Q as ma.
  remember (inject_Z (m - 1) * alpha)%Q as m1a.
  clearbody alpha beta.
  repeat split; lra.
Qed.

(** One coordinate of a station: the computed double is within [eta * a]
    of the exact [-a/2 + k * (a / m)]. *)
Lemma offset_value (A : float) (mA : positive) (eA : Z) (k m : Z) :
  normal A false mA eA -> -952 <= eA <= 971 ->
  1 <= k -> k < m -> m <= 2 ^ 16 ->
  let a := scaled (Zpos mA) eA in
  exists q : Q,
    real_value (PrimFloat.add (PrimFloat.opp (PrimFloat.div A (of_int 2)))
             (PrimFloat.mul (of_int k) (PrimFloat.div A (of_int m))))
    = Some q
    /\ (- (a / 2) + inject_Z k * (a / inject_Z m) - eta * a <= q)%Q
    /\ (q <= - (a / 2) + inject_Z k * (a / inject_Z m) + eta * a)%Q.
Proof.
  intros HA HeA Hk Hkm Hm a.
  pose proof HA as [_ HmA].
  assert (Ha0 : (0 < a)%Q) by (apply scaled_pos; lia).
  assert (HaP : (a <= 2 ^ 1024)%Q).
  { destruct (normal_bound mA eA HmA) as [_ Hb].
    eapply Qle_trans; [exact Hb|].
    apply Qpower_le_compat_l; [lia | discriminate]. }
  destruct (ratio_facts a k m Ha0 Hk Hkm Hm)
    as [Hal0 [Hal16 [Hal2 [Hbe1 Hbe2]]]].
  set (alpha := (a / inject_Z m)%Q) in *.
  set (beta := (inject_Z k * alpha)%Q) in *.
  (* the three integers *)
  destruct (of_int_normal 2 ltac:(lia)) as [m2 [e2 [H2 [He2 Hv2]]]].
  destruct (of_int_normal m ltac:(lia)) as [mm [em [Hmf [Hem Hvm]]]].
  destruct (of_int_normal k ltac:(lia)) as [mk [ek [Hkf [Hek Hvk]]]].
  change (inject_Z 2) with 2%Q in Hv2.
  (* half = areaSize / 2 *)
  destruct (div_relative A (of_int 2) mA m2 eA e2 HA H2 ltac:(lia))
    as [mh [eh [Hh [Heh [Hhlo Hhhi]]]]].
  { fold a. rewrite Hv2. remember (2 ^ 1024)%Q as P.
    unfold Qdiv. change (/ 2)%Q with (1 # 2)%Q. unfold eps. lra. }
  fold a in Hhlo, Hhhi. rewrite Hv2 in Hhlo, Hhhi.
  set (hv := scaled (Zpos mh) eh) in *.
  (* dx = areaSize / m *)
  destruct (div_relative A (of_int m) mA mm eA em HA Hmf ltac:(lia))
    as [md [ed [Hd [Hed [Hdlo Hdhi]]]]].
  { fold a. rewrite Hvm. fold alpha. remember (2 ^ 1024)%Q as P.
    unfold eps. clearbody alpha. lra. }
  fold a in Hdlo, Hdhi. rewrite Hvm in Hdlo, Hdhi.
  fold alpha in Hdlo, Hdhi.
  set (dv := scaled (Zpos md) ed) in *.
  (* k * dx, exactly *)
  set (w := (inject_Z k * dv)%Q).
  assert (Hk0 : (0 <= inject_Z k)%Q).
  { change 0%Q with (inject_Z 0). rewrite <- Zle_Qle. lia. }
  assert (Hwlo : (beta * (1 - eps) <= w)%Q).
  { unfold beta, w. rewrite <- Qmult_assoc, !(Qmult_comm (inject_Z k)).
    apply Qmult_le_compat_r; assumption. }
  assert (Hwhi : (w <= beta * (1 + eps))%Q).
  { unfold beta, w. rewrite <- Qmult_assoc, !(Qmult_comm (inject_Z k)).
    apply Qmult_le_compat_r; assumption. }
  (* t = k * dx *)
  destruct (mul_relative (of_int k) (PrimFloat.div A (of_int m))
              mk md ek ed Hkf Hd ltac:(lia))
    as [mt [et [Ht [Het [Htlo Hthi]]]]].
  { fold dv. rewrite Hvk. fold w. remember (2 ^ 1024)%Q as P.
    unfold eps in *. clearbody alpha beta w. lra. }
  fold dv in Htlo, Hthi. rewrite Hvk in Htlo, Hthi. fold w in Htlo, Hthi.
  set (tv := scaled (Zpos mt) et) in *.
  (* x = -half + t *)
  destruct (add_opp_relative (PrimFloat.div A (of_int 2))
              (PrimFloat.mul (of_int k) (PrimFloat.div A (of_int m)))
              mh mt eh et Hh Ht ltac:(lia) ltac:(lia))
    as [q [Hq [Hqlo Hqhi]]].
  { fold hv. remember (2 ^ 1024)%Q as P.
    unfold Qdiv in Hhhi. change (/ 2)%Q with (1 # 2)%Q in Hhhi.
    unfold eps in *. clearbody hv. lra. }
  { fold tv. remember (2 ^ 1024)%Q as P.
    unfold eps in *. clearbody alpha beta w tv. lra. }
  fold hv tv in Hqlo, Hqhi.
  exists q. split; [exact Hq|].
  fold alpha. fold beta.
  unfold Qdiv in Hhlo, Hhhi |- *.
  change (/ 2)%Q with (1 # 2)%Q in Hhlo, Hhhi |- *.
  unfold eps, eta in *.
  clearbody alpha beta w hv tv dv a.
  split; lra.
Qed.

Lemma real_value_normal (f : float) (m : positive) (e : Z) :
  normal f false m e -> real_value f = Some (scaled (Zpos m) e).
Proof. intros [Hf _]. unfold real_value. rewrite Hf. reflexivity. Qed.

(** Two coordinates computed from different cell indices differ. *)
Lemma offsets_differ (a : Q) (k1 k2 m : Z) (q1 q2 : Q) :
  (0 < a)%Q -> 1 <= k1 -> k1 < k2 -> k2 < m -> m <= 2 ^ 16 ->
  (- (a / 2) + inject_Z k1 * (a / inject_Z m) - eta * a <= q1)%Q ->
  (q1 <= - (a / 2) + inject_Z k1 * (a / inject_Z m) + eta * a)%Q ->
  (- (a / 2) + inject_Z k2 * (a / inject_Z m) - eta * a <= q2)%Q ->
  (q2 <= - (a / 2) + inject_Z k2 * (a / inject_Z m) + eta * a)%Q ->
  (q1 < q2)%Q.
Proof.
  intros Ha Hk1 Hk12 Hk2 Hm H1lo H1hi H2lo H2hi.
  destruct (ratio_facts a k1 m Ha Hk1 ltac:(lia) Hm)
    as [Hal0 [Hal16 _]].
  set (alpha := (a / inject_Z m)%Q) in *.
  assert (Hgap : (inject_Z k1 * alpha + alpha <= inject_Z k2 * alpha)%Q).
  { assert (Hle : (inject_Z (k1 + 1) * alpha <= inject_Z k2 * alpha)%Q).
    { apply Qmult_le_compat_r; [|lra]. rewrite <- Zle_Qle. lia. }
    rewrite inject_Z_plus in Hle. change (inject_Z 1) with 1%Q in Hle.
    assert (E : ((inject_Z k1 + 1) * alpha == inject_Z k1 * alpha + alpha)%Q)
      by ring.
    rewrite E in Hle. exact Hle. }
  remember (inject_Z k1 * alpha)%Q as b1. remember (inject_Z k2 * alpha)%Q as b2.
  unfold eta in *. clearbody alpha. lra.
Qed.

Lemma offset_strictly_inside (a : Q) (k m : Z) (q : Q) :
  (0 < a)%Q -> 1 <= k -> k < m -> m <= 2 ^ 16 ->
  (- (a / 2) + inject_Z k * (a / inject_Z m) - eta * a <= q)%Q ->
  (q <= - (a / 2) + inject_Z k * (a / inject_Z m) + eta * a)%Q ->
  (- (a / 2) < q)%Q /\ (q < a / 2)%Q.
Proof.
  intros Ha Hk Hkm Hm Hlo Hhi.
  destruct (ratio_facts a k m Ha Hk Hkm Hm)
    as [Hal0 [Hal16 [Hal2 [Hbe1 Hbe2]]]].
  set (alpha := (a / inject_Z m)%Q) in *.
  set (beta := (inject_Z k * alpha)%Q) in *.
  unfold Qdiv in Hlo, Hhi |- *.
  change (/ 2)%Q with (1 # 2)%Q in Hlo, Hhi |- *.
  fold (a / inject_Z m)%Q in Hlo, Hhi. fold alpha in Hlo, Hhi.
  fold beta in Hlo, Hhi.
  unfold eta in *. clearbody alpha beta. split; lra.
Qed.

(** The coordinates of station [k], with the rounding error of the four
    operations that compute each of them. *)
Lemma station_coordinates (N : Z) (areaSize : float) (mA : positive) (eA : Z) :
  1 <= N < 2 ^ 16 ->
  normal areaSize false mA eA -> -952 <= eA <= 971 ->
  let rows := MultiCell.nRows (D:=float) N in
  let cols := MultiCell.nCols (D:=float) N in
  let a := scaled (Zpos mA) eA in
  forall (k : nat) (p : Vector float),
    nth_error (MultiCell.enb_positions (D:=float) areaSize N) k = Some p ->
    (0 <= Z.of_nat k < N
     /\ 0 <= Z.of_nat k mod cols < cols
     /\ 0 <= Z.of_nat k / cols < rows
     /\ Z.of_nat k = cols * (Z.of_nat k / cols) + Z.of_nat k mod cols)
    /\ exists x y : Q,
         real_value (vx p) = Some x /\ real_value (vy p) = Some y
         /\ (- (a / 2)
             + inject_Z (Z.of_nat k mod cols + 1)
               * (a / inject_Z (cols + 1)) - eta * a <= x)%Q
         /\ (x <= - (a / 2)
                  + inject_Z (Z.of_nat k mod cols + 1)
                    * (a / inject_Z (cols + 1)) + eta * a)%Q
         /\ (- (a / 2)
             + inject_Z (Z.of_nat k / cols + 1)
               * (a / inject_Z (rows + 1)) - eta * a <= y)%Q
         /\ (y <= - (a / 2)
                  + inject_Z (Z.of_nat k / cols + 1)
                    * (a / inject_Z (rows + 1)) + eta * a)%Q.
Proof.
  intros HN HA HeA rows cols a k p Hk.
  assert (Hu : is_u16 N) by (unfold is_u16; lia).
  pose proof (grid_shape binary64_grid_exact N HN) as Hs. cbv zeta in Hs.
  fold rows in Hs. fold cols in Hs.
  destruct Hs as [Hr [Hc [HcN [Hrc _]]]].
  apply enb_positions_nth_inv in Hk. destruct Hk as [Hi Hp].
  pose proof (Z.mod_pos_bound (Z.of_nat k) cols ltac:(lia)) as Hm.
  assert (Hq : 0 <= Z.of_nat k / cols < rows).
  { split; [apply Z.div_pos; lia|]. apply Z.div_lt_upper_bound; lia. }
  split.
  { split; [exact Hi|]. split; [exact Hm|]. split; [exact Hq|].
    apply Z.div_mod. lia. }
  rewrite Hp.
  rewrite (enb_position_formula binary64_grid_exact areaSize N
             (Z.of_nat k) HN Hi).
  rewrite <- (nCols_exact binary64_grid_exact N Hu).
  rewrite <- (nRows_exact binary64_grid_exact N Hu).
  fold rows. fold cols. cbn [vx vy dadd dopp dmul ddiv Binary64.ops].
  destruct (offset_value areaSize mA eA (Z.of_nat k mod cols + 1) (cols + 1)
              HA HeA ltac:(lia) ltac:(lia) ltac:(lia))
    as [x [Hx [Hxlo Hxhi]]].
  destruct (offset_value areaSize mA eA (Z.of_nat k / cols + 1) (rows + 1)
              HA HeA ltac:(lia) ltac:(lia) ltac:(lia))
    as [y [Hy [Hylo Hyhi]]].
  exists x, y. repeat split; assumption.
Qed.

(** ** The grid in binary64 at the usual area sides *)

(** In binary64, for the default area side (2000 m) and the 20 km side of the
    usage example, every station count from 1 to 120 yields that many
    stations, strictly inside the square and pairwise distinct. *)
Lemma binary64_stations_ok :
  forall N, 1 <= N <= 120 ->
    stations_okb (of_int 2000) N = true /\ stations_okb (of_int 20000) N = true.
Proof.
  assert (Hall : all_from (fun N => stations_okb (of_int 2000) N
                                    && stations_okb (of_int 20000) N)
                          120 1 = true).
  { vm_cast_no_check (eq_refl true). }
  intros N HN.
  pose proof (all_from_spec _ _ _ Hall N ltac:(lia)) as Hok.
  apply andb_true_iff in Hok. exact Hok.
Qed.

(** ** Technology profile and traffic *)

Lemma bandwidth_single_none (tech : string) :
  SingleCell.bandwidth tech = None
  <-> tech <> "4g"%string /\ tech <> "5g"%string.
Proof.
  unfold SingleCell.bandwidth.
  destruct (String.eqb_spec tech "4g") as [E4|N4];
    [|destruct (String.eqb_spec tech "5g") as [E5|N5]].
  - split; [discriminate | intros [H4 _]; contradiction].
  - split; [discriminate | intros [_ H5]; contradiction].
  - split; [intros _; split; assumption | reflexivity].
Qed.

Lemma bandwidth_multi_none (tech : string) :
  MultiCell.bandwidth tech = None
  <-> tech <> "4g"%string /\ tech <> "5g"%string.
Proof.
  unfold MultiCell.bandwidth.
  destruct (String.eqb_spec tech "4g") as [E4|N4];
    [|destruct (String.eqb_spec tech "5g") as [E5|N5]].
  - split; [discriminate | intros [H4 _]; contradiction].
  - split; [discriminate | intros [_ H5]; contradiction].
  - split; [intros _; split; assumption | reflexivity].
Qed.

(** A horizon below [start + interval * cap] is over before the packet
    count is used up. *)
Lemma cap_not_reached (cap : Z) (start interval stop : Q) :
  (0 <= interval)%Q ->
  (stop <= start + inject_Z cap * interval)%Q ->
  sends_until_stop cap start interval stop.
Proof.
  intros Hiv Hstop k Hk Hlt. unfold send_instant in Hlt.
  destruct (Z_lt_le_dec k cap) as [Hc|Hc]; [exact Hc|exfalso].
  assert (Hle : (inject_Z cap * interval <= inject_Z k * interval)%Q).
  { apply Qmult_le_compat_r; [|exact Hiv]. rewrite <- Zle_Qle. exact Hc. }
  remember (inject_Z cap * interval)%Q as u.
  remember (inject_Z k * interval)%Q as w. lra.
Qed.

(** ** The single-packet example

    One flow with 1 received packet, 0 lost, 100 bytes and delay sum 0.05 s
    over 10 s: mean delay 50 ms, mean jitter 0, throughput 0.00008 Mbps and
    loss rate 0, in both programs and both arithmetics. *)
Example single_packet_flow :
  forall v classifier,
    (let report :=
       report_of (aggregation_stage (D:=Q) v (of_int 10) classifier
                    [(1, single_packet_flow_record)]) in
     Qeq (meanDelayMs report) 50 /\ Qeq (jitterMs report) 0
     /\ Qeq (throughputMbps report) (8 # 100000)
     /\ Qeq (lossRatePct report) 0)
    /\ (let report :=
          report_of (aggregation_stage (D:=float) v (of_int 10) classifier
                       [(1, single_packet_flow_record)]) in
        meanDelayMs report = of_int 50 /\ jitterMs report = of_int 0
        /\ throughputMbps report = dlit 8 100000
        /\ lossRatePct report = of_int 0).
Proof.
  intros v classifier. split; destruct v; vm_compute; repeat split; reflexivity.
Qed.

(** * Main theorems *)

(** C1: in both programs the jitter accumulator adds the cumulative jitter of
    exactly the flows with more than one received packet (the others are
    skipped, not added as zero); the received-packet total is the sum over
    all flows (reduced modulo 2^64, which within the C++ types never
    happens); the reported mean jitter is
    [totalJitter / (totalRxPackets - 1)] (scaled to milliseconds) when
    [totalRxPackets > 1] and [0] otherwise.  On the two-flow example
    (15 packets received, jitter sums 0.2 s and 0.05 s) the mean jitter is
    0.25/14 s, about 17.86 ms, exactly in rational arithmetic and after
    rounding in binary64. *)
Theorem mean_jitter_excludes_short_flows :
  forall (D : Type) (ops : DoubleOps D) (v : Variant) (simTime : D)
         (classifier : FlowId -> FiveTuple)
         (stats : list (FlowId * FlowStats D)),
    zero_times_1000 D ->
    let stage := aggregation_stage v simTime classifier stats in
    let n := totalRxPackets (totals_of stage) in
    totalJitter (totals_of stage) = spec_totalJitterSum stats
    /\ n = u64 (sum_over rxPackets stats)
    /\ (wf_stats stats -> n = sum_over rxPackets stats)
    /\ jitterMs (report_of stage)
       = (if 1 <? n
          then dmul (ddiv (totalJitter (totals_of stage)) (of_int (n - 1)))
                    (of_int 1000)
          else of_int 0)
    /\ (let example := aggregation_stage (D:=Q) v (of_int 60) classifier
                         two_flows in
        totalRxPackets (totals_of example) = 15
        /\ Qeq (totalJitter (totals_of example)) (25 # 100)
        /\ Qeq (jitterMs (report_of example)) ((25 # 100) / 14 * 1000))
    /\ strictly_between
         (dlit 17855 1000)
         (jitterMs (report_of (aggregation_stage (D:=float) v (of_int 60)
                                 classifier two_flows)))
         (dlit 17865 1000) = true.
Proof.
  intros D ops v simTime classifier stats Hzero stage n.
  assert (Hn : n = u64 (sum_over rxPackets stats)).
  { unfold n, stage. rewrite stage_totals. apply loop_totalRxPackets. }
  split; [|split; [|split; [|split; [|split]]]].
  - unfold stage. rewrite stage_totals. apply loop_totalJitter.
  - exact Hn.
  - intros Hwf. rewrite Hn. apply (packets_no_wrap stats Hwf).
  - unfold stage. rewrite stage_report, summary_jitterMs. fold stage. fold n.
    destruct (1 <? n) eqn:H1.
    + assert (H0 : (0 <? n) = true) by (apply Z.ltb_lt; apply Z.ltb_lt in H1; lia).
      rewrite H0. reflexivity.
    + destruct (0 <? n); [exact Hzero | reflexivity].
  - destruct v; vm_compute; repeat split; reflexivity.
  - destruct v; vm_compute; reflexivity.
Qed.

Lemma mean_jitter_excludes_short_flows_witness :
  zero_times_1000 float
  /\ totalJitter
       (totals_of (aggregation_stage (D:=float) MultiCellSim (of_int 60)
                     (fun id => {| sourceAddress := id;
                                   destinationAddress := 0 |})
                     two_flows))
     = spec_totalJitterSum two_flows.
Proof.
  split; [reflexivity|].
  exact (proj1 (mean_jitter_excludes_short_flows float Binary64.ops
                  MultiCellSim (of_int 60)
                  (fun id => {| sourceAddress := id; destinationAddress := 0 |})
                  two_flows eq_refl)).
Defined.

(** C2 (as stated, refuted): one flow on which nothing was received and five
    packets were lost.  Zero packets were received across all flows, yet the
    reported loss rate is 100 percent, not 0, in both programs and under both
    interpretations of [double]. *)
Lemma zero_received_loss_rate_is_not_zero :
  let stats (D : Type) (ops : DoubleOps D) : list (FlowId * FlowStats D) :=
    [(1, dead_flow)] in
  let classifier id := {| sourceAddress := id; destinationAddress := 0 |} in
  Forall (fun flow => rxPackets (snd flow) = 0) (stats float _)
  /\ (forall v,
        lossRatePct (report_of (aggregation_stage (D:=float) v (of_int 60)
                                  classifier (stats float _)))
        = of_int 100)
  /\ (forall v,
        lossRatePct (report_of (aggregation_stage (D:=float) v (of_int 60)
                                  classifier (stats float _)))
        <> of_int 0)
  /\ (forall v,
        ~ Qeq (lossRatePct (report_of (aggregation_stage (D:=Q) v (of_int 60)
                                         classifier (stats Q _))))
              (of_int 0)).
Proof.
  cbv zeta. split; [|split; [|split]].
  - repeat constructor.
  - intros v; destruct v; vm_compute; reflexivity.
  - intros v Heq.
    apply (f_equal (fun x => PrimFloat.eqb x (of_int 0))) in Heq.
    destruct v; vm_compute in Heq; discriminate Heq.
  - intros v Heq. destruct v; vm_compute in Heq; discriminate Heq.
Qed.

(** C2 (amended): when no flow received a packet (the empty set and all-zero
    records included), both programs report mean delay 0, mean jitter 0 and
    throughput 0; the loss rate is 0 when no packet was lost either and
    [totalLost * 100 / totalLost] otherwise, which is 100 in rational
    arithmetic.  The only divisions executed are
    one by [simTime * 1e6] per flow and, when packets were lost, the one by
    the lost-packet count; none has a zero denominator as soon as
    [simTime * 1e6] is not zero. *)
Theorem zero_received_report :
  forall (D : Type) (ops : DoubleOps D) (v : Variant) (simTime : D)
         (classifier : FlowId -> FiveTuple)
         (stats : list (FlowId * FlowStats D)),
    Forall (fun flow => rxPackets (snd flow) = 0) stats ->
    let stage := aggregation_stage v simTime classifier stats in
    let lost := totalLostPackets (totals_of stage) in
    totalRxPackets (totals_of stage) = 0
    /\ lost = u64 (sum_over lostPackets stats)
    /\ meanDelayMs (report_of stage) = of_int 0
    /\ jitterMs (report_of stage) = of_int 0
    /\ throughputMbps (report_of stage) = of_int 0
    /\ lossRatePct (report_of stage)
       = (if 0 <? lost
          then ddiv (dmul (of_int lost) (of_int 100)) (of_int lost)
          else of_int 0)
    /\ (sum_over lostPackets stats = 0 ->
        lossRatePct (report_of stage) = of_int 0)
    /\ (forall (T : Q) (flows : list (FlowId * FlowStats Q)),
          Forall (fun flow => rxPackets (snd flow) = 0) flows ->
          0 < totalLostPackets
                (totals_of (aggregation_stage v T classifier flows)) ->
          Qeq (lossRatePct
                 (report_of (aggregation_stage v T classifier flows)))
              100)
    /\ denominators stage
       = repeat (dmul simTime (of_int 1000000)) (List.length stats)
         ++ (if 0 <? lost then [of_int lost] else [])
    /\ (is_zero (dmul simTime (of_int 1000000)) = false ->
        conversion_nonzero D ->
        Forall (fun d => is_zero d = false) (denominators stage)).
Proof.
  intros D ops v simTime classifier stats Hzero stage lost.
  pose proof (nothing_received_total simTime classifier v stats Hzero) as Hn.
  fold stage in Hn.
  pose proof (nothing_received_loss_rate simTime classifier v stats Hzero)
    as [Hoff Hloss].
  fold stage in Hoff, Hloss. fold lost in Hoff, Hloss.
  assert (Hl : lost = u64 (sum_over lostPackets stats)).
  { unfold lost, stage. rewrite stage_totals. apply loop_totalLostPackets. }
  assert (Hden : denominators stage
                 = repeat (dmul simTime (of_int 1000000)) (List.length stats)
                   ++ (if 0 <? lost then [of_int lost] else [])).
  { assert (Htot : snd (value (MultiCell.loop simTime classifier stats
                                 MultiCell.initial)) = totals_of stage).
    { unfold stage. rewrite stage_totals. reflexivity. }
    unfold stage at 1. rewrite stage_is_multi, aggregate_denominators.
    rewrite (loop_denominators_nothing_received simTime classifier stats Hzero).
    rewrite summary_denominators, Htot. fold lost. rewrite Hn, Hoff.
    reflexivity. }
  split; [exact Hn|]. split; [exact Hl|].
  split; [|split; [|split; [|split; [|split; [|split; [|split]]]]]].
  - unfold stage. rewrite stage_report, summary_meanDelayMs.
    fold stage. rewrite Hn. reflexivity.
  - unfold stage. rewrite stage_report, summary_jitterMs.
    fold stage. rewrite Hn. reflexivity.
  - unfold stage. rewrite stage_report, summary_throughputMbps.
    fold stage. rewrite Hn. reflexivity.
  - exact Hloss.
  - intros Hnone. rewrite Hloss, Hl, Hnone. reflexivity.
  - intros T flows Hflows Hpos.
    destruct (nothing_received_loss_rate T classifier v flows Hflows)
      as [_ Hrate].
    rewrite Hrate. apply Z.ltb_lt in Hpos. rewrite Hpos.
    cbn [of_int dmul ddiv Exact.ops].
    apply Z.ltb_lt in Hpos.
    assert (Hne : ~ Qeq (inject_Z
                           (totalLostPackets
                              (totals_of
                                 (aggregation_stage v T classifier flows))))
                        0).
    { intros Heq. change 0%Q with (inject_Z 0) in Heq.
      apply (proj1 (inject_Z_injective _ _)) in Heq. lia. }
    field. exact Hne.
  - exact Hden.
  - intros HT Hconv. rewrite Hden. apply Forall_app. split.
    + apply Forall_forall. intros d Hd. apply repeat_spec in Hd.
      rewrite Hd. exact HT.
    + destruct (0 <? lost) eqn:Hpos; constructor; [|constructor].
      apply Hconv. apply Z.ltb_lt in Hpos.
      pose proof (u64_range (sum_over lostPackets stats)) as Hr.
      rewrite <- Hl in Hr. unfold is_u64 in Hr. lia.
Qed.

Lemma zero_received_report_witness :
  Forall (fun flow : FlowId * FlowStats float => rxPackets (snd flow) = 0)
         [(1, dead_flow)]
  /\ totalRxPackets
       (totals_of (aggregation_stage (D:=float) SingleCellSim (of_int 60)
                     (fun id => {| sourceAddress := id;
                                   destinationAddress := 0 |})
                     [(1, dead_flow)])) = 0.
Proof.
  assert (Hzero : Forall (fun flow : FlowId * FlowStats float =>
                            rxPackets (snd flow) = 0) [(1, dead_flow)]).
  { constructor; [reflexivity | constructor]. }
  split; [exact Hzero|].
  exact (proj1 (zero_received_report float Binary64.ops SingleCellSim
                  (of_int 60)
                  (fun id => {| sourceAddress := id; destinationAddress := 0 |})
                  [(1, dead_flow)] Hzero)).
Defined.

(** C3: in both programs the delay accumulator adds the cumulative delay of
    every flow, whatever its received-packet count; the received-packet total
    is the sum over all flows (reduced modulo 2^64, which within the C++
    types never happens); the reported mean delay is
    [totalDelay / totalRxPackets] (scaled to milliseconds) when
    [totalRxPackets > 0] and [0] otherwise. *)
Theorem mean_delay_over_all_flows :
  forall (D : Type) (ops : DoubleOps D) (v : Variant) (simTime : D)
         (classifier : FlowId -> FiveTuple)
         (stats : list (FlowId * FlowStats D)),
    let stage := aggregation_stage v simTime classifier stats in
    let n := totalRxPackets (totals_of stage) in
    totalDelay (totals_of stage) = spec_totalDelaySum stats
    /\ n = u64 (sum_over rxPackets stats)
    /\ (wf_stats stats -> n = sum_over rxPackets stats)
    /\ meanDelayMs (report_of stage)
       = (if 0 <? n
          then dmul (ddiv (totalDelay (totals_of stage)) (of_int n))
                    (of_int 1000)
          else of_int 0).
Proof.
  intros D ops v simTime classifier stats stage n.
  assert (Hn : n = u64 (sum_over rxPackets stats)).
  { unfold n, stage. rewrite stage_totals. apply loop_totalRxPackets. }
  split; [|split; [|split]].
  - unfold stage. rewrite stage_totals. apply loop_totalDelay.
  - exact Hn.
  - intros Hwf. rewrite Hn. apply (packets_no_wrap stats Hwf).
  - unfold stage. rewrite stage_report, summary_meanDelayMs. reflexivity.
Qed.

(** C4: for every 16-bit station count [N >= 1] and every area side, in any
    arithmetic that computes the grid dimensions exactly (binary64 and
    rational arithmetic both do): rows is [floor(sqrt N)] clamped to at least
    1, columns is [ceil(N / rows)], and station [i] is placed at
    [x = -A/2 + (i mod columns + 1) * (A / (columns + 1))],
    [y = -A/2 + (i / columns + 1) * (A / (rows + 1))], height 30.  For
    [N = 1] there is one row, one column and the single station is at the
    centre; for [N = 7], [A = 2000] there are 2 rows and 4 columns and
    station 6 is at [x = 200], [y = 333.33...]. *)
Theorem grid_placement :
  forall (D : Type) (ops : DoubleOps D),
    grid_exact D ->
    forall (areaSize : D) (N : Z),
      1 <= N < 2 ^ 16 ->
      let rows := Z.max 1 (Z.sqrt N) in
      let cols := (N + rows - 1) / rows in
      MultiCell.nRows (D:=D) N = rows
      /\ MultiCell.nCols (D:=D) N = cols
      /\ List.length (MultiCell.enb_positions areaSize N) = Z.to_nat N
      /\ (forall i, 0 <= i < N ->
            nth_error (MultiCell.enb_positions areaSize N) (Z.to_nat i)
            = Some {| vx := dadd (dopp (ddiv areaSize (of_int 2)))
                                 (dmul (of_int (i mod cols + 1))
                                       (ddiv areaSize (of_int (cols + 1))));
                      vy := dadd (dopp (ddiv areaSize (of_int 2)))
                                 (dmul (of_int (i / cols + 1))
                                       (ddiv areaSize (of_int (rows + 1))));
                      vz := of_int 30 |})
      /\ (N = 1 -> rows = 1 /\ cols = 1)
      /\ (forall A : Q,
            exists p, MultiCell.enb_positions A 1 = [p]
                      /\ Qeq (vx p) 0 /\ Qeq (vy p) 0 /\ Qeq (vz p) 30)
      /\ MultiCell.enb_positions (D:=float) (of_int 2000) 1
         = [{| vx := of_int 0; vy := of_int 0; vz := of_int 30 |}]
      /\ (MultiCell.nRows (D:=Q) 7 = 2 /\ MultiCell.nCols (D:=Q) 7 = 4
          /\ exists p, nth_error (MultiCell.enb_positions (D:=Q) (of_int 2000) 7) 6
                       = Some p
                       /\ Qeq (vx p) 200 /\ Qeq (vy p) (1000 # 3))
      /\ (MultiCell.nRows (D:=float) 7 = 2 /\ MultiCell.nCols (D:=float) 7 = 4
          /\ exists p, nth_error (MultiCell.enb_positions (D:=float) (of_int 2000) 7) 6
                       = Some p
                       /\ vx p = of_int 200
                       /\ strictly_between (dlit 33333 100) (vy p)
                                           (dlit 33334 100) = true).
Proof.
  intros D ops Hgrid areaSize N HN rows cols.
  assert (Hu : is_u16 N) by (unfold is_u16; lia).
  split; [|split; [|split; [|split; [|split; [|split; [|split; [|split]]]]]]].
  - apply (nRows_exact Hgrid N Hu).
  - apply (nCols_exact Hgrid N Hu).
  - apply enb_positions_length.
  - intros i Hi.
    rewrite (enb_positions_nth areaSize N i Hi).
    rewrite (enb_position_formula Hgrid areaSize N i HN Hi). reflexivity.
  - intros ->. split; reflexivity.
  - intros A. eexists. split; [reflexivity|].
    change (Z.of_nat 0) with 0.
    rewrite (enb_position_formula exact_grid_exact A 1 0 ltac:(lia) ltac:(lia)).
    cbn [vx vy vz].
    change (Z.max 1 (Z.sqrt 1)) with 1. change ((1 + 1 - 1) / 1) with 1.
    change (0 mod 1 + 1) with 1. change (0 / 1 + 1) with 1.
    change (1 + 1) with 2.
    cbn [of_int dadd dopp dmul ddiv Exact.ops].
    split; [|split]; unfold inject_Z; ring.
  - vm_compute. reflexivity.
  - split; [vm_compute; reflexivity|]. split; [vm_compute; reflexivity|].
    eexists. split; [reflexivity|]. split; vm_compute; reflexivity.
  - split; [vm_compute; reflexivity|]. split; [vm_compute; reflexivity|].
    eexists. split; [vm_compute; reflexivity|]. split; vm_compute; reflexivity.
Qed.

Lemma grid_placement_witness :
  grid_exact float
  /\ 1 <= 7 < 2 ^ 16
  /\ MultiCell.nRows (D:=float) 7 = Z.max 1 (Z.sqrt 7).
Proof.
  assert (Hrange : 1 <= 7 < 2 ^ 16) by (split; [discriminate | reflexivity]).
  split; [exact binary64_grid_exact|]. split; [exact Hrange|].
  exact (proj1 (grid_placement float Binary64.ops binary64_grid_exact
                  (of_int 2000) 7 Hrange)).
Defined.

(** C5 (as stated, refuted): in binary64, at the smallest positive area side
    [2^-1074] and two stations, [areaSize / 2] and the grid spacings round to
    zero: both stations are placed at [(0, 0, 30)], which is the same
    position twice and is not strictly inside the square. *)
Lemma smallest_side_collapses_the_grid :
  let areaSize := 0x1p-1074%float in
  let stations := MultiCell.enb_positions (D:=float) areaSize 2 in
  let centre := {| vx := 0%float; vy := 0%float; vz := 30%float |} in
  PrimFloat.ltb 0 areaSize = true
  /\ nth_error stations 0 = Some centre
  /\ nth_error stations 1 = Some centre
  /\ PrimFloat.ltb (PrimFloat.opp (PrimFloat.div areaSize 2)) (vx centre)
     = false.
Proof. vm_compute. repeat split; reflexivity. Qed.

(** C5 (amended): in binary64, for every 16-bit station count [N >= 1] and
    every area side [areaSize] from [2^-900] up to the largest double, the
    program places exactly [N] stations; with [a] the real number [areaSize]
    stands for, the [x] and [y] of every station are finite and strictly
    between [-a/2] and [a/2], and no two stations have the same [x] and the
    same [y]. *)
Theorem stations_inside_and_distinct :
  forall (N : Z) (areaSize : float),
    1 <= N < 2 ^ 16 ->
    PrimFloat.leb 0x1p-900 areaSize = true ->
    PrimFloat.leb areaSize 0x1.fffffffffffffp+1023 = true ->
    let stations := MultiCell.enb_positions (D:=float) areaSize N in
    exists a : Q,
      real_value areaSize = Some a /\ (0 < a)%Q
      /\ List.length stations = Z.to_nat N
      /\ Forall (fun p =>
                   exists x y : Q,
                     real_value (vx p) = Some x /\ real_value (vy p) = Some y
                     /\ (- (a / 2) < x /\ x < a / 2)%Q
                     /\ (- (a / 2) < y /\ y < a / 2)%Q) stations
      /\ (forall (i j : nat) (pi pj : Vector float) (xi yi xj yj : Q),
            nth_error stations i = Some pi ->
            nth_error stations j = Some pj ->
            i <> j ->
            real_value (vx pi) = Some xi -> real_value (vy pi) = Some yi ->
            real_value (vx pj) = Some xj -> real_value (vy pj) = Some yj ->
            ~ ((xi == xj)%Q /\ (yi == yj)%Q)).
Proof.
  intros N areaSize HN Hlo Hhi stations.
  destruct (area_normal areaSize Hlo Hhi) as [mA [eA [HA HeA]]].
  set (a := scaled (Zpos mA) eA).
  assert (Ha0 : (0 < a)%Q) by (apply scaled_pos; lia).
  pose proof (grid_shape binary64_grid_exact N HN) as Hs. cbv zeta in Hs.
  pose proof (station_coordinates N areaSize mA eA HN HA HeA) as Hpos.
  cbv zeta in Hpos. fold a in Hpos. fold stations in Hpos.
  set (rows := MultiCell.nRows (D:=float) N) in *.
  set (cols := MultiCell.nCols (D:=float) N) in *.
  destruct Hs as [Hr [Hc [HcN [Hrc _]]]].
  exists a. split; [apply (real_value_normal _ _ _ HA)|]. split; [exact Ha0|].
  split; [apply enb_positions_length|]. split.
  - apply Forall_forall. intros p Hin.
    apply In_nth_error in Hin. destruct Hin as [k Hk].
    destruct (Hpos k p Hk)
      as [[Hi [Hm [Hq _]]] [x [y [Hx [Hy [Hxlo [Hxhi [Hylo Hyhi]]]]]]]].
    exists x, y. split; [exact Hx|]. split; [exact Hy|]. split.
    + apply (offset_strictly_inside a (Z.of_nat k mod cols + 1) (cols + 1));
        try assumption; lia.
    + apply (offset_strictly_inside a (Z.of_nat k / cols + 1) (rows + 1));
        try assumption; lia.
  - intros i j pi pj xi yi xj yj Hi Hj Hne Hxi Hyi Hxj Hyj [Ex Ey].
    destruct (Hpos i pi Hi)
      as [[Hbi [Hmi [Hqi Hdi]]]
            [x1 [y1 [Hx1 [Hy1 [Hx1lo [Hx1hi [Hy1lo Hy1hi]]]]]]]].
    destruct (Hpos j pj Hj)
      as [[Hbj [Hmj [Hqj Hdj]]]
            [x2 [y2 [Hx2 [Hy2 [Hx2lo [Hx2hi [Hy2lo Hy2hi]]]]]]]].
    rewrite Hxi in Hx1. rewrite Hyi in Hy1.
    rewrite Hxj in Hx2. rewrite Hyj in Hy2.
    inversion Hx1; subst x1. inversion Hy1; subst y1.
    inversion Hx2; subst x2. inversion Hy2; subst y2.
    set (ci := Z.of_nat i mod cols) in *. set (cj := Z.of_nat j mod cols) in *.
    set (ri := Z.of_nat i / cols) in *. set (rj := Z.of_nat j / cols) in *.
    assert (Hcase : ci < cj \/ cj < ci \/ ri < rj \/ rj < ri).
    { destruct (Z.eq_dec ci cj) as [Ec|Nc]; [|lia].
      destruct (Z.eq_dec ri rj) as [Er|Nr]; [|lia].
      exfalso. apply Hne. apply Nat2Z.inj. lia. }
    destruct Hcase as [Hc1|[Hc1|[Hc1|Hc1]]].
    + pose proof (offsets_differ a (ci + 1) (cj + 1) (cols + 1) xi xj Ha0
                    ltac:(lia) ltac:(lia) ltac:(lia) ltac:(lia)
                    Hx1lo Hx1hi Hx2lo Hx2hi) as Hlt.
      rewrite Ex in Hlt. apply (Qlt_irrefl _ Hlt).
    + pose proof (offsets_differ a (cj + 1) (ci + 1) (cols + 1) xj xi Ha0
                    ltac:(lia) ltac:(lia) ltac:(lia) ltac:(lia)
                    Hx2lo Hx2hi Hx1lo Hx1hi) as Hlt.
      rewrite Ex in Hlt. apply (Qlt_irrefl _ Hlt).
    + pose proof (offsets_differ a (ri + 1) (rj + 1) (rows + 1) yi yj Ha0
                    ltac:(lia) ltac:(lia) ltac:(lia) ltac:(lia)
                    Hy1lo Hy1hi Hy2lo Hy2hi) as Hlt.
      rewrite Ey in Hlt. apply (Qlt_irrefl _ Hlt).
    + pose proof (offsets_differ a (rj + 1) (ri + 1) (rows + 1) yj yi Ha0
                    ltac:(lia) ltac:(lia) ltac:(lia) ltac:(lia)
                    Hy2lo Hy2hi Hy1lo Hy1hi) as Hlt.
      rewrite Ey in Hlt. apply (Qlt_irrefl _ Hlt).
Qed.

Lemma stations_inside_and_distinct_witness :
  1 <= 7 < 2 ^ 16
  /\ PrimFloat.leb 0x1p-900 (of_int 2000) = true
  /\ PrimFloat.leb (of_int 2000) 0x1.fffffffffffffp+1023 = true
  /\ exists a : Q,
       real_value (of_int 2000) = Some a
       /\ List.length (MultiCell.enb_positions (D:=float) (of_int 2000) 7)
          = Z.to_nat 7.
Proof.
  assert (Hrange : 1 <= 7 < 2 ^ 16) by (split; [discriminate | reflexivity]).
  assert (Hlo : PrimFloat.leb 0x1p-900 (of_int 2000) = true) by reflexivity.
  assert (Hhi : PrimFloat.leb (of_int 2000) 0x1.fffffffffffffp+1023 = true)
    by reflexivity.
  split; [exact Hrange|]. split; [exact Hlo|]. split; [exact Hhi|].
  pose proof (stations_inside_and_distinct 7 (of_int 2000) Hrange Hlo Hhi)
    as Hall.
  destruct Hall as [a [Ha [_ [Hlen _]]]].
  exists a. split; [exact Ha | exact Hlen].
Defined.

(** C6: in both programs the reported loss rate (percent) is
    [totalLost * 100 / (totalRxPackets + totalLost)] when the 64-bit sum
    [totalRxPackets + totalLost] is positive and [0] otherwise (with up to
    2^31 flows that sum is the number of offered packets, without
    wrap-around); on the two-flow example (15 received, 2 lost) it is
    200/17, about 11.76. *)
Theorem loss_rate_formula :
  forall (D : Type) (ops : DoubleOps D) (v : Variant) (simTime : D)
         (classifier : FlowId -> FiveTuple)
         (stats : list (FlowId * FlowStats D)),
    let stage := aggregation_stage v simTime classifier stats in
    let n := totalRxPackets (totals_of stage) in
    let lost := totalLostPackets (totals_of stage) in
    n = u64 (sum_over rxPackets stats)
    /\ lost = u64 (sum_over lostPackets stats)
    /\ lossRatePct (report_of stage)
       = (if 0 <? u64 (n + lost)
          then ddiv (dmul (of_int lost) (of_int 100)) (of_int (u64 (n + lost)))
          else of_int 0)
    /\ (wf_stats stats -> Z.of_nat (List.length stats) <= 2 ^ 31 ->
        u64 (n + lost)
        = sum_over rxPackets stats + sum_over lostPackets stats)
    /\ (let example := aggregation_stage (D:=Q) v (of_int 60) classifier
                         two_flows in
        totalRxPackets (totals_of example) = 15
        /\ totalLostPackets (totals_of example) = 2
        /\ Qeq (lossRatePct (report_of example)) (200 # 17))
    /\ strictly_between
         (dlit 11755 1000)
         (lossRatePct (report_of (aggregation_stage (D:=float) v (of_int 60)
                                    classifier two_flows)))
         (dlit 11765 1000) = true.
Proof.
  intros D ops v simTime classifier stats stage n lost.
  assert (Hn : n = u64 (sum_over rxPackets stats)).
  { unfold n, stage. rewrite stage_totals. apply loop_totalRxPackets. }
  assert (Hl : lost = u64 (sum_over lostPackets stats)).
  { unfold lost, stage. rewrite stage_totals. apply loop_totalLostPackets. }
  split; [|split; [|split; [|split; [|split]]]].
  - exact Hn.
  - exact Hl.
  - unfold stage. rewrite stage_report, summary_lossRatePct. reflexivity.
  - intros Hwf Hlen. rewrite Hn, Hl.
    apply (offered_no_wrap stats Hwf Hlen).
  - destruct v; vm_compute; repeat split; reflexivity.
  - destruct v; vm_compute; reflexivity.
Qed.

(** C7: in both programs, for every horizon [simTime], the reported
    throughput is [totalRxBytes * 8 / (simTime * 1e6)] when
    [totalRxPackets > 0], and [0] when [totalRxPackets = 0], whatever
    [totalRxBytes] is (e.g. a record with 100 bytes and no packet);
    [totalRxBytes] is the 64-bit sum of the received bytes. *)
Theorem throughput_formula :
  forall (D : Type) (ops : DoubleOps D) (v : Variant) (simTime : D)
         (classifier : FlowId -> FiveTuple)
         (stats : list (FlowId * FlowStats D)),
    let stage := aggregation_stage v simTime classifier stats in
    let n := totalRxPackets (totals_of stage) in
    let bytes := totalRxBytes (totals_of stage) in
    bytes = u64 (sum_over rxBytes stats)
    /\ (is_u64 (sum_over rxBytes stats) -> bytes = sum_over rxBytes stats)
    /\ throughputMbps (report_of stage)
       = (if 0 <? n
          then ddiv (dmul (of_int bytes) (of_int 8))
                    (dmul simTime (of_int 1000000))
          else of_int 0)
    /\ (let odd := aggregation_stage v simTime classifier
                     [(1, bytes_only_flow)] in
        totalRxBytes (totals_of odd) = 100
        /\ throughputMbps (report_of odd) = of_int 0).
Proof.
  intros D ops v simTime classifier stats stage n bytes.
  assert (Hb : bytes = u64 (sum_over rxBytes stats)).
  { unfold bytes, stage. rewrite stage_totals. apply loop_totalRxBytes. }
  split; [|split; [|split]].
  - exact Hb.
  - intros Hsmall. rewrite Hb. apply u64_small. exact Hsmall.
  - unfold stage. rewrite stage_report, summary_throughputMbps. reflexivity.
  - cbv zeta. split.
    + rewrite stage_totals. reflexivity.
    + rewrite stage_report, summary_throughputMbps, stage_totals. reflexivity.
Qed.

(** C8: in both programs the selector ["4g"] configures 50 resource blocks
    (downlink and uplink) and a 10 ms core delay, ["5g"] configures 100
    resource blocks and 2 ms, and the program then runs to its exit code 0;
    for every other selector no scenario is built and the program aborts with
    the diagnostic, whatever the engine: the engine is not run and no summary
    is printed (the start-up log line, when verbose, is all that precedes
    the abort). *)
Theorem technology_profile_selection :
  forall (D : Type) (ops : DoubleOps D),
    (forall (opts : SingleCell.Options (D:=D)),
        (SingleCell.tech opts = "4g"%string ->
         (exists sc, SingleCell.configure opts = Some sc
                     /\ DlBandwidth sc = 50 /\ UlBandwidth sc = 50
                     /\ p2pDelayMs sc = 10)
         /\ forall engine, exists log out,
               SingleCell.main engine opts = Exited log out 0)
        /\ (SingleCell.tech opts = "5g"%string ->
            (exists sc, SingleCell.configure opts = Some sc
                        /\ DlBandwidth sc = 100 /\ UlBandwidth sc = 100
                        /\ p2pDelayMs sc = 2)
            /\ forall engine, exists log out,
                  SingleCell.main engine opts = Exited log out 0)
        /\ (SingleCell.tech opts <> "4g"%string ->
            SingleCell.tech opts <> "5g"%string ->
            SingleCell.configure opts = None
            /\ forall engine,
                SingleCell.main engine opts
                = Aborted (when (SingleCell.verbose opts)
                                [LogStartSingle (SingleCell.nUes opts)
                                                (SingleCell.tech opts)])
                          abort_message))
    /\ (forall (posX posY : D -> D -> nat -> D)
               (opts : MultiCell.Options (D:=D)),
        (MultiCell.tech opts = "4g"%string ->
         (exists sc, MultiCell.configure posX posY opts = Some sc
                     /\ DlBandwidth sc = 50 /\ UlBandwidth sc = 50
                     /\ p2pDelayMs sc = 10)
         /\ forall engine, exists log out,
               MultiCell.main posX posY engine opts = Exited log out 0)
        /\ (MultiCell.tech opts = "5g"%string ->
            (exists sc, MultiCell.configure posX posY opts = Some sc
                        /\ DlBandwidth sc = 100 /\ UlBandwidth sc = 100
                        /\ p2pDelayMs sc = 2)
            /\ forall engine, exists log out,
                  MultiCell.main posX posY engine opts = Exited log out 0)
        /\ (MultiCell.tech opts <> "4g"%string ->
            MultiCell.tech opts <> "5g"%string ->
            MultiCell.configure posX posY opts = None
            /\ forall engine,
                MultiCell.main posX posY engine opts
                = Aborted (when (MultiCell.verbose opts)
                                [LogStartMulti (MultiCell.nUes opts)
                                               (MultiCell.nEnbs opts)
                                               (MultiCell.tech opts)
                                               (MultiCell.areaSize opts)])
                          abort_message)).
Proof.
  intros D ops. split.
  - intros opts. split; [|split].
    + intros Ht. split.
      * unfold SingleCell.configure. rewrite Ht. simpl.
        eexists. split; [reflexivity|]. cbn. rewrite Ht. repeat split.
      * intros engine. unfold SingleCell.main, SingleCell.configure.
        rewrite Ht. simpl. eexists. eexists. reflexivity.
    + intros Ht. split.
      * unfold SingleCell.configure. rewrite Ht. simpl.
        eexists. split; [reflexivity|]. cbn. rewrite Ht. repeat split.
      * intros engine. unfold SingleCell.main, SingleCell.configure.
        rewrite Ht. simpl. eexists. eexists. reflexivity.
    + intros H4 H5.
      assert (Hnone : SingleCell.configure opts = None).
      { unfold SingleCell.configure.
        rewrite (proj2 (bandwidth_single_none _) (conj H4 H5)). reflexivity. }
      split; [exact Hnone|]. intros engine.
      unfold SingleCell.main. rewrite Hnone. reflexivity.
  - intros posX posY opts. split; [|split].
    + intros Ht. split.
      * unfold MultiCell.configure. rewrite Ht. simpl.
        eexists. split; [reflexivity|]. cbn. rewrite Ht. repeat split.
      * intros engine. unfold MultiCell.main, MultiCell.configure.
        rewrite Ht. simpl. eexists. eexists. reflexivity.
    + intros Ht. split.
      * unfold MultiCell.configure. rewrite Ht. simpl.
        eexists. split; [reflexivity|]. cbn. rewrite Ht. repeat split.
      * intros engine. unfold MultiCell.main, MultiCell.configure.
        rewrite Ht. simpl. eexists. eexists. reflexivity.
    + intros H4 H5.
      assert (Hnone : MultiCell.configure posX posY opts = None).
      { unfold MultiCell.configure.
        rewrite (proj2 (bandwidth_multi_none _) (conj H4 H5)). reflexivity. }
      split; [exact Hnone|]. intros engine.
      unfold MultiCell.main. rewrite Hnone. reflexivity.
Qed.

Lemma technology_profile_selection_witness :
  let opts : SingleCell.Options (D:=float) :=
    {| SingleCell.nUes := 50; SingleCell.simTime := of_int 30;
       SingleCell.tech := "3g"; SingleCell.verbose := true |} in
  SingleCell.tech opts <> "4g"%string
  /\ SingleCell.tech opts <> "5g"%string
  /\ SingleCell.configure opts = None.
Proof.
  cbv zeta.
  assert (H4 : "3g"%string <> "4g"%string) by discriminate.
  assert (H5 : "3g"%string <> "5g"%string) by discriminate.
  split; [exact H4|]. split; [exact H5|].
  exact (proj1 (proj2 (proj2 (proj1 (technology_profile_selection
                                       float Binary64.ops)
                                    {| SingleCell.nUes := 50;
                                       SingleCell.simTime := of_int 30;
                                       SingleCell.tech := "3g";
                                       SingleCell.verbose := true |}))
                      H4 H5)).
Defined.

(** C9 (as stated, refuted): the maximum packet count is the finite number
    [0xFFFFFFFF].  In the multi-cell program with a horizon of [10^8] s,
    packet number 4294967295 is due at about 85899346.4 s, before the stop
    time, and the count no longer allows it (with the times read as the
    doubles the program holds, and as the decimal literals). *)
Lemma packet_count_ends_a_long_flow :
  let options (D : Type) (ops : DoubleOps D) : MultiCell.Options (D:=D) :=
    {| MultiCell.nUes := 100; MultiCell.nEnbs := 4;
       MultiCell.simTime := of_int 100000000; MultiCell.tech := "4g";
       MultiCell.verbose := true; MultiCell.areaSize := of_int 2000 |} in
  (exists (c : UdpClient float) (start interval stop : Q) (k : Z),
      nth_error (MultiCell.udp_clients (options float Binary64.ops)) 0 = Some c
      /\ real_value (client_start c) = Some start
      /\ real_value (Interval c) = Some interval
      /\ real_value (client_stop c) = Some stop
      /\ MaxPackets c = 4294967295
      /\ 0 <= k
      /\ (send_instant start interval k < stop)%Q
      /\ MaxPackets c <= k)
  /\ (exists (c : UdpClient Q) (k : Z),
        nth_error (MultiCell.udp_clients (options Q Exact.ops)) 0 = Some c
        /\ MaxPackets c = 4294967295
        /\ 0 <= k
        /\ (send_instant (client_start c) (Interval c) k < client_stop c)%Q
        /\ MaxPackets c <= k).
Proof.
  cbv zeta. split.
  - eexists. eexists. eexists. eexists. exists 4294967295.
    split; [reflexivity|].
    split; [vm_compute; reflexivity|].
    split; [vm_compute; reflexivity|].
    split; [vm_compute; reflexivity|].
    split; [reflexivity|]. split; [discriminate|].
    split; [vm_compute; reflexivity|]. vm_compute. discriminate.
  - eexists. exists 4294967295.
    split; [reflexivity|]. split; [reflexivity|]. split; [discriminate|].
    split; [vm_compute; reflexivity|]. vm_compute. discriminate.
Qed.

(** C9 (amended): in both programs the clients are one per terminal (client
    [i] on terminal [i], [nUes] of them), each with packet size 200 bytes,
    interval 0.1 s (single cell) or 0.02 s (multi cell), maximum packet count
    4294967295, start time 0.5 s and stop time [simTime]; these are the
    clients of the scenario handed to the engine, whose stop time is
    [simTime] too.  For a horizon of at most 429496730 s (single cell) or
    85899346 s (multi cell), every send instant before the stop time is
    within the packet count, with the times read as the doubles the program
    holds or as the decimal literals. *)
Theorem cbr_flow_per_terminal :
  forall (D : Type) (ops : DoubleOps D),
    (forall (opts : SingleCell.Options (D:=D)),
        List.length (SingleCell.udp_clients opts)
        = Z.to_nat (SingleCell.nUes opts)
        /\ (forall i, 0 <= i < SingleCell.nUes opts ->
              nth_error (SingleCell.udp_clients opts) (Z.to_nat i)
              = Some {| client_node := i;
                        client_port := 1234;
                        MaxPackets := 4294967295;
                        Interval := dlit 1 10;
                        PacketSize := 200;
                        client_start := dlit 5 10;
                        client_stop := SingleCell.simTime opts |})
        /\ (forall rbs,
              clientApps (SingleCell.scenario opts rbs)
              = SingleCell.udp_clients opts
              /\ stopTime (SingleCell.scenario opts rbs)
                 = SingleCell.simTime opts))
    /\ (forall (posX posY : D -> D -> nat -> D)
               (opts : MultiCell.Options (D:=D)),
        List.length (MultiCell.udp_clients opts)
        = Z.to_nat (MultiCell.nUes opts)
        /\ (forall i, 0 <= i < MultiCell.nUes opts ->
              nth_error (MultiCell.udp_clients opts) (Z.to_nat i)
              = Some {| client_node := i;
                        client_port := 1234;
                        MaxPackets := 4294967295;
                        Interval := dlit 2 100;
                        PacketSize := 200;
                        client_start := dlit 5 10;
                        client_stop := MultiCell.simTime opts |})
        /\ (forall rbs,
              clientApps (MultiCell.scenario posX posY opts rbs)
              = MultiCell.udp_clients opts
              /\ stopTime (MultiCell.scenario posX posY opts rbs)
                 = MultiCell.simTime opts))
    /\ (Qeq (dlit 1 10) (100 # 1000) /\ Qeq (dlit 2 100) (20 # 1000)
        /\ Qeq (dlit 5 10) (500 # 1000))
    /\ ((dlit 1 10 : float) = 0x1.999999999999ap-4%float
        /\ (dlit 2 100 : float) = 0x1.47ae147ae147bp-6%float
        /\ (dlit 5 10 : float) = 0x1p-1%float)
    /\ (forall (opts : SingleCell.Options (D:=float)) (c : UdpClient float)
               (horizon : Q),
          In c (SingleCell.udp_clients opts) ->
          real_value (SingleCell.simTime opts) = Some horizon ->
          (horizon <= 429496730)%Q ->
          exists start interval stop : Q,
            real_value (client_start c) = Some start
            /\ real_value (Interval c) = Some interval
            /\ real_value (client_stop c) = Some stop
            /\ sends_until_stop (MaxPackets c) start interval stop)
    /\ (forall (opts : MultiCell.Options (D:=float)) (c : UdpClient float)
               (horizon : Q),
          In c (MultiCell.udp_clients opts) ->
          real_value (MultiCell.simTime opts) = Some horizon ->
          (horizon <= 85899346)%Q ->
          exists start interval stop : Q,
            real_value (client_start c) = Some start
            /\ real_value (Interval c) = Some interval
            /\ real_value (client_stop c) = Some stop
            /\ sends_until_stop (MaxPackets c) start interval stop)
    /\ (forall (opts : SingleCell.Options (D:=Q)) (c : UdpClient Q),
          In c (SingleCell.udp_clients opts) ->
          (SingleCell.simTime opts <= 429496730)%Q ->
          sends_until_stop (MaxPackets c) (client_start c) (Interval c)
                           (client_stop c))
    /\ (forall (opts : MultiCell.Options (D:=Q)) (c : UdpClient Q),
          In c (MultiCell.udp_clients opts) ->
          (MultiCell.simTime opts <= 85899346)%Q ->
          sends_until_stop (MaxPackets c) (client_start c) (Interval c)
                           (client_stop c)).
Proof.
  intros D ops. split; [|split; [|split; [|split; [|split; [|split; [|split]]]]]].
  - intros opts. split; [|split].
    + unfold SingleCell.udp_clients. rewrite length_map. apply upto_length.
    + intros i Hi. unfold SingleCell.udp_clients.
      rewrite nth_error_map, (upto_nth _ i Hi). reflexivity.
    + intros rbs. split; reflexivity.
  - intros posX posY opts. split; [|split].
    + unfold MultiCell.udp_clients. rewrite length_map. apply upto_length.
    + intros i Hi. unfold MultiCell.udp_clients.
      rewrite nth_error_map, (upto_nth _ i Hi). reflexivity.
    + intros rbs. split; reflexivity.
  - repeat split.
  - repeat split.
  - intros opts c horizon Hin Hsim Hle.
    unfold SingleCell.udp_clients in Hin. apply in_map_iff in Hin.
    destruct Hin as [i [<- _]]. cbn [client_start Interval client_stop MaxPackets].
    eexists. eexists. exists horizon.
    split; [vm_compute; reflexivity|]. split; [vm_compute; reflexivity|].
    split; [exact Hsim|].
    apply cap_not_reached; [vm_compute; discriminate|].
    apply (Qle_trans _ _ _ Hle). vm_compute. discriminate.
  - intros opts c horizon Hin Hsim Hle.
    unfold MultiCell.udp_clients in Hin. apply in_map_iff in Hin.
    destruct Hin as [i [<- _]]. cbn [client_start Interval client_stop MaxPackets].
    eexists. eexists. exists horizon.
    split; [vm_compute; reflexivity|]. split; [vm_compute; reflexivity|].
    split; [exact Hsim|].
    apply cap_not_reached; [vm_compute; discriminate|].
    apply (Qle_trans _ _ _ Hle). vm_compute. discriminate.
  - intros opts c Hin Hle.
    unfold SingleCell.udp_clients in Hin. apply in_map_iff in Hin.
    destruct Hin as [i [<- _]].
    cbn [client_start Interval client_stop MaxPackets].
    apply cap_not_reached; [vm_compute; discriminate|].
    apply (Qle_trans _ _ _ Hle). vm_compute. discriminate.
  - intros opts c Hin Hle.
    unfold MultiCell.udp_clients in Hin. apply in_map_iff in Hin.
    destruct Hin as [i [<- _]].
    cbn [client_start Interval client_stop MaxPackets].
    apply cap_not_reached; [vm_compute; discriminate|].
    apply (Qle_trans _ _ _ Hle). vm_compute. discriminate.
Qed.

Lemma cbr_flow_per_terminal_witness :
  let opts : MultiCell.Options (D:=float) :=
    {| MultiCell.nUes := 100; MultiCell.nEnbs := 4;
       MultiCell.simTime := of_int 60; MultiCell.tech := "4g";
       MultiCell.verbose := true; MultiCell.areaSize := of_int 2000 |} in
  0 <= 99 < MultiCell.nUes opts
  /\ nth_error (MultiCell.udp_clients opts) (Z.to_nat 99)
     = Some {| client_node := 99;
               client_port := 1234;
               MaxPackets := 4294967295;
               Interval := dlit 2 100;
               PacketSize := 200;
               client_start := dlit 5 10;
               client_stop := of_int 60 |}.
Proof.
  cbv zeta.
  assert (Hi : 0 <= 99 < 100) by (split; [discriminate | reflexivity]).
  split; [exact Hi|].
  exact (proj1 (proj2 (proj1 (proj2 (cbr_flow_per_terminal float Binary64.ops))
                         (fun _ _ _ => of_int 0) (fun _ _ _ => of_int 0)
                         {| MultiCell.nUes := 100; MultiCell.nEnbs := 4;
                            MultiCell.simTime := of_int 60;
                            MultiCell.tech := "4g";
                            MultiCell.verbose := true;
                            MultiCell.areaSize := of_int 2000 |}))
               99 Hi).
Defined.

(** C10: the result-processing stages of the single-cell and of the
    multi-cell program are the same function.  On equal flow records, equal
    horizon and equal classifier they yield the same per-flow lines, the same
    accumulators, the same report and execute the same divisions. *)
Theorem aggregation_stages_coincide :
  forall (D : Type) (ops : DoubleOps D) (simTime : D)
         (classifier : FlowId -> FiveTuple)
         (stats : list (FlowId * FlowStats D)),
    SingleCell.aggregate simTime classifier stats
    = MultiCell.aggregate simTime classifier stats.
Proof.
  intros D ops simTime classifier stats.
  unfold SingleCell.aggregate, MultiCell.aggregate, bind.
  rewrite loop_agree.
  rewrite (summary_agree simTime).
  reflexivity.
Qed.

(** * Further properties of the programs *)

(** ** The result-processing loop *)

Section LoopFacts.
Context {D : Type} `{DoubleOps D}.
Local Open Scope double_scope.

Variable simTime : D.
Variable classifier : FlowId -> FiveTuple.

Lemma loop_step flow rest acc :
  MultiCell.loop simTime classifier (flow :: rest) acc
  = let step := MultiCell.flow_body simTime classifier acc flow in
    let done := MultiCell.loop simTime classifier rest (snd (value step)) in
    ((fst (value step) :: fst (value done), snd (value done)),
     denominators step ++ denominators done).
Proof.
  cbn [MultiCell.loop]. unfold bind, ret, value, denominators. cbn [fst snd].
  rewrite app_nil_r. reflexivity.
Qed.

Lemma loop_lines stats : forall acc,
  fst (value (MultiCell.loop simTime classifier stats acc))
  = map (fun flow => fst (value (MultiCell.flow_body simTime classifier
                                   MultiCell.initial flow)))
        stats.
Proof.
  induction stats as [|flow rest IH]; intros acc.
  - reflexivity.
  - rewrite loop_step. cbn [value fst snd map]. f_equal. apply IH.
Qed.

End LoopFacts.

(** The lines logged by either stage. *)
Lemma stage_lines {D} `{DoubleOps D} v (simTime : D) classifier
      (stats : list (FlowId * FlowStats D)) :
  fst (fst (value (aggregation_stage v simTime classifier stats)))
  = map (fun flow =>
           {| line_id := fst flow;
              line_tuple := classifier (fst flow);
              line_throughputMbps :=
                ddiv (dmul (of_int (rxBytes (snd flow))) (of_int 8))
                     (dmul simTime (of_int 1000000));
              line_meanDelayMs :=
                if 0 <? rxPackets (snd flow)
                then dmul (ddiv (delaySum (snd flow))
                                (of_int (rxPackets (snd flow))))
                          (of_int 1000)
                else of_int 0;
              line_rxPackets := rxPackets (snd flow);
              line_lostPackets := lostPackets (snd flow) |})
        stats.
Proof.
  rewrite stage_is_multi.
  unfold MultiCell.aggregate, bind, ret, value. cbn [fst snd].
  change (fst (fst (MultiCell.loop simTime classifier stats MultiCell.initial)))
    with (fst (value (MultiCell.loop simTime classifier stats
                        MultiCell.initial))).
  rewrite loop_lines. apply map_ext. intros flow.
  unfold MultiCell.flow_body, bind, ret, divide, value. cbn [fst snd].
  destruct (0 <? rxPackets (snd flow)); reflexivity.
Qed.

(** X1: in both programs the result-processing loop logs one line per flow
    record, in the order of the records.  The line of a flow carries its id,
    the classifier's five-tuple for that id, its received and lost packet
    counts, the throughput [rxBytes * 8 / (simTime * 1e6)] (computed whatever
    the packet count, unlike the total) and the mean delay
    [(delaySum / rxPackets) * 1000], or [0] when the flow received nothing.
    A line depends on its own record only. *)
Theorem per_flow_lines :
  forall (D : Type) (ops : DoubleOps D) (v : Variant) (simTime : D)
         (classifier : FlowId -> FiveTuple)
         (stats : list (FlowId * FlowStats D)),
    fst (fst (value (aggregation_stage v simTime classifier stats)))
    = map (fun flow =>
             {| line_id := fst flow;
                line_tuple := classifier (fst flow);
                line_throughputMbps :=
                  ddiv (dmul (of_int (rxBytes (snd flow))) (of_int 8))
                       (dmul simTime (of_int 1000000));
                line_meanDelayMs :=
                  if 0 <? rxPackets (snd flow)
                  then dmul (ddiv (delaySum (snd flow))
                                  (of_int (rxPackets (snd flow))))
                            (of_int 1000)
                  else of_int 0;
                line_rxPackets := rxPackets (snd flow);
                line_lostPackets := lostPackets (snd flow) |})
          stats.
Proof.
  intros D ops v simTime classifier stats. apply stage_lines.
Qed.

(** ** Sums over the flow records *)

Lemma sum_over_perm {D} (field : FlowStats D -> Z)
      (stats stats' : list (FlowId * FlowStats D)) :
  Permutation stats stats' -> sum_over field stats = sum_over field stats'.
Proof.
  induction 1 as [|flow l l' _ IH|f1 f2 l|l1 l2 l3 _ IH1 _ IH2];
    cbn [sum_over fold_right] in *.
  - reflexivity.
  - fold (sum_over field l). fold (sum_over field l'). rewrite IH. reflexivity.
  - lia.
  - congruence.
Qed.

(** The three counters after either stage. *)
Lemma stage_counters {D} `{DoubleOps D} v (simTime : D) classifier stats :
  let stage := aggregation_stage v simTime classifier stats in
  totalRxPackets (totals_of stage) = u64 (sum_over rxPackets stats)
  /\ totalRxBytes (totals_of stage) = u64 (sum_over rxBytes stats)
  /\ totalLostPackets (totals_of stage) = u64 (sum_over lostPackets stats).
Proof.
  cbv zeta. rewrite stage_totals.
  rewrite loop_totalRxPackets, loop_totalRxBytes, loop_totalLostPackets.
  repeat split.
Qed.

Section QSums.
Variable A : Type.
Variable g : A -> Q.

Lemma fold_add_Qeq (l : list A) : forall a a' : Q,
  (a == a')%Q ->
  (fold_left (fun s x => s + g x) l a == fold_left (fun s x => s + g x) l a')%Q.
Proof.
  induction l as [|x l IH]; intros a a' Ha; cbn [fold_left].
  - exact Ha.
  - apply IH. rewrite Ha. reflexivity.
Qed.

Lemma fold_add_perm (l l' : list A) :
  Permutation l l' ->
  forall a a' : Q, (a == a')%Q ->
  (fold_left (fun s x => s + g x) l a
   == fold_left (fun s x => s + g x) l' a')%Q.
Proof.
  induction 1 as [|x l l' _ IH|x y l|l1 l2 l3 _ IH1 _ IH2]; intros a a' Ha;
    cbn [fold_left].
  - exact Ha.
  - apply IH. rewrite Ha. reflexivity.
  - apply fold_add_Qeq. rewrite Ha. ring.
  - rewrite (IH1 a a' Ha). apply IH2. reflexivity.
Qed.

Lemma fold_add_sum (l : list A) : forall a : Q,
  (fold_left (fun s x => s + g x) l a
   == a + fold_right Qplus 0 (map g l))%Q.
Proof.
  induction l as [|x l IH]; intros a; cbn [fold_left fold_right map].
  - ring.
  - rewrite IH. ring.
Qed.

End QSums.

Lemma filter_perm {A} (f : A -> bool) (l l' : list A) :
  Permutation l l' -> Permutation (filter f l) (filter f l').
Proof.
  induction 1 as [|x l l' _ IH|x y l|l1 l2 l3 _ IH1 _ IH2]; cbn [filter].
  - constructor.
  - destruct (f x); [constructor|]; exact IH.
  - destruct (f x), (f y); try apply Permutation_refl. apply perm_swap.
  - eapply Permutation_trans; eassumption.
Qed.

(** The delay and jitter accumulators in rational arithmetic. *)
Lemma exact_totalDelay v (T : Q) classifier
      (stats : list (FlowId * FlowStats Q)) :
  (totalDelay (totals_of (aggregation_stage v T classifier stats))
   == fold_right Qplus 0 (map (fun flow => delaySum (snd flow)) stats))%Q.
Proof.
  rewrite stage_totals, loop_totalDelay.
  cbn [totalDelay MultiCell.initial dadd of_int Exact.ops].
  rewrite (fold_add_sum _ (fun flow : FlowId * FlowStats Q =>
                             delaySum (snd flow))).
  unfold inject_Z. ring.
Qed.

Lemma exact_delay_perm v (T : Q) classifier
      (stats stats' : list (FlowId * FlowStats Q)) :
  Permutation stats stats' ->
  (totalDelay (totals_of (aggregation_stage v T classifier stats))
   == totalDelay (totals_of (aggregation_stage v T classifier stats')))%Q.
Proof.
  intros Hp. rewrite !stage_totals, !loop_totalDelay.
  cbn [dadd Exact.ops].
  apply (fold_add_perm _ (fun flow : FlowId * FlowStats Q =>
                            delaySum (snd flow))).
  - exact Hp.
  - reflexivity.
Qed.

Lemma exact_jitter_perm v (T : Q) classifier
      (stats stats' : list (FlowId * FlowStats Q)) :
  Permutation stats stats' ->
  (totalJitter (totals_of (aggregation_stage v T classifier stats))
   == totalJitter (totals_of (aggregation_stage v T classifier stats')))%Q.
Proof.
  intros Hp. rewrite !stage_totals, !loop_totalJitter.
  cbn [dadd Exact.ops].
  apply (fold_add_perm _ (fun flow : FlowId * FlowStats Q =>
                            jitterSum (snd flow))).
  - apply filter_perm. exact Hp.
  - reflexivity.
Qed.

Lemma sum_over_app {D} (field : FlowStats D -> Z)
      (s1 s2 : list (FlowId * FlowStats D)) :
  sum_over field (s1 ++ s2) = sum_over field s1 + sum_over field s2.
Proof.
  induction s1 as [|flow rest IH]; cbn [app sum_over fold_right].
  - reflexivity.
  - fold (sum_over field (rest ++ s2)). fold (sum_over field rest).
    rewrite IH. lia.
Qed.

Lemma sum_over_insert {D} (field : FlowStats D -> Z)
      (s1 s2 : list (FlowId * FlowStats D)) (flow : FlowId * FlowStats D) :
  field (snd flow) = 0 ->
  sum_over field (s1 ++ flow :: s2) = sum_over field (s1 ++ s2).
Proof.
  intros Hz. rewrite !sum_over_app. cbn [sum_over fold_right].
  fold (sum_over field s2). lia.
Qed.

Lemma qsum_insert (l1 l2 : list Q) (x : Q) :
  (fold_right Qplus 0 (l1 ++ x :: l2) == x + fold_right Qplus 0 (l1 ++ l2))%Q.
Proof.
  induction l1 as [|y rest IH]; cbn [app fold_right].
  - reflexivity.
  - rewrite IH. ring.
Qed.

(** X3: the order in which the flow records are visited changes neither the
    packet and byte totals nor the reported throughput and loss rate (they
    are computed from the totals), in any arithmetic.  In rational arithmetic
    the mean delay and the mean jitter do not change either.  In binary64
    they can: three one-packet flows with delay sums 0.1 s, 0.2 s and 0.3 s
    give a larger mean delay visited in this order than in the reverse
    order. *)
Theorem order_of_flows :
  forall (D : Type) (ops : DoubleOps D) (v : Variant) (simTime : D)
         (classifier : FlowId -> FiveTuple)
         (stats stats' : list (FlowId * FlowStats D)),
    Permutation stats stats' ->
    let a := aggregation_stage v simTime classifier stats in
    let b := aggregation_stage v simTime classifier stats' in
    totalRxPackets (totals_of a) = totalRxPackets (totals_of b)
    /\ totalRxBytes (totals_of a) = totalRxBytes (totals_of b)
    /\ totalLostPackets (totals_of a) = totalLostPackets (totals_of b)
    /\ throughputMbps (report_of a) = throughputMbps (report_of b)
    /\ lossRatePct (report_of a) = lossRatePct (report_of b)
    /\ (forall (T : Q) (flows flows' : list (FlowId * FlowStats Q)),
          Permutation flows flows' ->
          Qeq (meanDelayMs (report_of (aggregation_stage v T classifier flows)))
              (meanDelayMs (report_of (aggregation_stage v T classifier flows')))
          /\ Qeq (jitterMs (report_of (aggregation_stage v T classifier flows)))
                 (jitterMs (report_of (aggregation_stage v T classifier flows'))))
    /\ (let flow (delay : float) : FlowStats float :=
          {| rxPackets := 1; rxBytes := 200; lostPackets := 0;
             delaySum := delay; jitterSum := of_int 0 |} in
        let up := [(1, flow (dlit 1 10)); (2, flow (dlit 2 10));
                   (3, flow (dlit 3 10))] in
        let down := [(1, flow (dlit 3 10)); (2, flow (dlit 2 10));
                     (3, flow (dlit 1 10))] in
        PrimFloat.ltb
          (meanDelayMs (report_of (aggregation_stage v (of_int 60) classifier
                                     down)))
          (meanDelayMs (report_of (aggregation_stage v (of_int 60) classifier
                                     up))) = true).
Proof.
  intros D ops v simTime classifier stats stats' Hp a b.
  destruct (stage_counters v simTime classifier stats) as [Ha1 [Ha2 Ha3]].
  destruct (stage_counters v simTime classifier stats') as [Hb1 [Hb2 Hb3]].
  fold a in Ha1, Ha2, Ha3. fold b in Hb1, Hb2, Hb3.
  assert (H1 : totalRxPackets (totals_of a) = totalRxPackets (totals_of b)).
  { rewrite Ha1, Hb1, (sum_over_perm rxPackets _ _ Hp). reflexivity. }
  assert (H2 : totalRxBytes (totals_of a) = totalRxBytes (totals_of b)).
  { rewrite Ha2, Hb2, (sum_over_perm rxBytes _ _ Hp). reflexivity. }
  assert (H3 : totalLostPackets (totals_of a) = totalLostPackets (totals_of b)).
  { rewrite Ha3, Hb3, (sum_over_perm lostPackets _ _ Hp). reflexivity. }
  split; [exact H1|]. split; [exact H2|]. split; [exact H3|].
  split; [|split; [|split]].
  - unfold a, b. rewrite !stage_report, !summary_throughputMbps.
    fold a. fold b. rewrite H1, H2. reflexivity.
  - unfold a, b. rewrite !stage_report, !summary_lossRatePct.
    fold a. fold b. rewrite H1, H3. reflexivity.
  - intros T flows flows' Hq.
    destruct (stage_counters v T classifier flows) as [Hn _].
    destruct (stage_counters v T classifier flows') as [Hn' _].
    cbv zeta in Hn, Hn'.
    assert (Hsame :
      totalRxPackets (totals_of (aggregation_stage v T classifier flows))
      = totalRxPackets (totals_of (aggregation_stage v T classifier flows'))).
    { rewrite Hn, Hn', (sum_over_perm rxPackets _ _ Hq). reflexivity. }
    pose proof (exact_delay_perm v T classifier flows flows' Hq) as Hd.
    pose proof (exact_jitter_perm v T classifier flows flows' Hq) as Hj.
    rewrite !stage_report, !summary_meanDelayMs, !summary_jitterMs.
    rewrite <- Hsame.
    cbn [dmul ddiv of_int Exact.ops].
    split.
    + destruct (0 <? _); [|reflexivity]. rewrite Hd. reflexivity.
    + destruct (0 <? _); [|reflexivity].
      destruct (1 <? _); [|reflexivity]. rewrite Hj. reflexivity.
  - destruct v; vm_compute; reflexivity.
Qed.

Lemma order_of_flows_witness :
  Permutation (two_flows (D:=float)) [(2, flowB); (1, flowA)]
  /\ totalRxPackets
       (totals_of (aggregation_stage (D:=float) MultiCellSim (of_int 60)
                     (fun id => {| sourceAddress := id;
                                   destinationAddress := 0 |})
                     two_flows))
     = totalRxPackets
         (totals_of (aggregation_stage (D:=float) MultiCellSim (of_int 60)
                       (fun id => {| sourceAddress := id;
                                     destinationAddress := 0 |})
                       [(2, flowB); (1, flowA)])).
Proof.
  assert (Hp : Permutation (two_flows (D:=float)) [(2, flowB); (1, flowA)]).
  { apply perm_swap. }
  split; [exact Hp|].
  exact (proj1 (order_of_flows float Binary64.ops MultiCellSim (of_int 60)
                  (fun id => {| sourceAddress := id; destinationAddress := 0 |})
                  two_flows [(2, flowB); (1, flowA)] Hp)).
Defined.

(** X4: in rational arithmetic, a flow record with no received packet, no
    byte, no lost packet and a zero delay sum (its jitter sum may be
    anything: it is skipped) leaves the report unchanged wherever it sits
    among the records: same mean delay and jitter, same throughput and loss
    rate, same counters. *)
Theorem idle_flows_are_neutral :
  forall (v : Variant) (T : Q) (classifier : FlowId -> FiveTuple)
         (before after : list (FlowId * FlowStats Q))
         (idle : FlowId * FlowStats Q),
    rxPackets (snd idle) = 0 ->
    rxBytes (snd idle) = 0 ->
    lostPackets (snd idle) = 0 ->
    Qeq (delaySum (snd idle)) 0 ->
    let with_idle :=
      report_of (aggregation_stage v T classifier (before ++ idle :: after)) in
    let without :=
      report_of (aggregation_stage v T classifier (before ++ after)) in
    Qeq (meanDelayMs with_idle) (meanDelayMs without)
    /\ Qeq (jitterMs with_idle) (jitterMs without)
    /\ throughputMbps with_idle = throughputMbps without
    /\ lossRatePct with_idle = lossRatePct without
    /\ receivedPackets with_idle = receivedPackets without
    /\ lostPacketsTotal with_idle = lostPacketsTotal without.
Proof.
  intros v T classifier before after idle Hrx Hbytes Hlost Hdelay
         with_idle without.
  set (a := aggregation_stage v T classifier (before ++ idle :: after)).
  set (b := aggregation_stage v T classifier (before ++ after)).
  destruct (stage_counters v T classifier (before ++ idle :: after))
    as [Ha1 [Ha2 Ha3]].
  destruct (stage_counters v T classifier (before ++ after))
    as [Hb1 [Hb2 Hb3]].
  fold a in Ha1, Ha2, Ha3. fold b in Hb1, Hb2, Hb3.
  rewrite (sum_over_insert rxPackets _ _ _ Hrx) in Ha1.
  rewrite (sum_over_insert rxBytes _ _ _ Hbytes) in Ha2.
  rewrite (sum_over_insert lostPackets _ _ _ Hlost) in Ha3.
  rewrite <- Hb1 in Ha1. rewrite <- Hb2 in Ha2. rewrite <- Hb3 in Ha3.
  assert (Hd : (totalDelay (totals_of a) == totalDelay (totals_of b))%Q).
  { unfold a, b. rewrite !exact_totalDelay, !map_app. cbn [map].
    rewrite qsum_insert, Hdelay. ring. }
  assert (Hj : totalJitter (totals_of a) = totalJitter (totals_of b)).
  { unfold a, b. rewrite !stage_totals, !loop_totalJitter.
    rewrite !filter_app. cbn [filter]. rewrite Hrx. reflexivity. }
  unfold with_idle, without. fold a. fold b.
  unfold a at 1 2 3 4 5 6. unfold b at 1 2 3 4 5 6.
  rewrite !stage_report. fold a. fold b.
  rewrite !summary_meanDelayMs, !summary_jitterMs, !summary_throughputMbps,
          !summary_lossRatePct.
  unfold MultiCell.summary, bind, ret, value.
  cbn [fst snd receivedPackets lostPacketsTotal].
  rewrite Ha1, Ha2, Ha3, Hj.
  cbn [dmul ddiv of_int Exact.ops].
  split; [|split; [|repeat split]].
  - destruct (0 <? _); [|reflexivity]. rewrite Hd. reflexivity.
  - reflexivity.
Qed.

Lemma idle_flows_are_neutral_witness :
  let classifier id := {| sourceAddress := id; destinationAddress := 0 |} in
  let idle : FlowId * FlowStats Q :=
    (3, {| rxPackets := 0; rxBytes := 0; lostPackets := 0;
           delaySum := 0%Q; jitterSum := 7%Q |}) in
  rxPackets (snd idle) = 0 /\ rxBytes (snd idle) = 0
  /\ lostPackets (snd idle) = 0 /\ Qeq (delaySum (snd idle)) 0
  /\ Qeq (meanDelayMs
            (report_of (aggregation_stage MultiCellSim 60%Q classifier
                          ([(1, flowA)] ++ idle :: [(2, flowB)]))))
         (meanDelayMs
            (report_of (aggregation_stage MultiCellSim 60%Q classifier
                          ([(1, flowA)] ++ [(2, flowB)])))).
Proof.
  cbv zeta.
  split; [reflexivity|]. split; [reflexivity|]. split; [reflexivity|].
  split; [reflexivity|].
  exact (proj1 (idle_flows_are_neutral MultiCellSim 60%Q
                  (fun id => {| sourceAddress := id; destinationAddress := 0 |})
                  [(1, flowA)] [(2, flowB)]
                  (3, {| rxPackets := 0; rxBytes := 0; lostPackets := 0;
                         delaySum := 0%Q; jitterSum := 7%Q |})
                  eq_refl eq_refl eq_refl (Qeq_refl 0))).
Defined.

(** X5: in binary64, whatever was received: if [simTime * 1e6] is not zero
    and the received-packet counts are within 64 bits, no division executed
    by the result processing of either program has a zero denominator.  The
    same holds in rational arithmetic for a non-zero [simTime].  The first
    division executed is the one by [simTime * 1e6] in the throughput of the
    first flow, so a zero horizon divides by zero as soon as there is one
    flow. *)
Theorem divisions_are_never_by_zero :
  forall (v : Variant) (simTime : float) (classifier : FlowId -> FiveTuple)
         (stats : list (FlowId * FlowStats float)),
    PrimFloat.eqb (PrimFloat.mul simTime (of_int 1000000)) 0 = false ->
    Forall (fun flow => is_u64 (rxPackets (snd flow))) stats ->
    Forall (fun d => PrimFloat.eqb d 0 = false)
           (denominators (aggregation_stage v simTime classifier stats))
    /\ (forall (T : Q) (flows : list (FlowId * FlowStats Q)),
          ~ Qeq T 0 ->
          Forall (fun flow => is_u64 (rxPackets (snd flow))) flows ->
          Forall (fun d => ~ Qeq d 0)
                 (denominators (aggregation_stage v T classifier flows)))
    /\ (forall (D : Type) (ops : DoubleOps D) (T : D)
               (flow : FlowId * FlowStats D) (rest : list (FlowId * FlowStats D)),
          exists others,
            denominators (aggregation_stage v T classifier (flow :: rest))
            = dmul T (of_int 1000000) :: others).
Proof.
  intros v simTime classifier stats HT Hwf. split; [|split].
  - apply (no_division_by_zero simTime classifier v stats
             binary64_conversion_nonzero HT Hwf).
  - intros T flows HTq Hflows.
    assert (Hz : is_zero (dmul T (of_int 1000000)) = false).
    { cbn [is_zero dmul of_int Exact.ops]. unfold Exact.zerob.
      apply Z.eqb_neq. intros Hnum. apply HTq.
      unfold Qeq. cbn [Qnum Qden Qmult inject_Z] in *. lia. }
    pose proof (no_division_by_zero T classifier v flows
                  exact_conversion_nonzero Hz Hflows) as Hall.
    eapply Forall_impl; [|exact Hall].
    intros d Hd Heq. cbn [is_zero Exact.ops] in Hd. unfold Exact.zerob in Hd.
    apply Z.eqb_neq in Hd. apply Hd. unfold Qeq in Heq. cbn in Heq. lia.
  - intros D ops T flow rest.
    rewrite stage_is_multi, aggregate_denominators.
    rewrite loop_denominators. cbn [flat_map app].
    eexists. reflexivity.
Qed.

Lemma divisions_are_never_by_zero_witness :
  PrimFloat.eqb (PrimFloat.mul (of_int 60) (of_int 1000000)) 0 = false
  /\ Forall (fun flow : FlowId * FlowStats float => is_u64 (rxPackets (snd flow)))
            two_flows
  /\ Forall (fun d => PrimFloat.eqb d 0 = false)
            (denominators
               (aggregation_stage (D:=float) SingleCellSim (of_int 60)
                  (fun id => {| sourceAddress := id; destinationAddress := 0 |})
                  two_flows)).
Proof.
  assert (HT : PrimFloat.eqb (PrimFloat.mul (of_int 60) (of_int 1000000)) 0
               = false) by reflexivity.
  assert (Hwf : Forall (fun flow : FlowId * FlowStats float =>
                          is_u64 (rxPackets (snd flow))) two_flows).
  { repeat constructor; cbn; lia. }
  split; [exact HT|]. split; [exact Hwf|].
  exact (proj1 (divisions_are_never_by_zero SingleCellSim (of_int 60)
                  (fun id => {| sourceAddress := id; destinationAddress := 0 |})
                  two_flows HT Hwf)).
Defined.

(** ** Shape of the eNodeB grid *)

(** X9: for every station count [1 <= N < 2^16], in binary64 as in rational
    arithmetic, the grid dimensions computed by the program satisfy
    [1 <= rows <= 255] and [rows <= cols <= rows + 2] (the grid is nearly
    square, and both dimensions are far from the 16-bit limit), [cols <= N],
    [N <= rows * cols] (there is a cell for every station),
    [(cols - 1) * rows < N] (one column fewer would not do) and
    [(rows - 1) * cols < N] (the last row holds a station). *)
Theorem grid_is_nearly_square :
  forall N : Z,
    1 <= N < 2 ^ 16 ->
    (let rows := MultiCell.nRows (D:=float) N in
     let cols := MultiCell.nCols (D:=float) N in
     1 <= rows <= 255 /\ rows <= cols <= rows + 2 /\ cols <= N
     /\ N <= rows * cols /\ (cols - 1) * rows < N /\ (rows - 1) * cols < N)
    /\ (let rows := MultiCell.nRows (D:=Q) N in
        let cols := MultiCell.nCols (D:=Q) N in
        1 <= rows <= 255 /\ rows <= cols <= rows + 2 /\ cols <= N
        /\ N <= rows * cols /\ (cols - 1) * rows < N /\ (rows - 1) * cols < N).
Proof.
  intros N HN. split.
  - apply (grid_shape binary64_grid_exact N HN).
  - apply (grid_shape exact_grid_exact N HN).
Qed.

Lemma grid_is_nearly_square_witness :
  1 <= 7 < 2 ^ 16
  /\ (let rows := MultiCell.nRows (D:=float) 7 in
      let cols := MultiCell.nCols (D:=float) 7 in
      1 <= rows <= 255 /\ rows <= cols <= rows + 2 /\ cols <= 7
      /\ 7 <= rows * cols /\ (cols - 1) * rows < 7 /\ (rows - 1) * cols < 7).
Proof.
  assert (Hrange : 1 <= 7 < 2 ^ 16) by (split; [discriminate | reflexivity]).
  split; [exact Hrange|].
  exact (proj1 (grid_is_nearly_square 7 Hrange)).
Defined.

(** X10: for every 16-bit station count, zero included, in binary64: the
    row count is at least 1; the column count is 0 only for [N = 0], and
    then the placement loop does not run, so [i / nCols] and [i % nCols] are
    never evaluated with [nCols = 0]; the denominators [nCols + 1] and
    [nRows + 1] of the spacings are not zero as doubles; the loop places
    exactly [N] stations, none for [N = 0]. *)
Theorem placement_never_divides_by_zero :
  forall N : Z,
    is_u16 N ->
    let rows := MultiCell.nRows (D:=float) N in
    let cols := MultiCell.nCols (D:=float) N in
    1 <= rows
    /\ (cols = 0 <-> N = 0)
    /\ (forall i, In i (upto N) -> 1 <= cols)
    /\ PrimFloat.eqb (of_int (cols + 1)) 0 = false
    /\ PrimFloat.eqb (of_int (rows + 1)) 0 = false
    /\ (forall areaSize : float,
          List.length (MultiCell.enb_positions areaSize N) = Z.to_nat N)
    /\ (forall areaSize : float, MultiCell.enb_positions areaSize 0 = []).
Proof.
  intros N HN rows cols.
  assert (Hdim : 1 <= rows <= 255 /\ 0 <= cols <= 257 /\ (cols = 0 <-> N = 0)).
  { destruct (Z.eq_dec N 0) as [->|Hne].
    - destruct (grid_zero binary64_grid_exact) as [Hr Hc].
      unfold rows, cols. rewrite Hr, Hc. lia.
    - unfold is_u16 in HN.
      pose proof (grid_shape binary64_grid_exact N ltac:(lia)) as Hs.
      cbv zeta in Hs. fold rows in Hs. fold cols in Hs. lia. }
  destruct Hdim as [Hr [Hc Hz]].
  split; [lia|]. split; [exact Hz|]. split; [|split; [|split; [|split]]].
  - intros i Hi. apply upto_In in Hi. lia.
  - apply binary64_conversion_nonzero. lia.
  - apply binary64_conversion_nonzero. lia.
  - intros areaSize. apply enb_positions_length.
  - intros areaSize. reflexivity.
Qed.

Lemma placement_never_divides_by_zero_witness :
  is_u16 0 /\ 1 <= MultiCell.nRows (D:=float) 0.
Proof.
  assert (Hu : is_u16 0) by (split; [discriminate | reflexivity]).
  split; [exact Hu|].
  exact (proj1 (placement_never_divides_by_zero 0 Hu)).
Defined.

(** ** Geometry of the grid: margins and separation *)

(** The rounding error of a coordinate against one grid step. *)
Lemma offset_margin (a : Q) (k m : Z) (q : Q) :
  (0 < a)%Q -> 1 <= k -> k < m -> m <= 2 ^ 16 ->
  (- (a / 2) + inject_Z k * (a / inject_Z m) - eta * a <= q)%Q ->
  (q <= - (a / 2) + inject_Z k * (a / inject_Z m) + eta * a)%Q ->
  let step := (a / inject_Z m)%Q in
  (0 < step)%Q
  /\ (- (a / 2) + (1 - (1 # 8589934592)) * step <= q)%Q
  /\ (q <= a / 2 - (1 - (1 # 8589934592)) * step)%Q.
Proof.
  intros Ha Hk Hkm Hm Hlo Hhi step.
  destruct (ratio_facts a k m Ha Hk Hkm Hm)
    as [Hal0 [Hal16 [Hal2 [Hbe1 Hbe2]]]].
  fold step in Hal0, Hal16, Hal2, Hbe1, Hbe2, Hlo, Hhi.
  set (beta := (inject_Z k * step)%Q) in *.
  unfold Qdiv in Hlo, Hhi |- *.
  change (/ 2)%Q with (1 # 2)%Q in Hlo, Hhi |- *.
  unfold eta in *. clearbody step beta. split; [lra|]. split; lra.
Qed.

Lemma offset_gap (a : Q) (k1 k2 m : Z) (q1 q2 : Q) :
  (0 < a)%Q -> 1 <= k1 -> k1 < k2 -> k2 < m -> m <= 2 ^ 16 ->
  (- (a / 2) + inject_Z k1 * (a / inject_Z m) - eta * a <= q1)%Q ->
  (q1 <= - (a / 2) + inject_Z k1 * (a / inject_Z m) + eta * a)%Q ->
  (- (a / 2) + inject_Z k2 * (a / inject_Z m) - eta * a <= q2)%Q ->
  (q2 <= - (a / 2) + inject_Z k2 * (a / inject_Z m) + eta * a)%Q ->
  ((1 - (1 # 4294967296)) * (a / inject_Z m) <= q2 - q1)%Q.
Proof.
  intros Ha Hk1 Hk12 Hk2 Hm H1lo H1hi H2lo H2hi.
  destruct (ratio_facts a k1 m Ha Hk1 ltac:(lia) Hm)
    as [Hal0 [Hal16 _]].
  set (alpha := (a / inject_Z m)%Q) in *.
  assert (Hgap : (inject_Z k1 * alpha + alpha <= inject_Z k2 * alpha)%Q).
  { assert (Hle : (inject_Z (k1 + 1) * alpha <= inject_Z k2 * alpha)%Q).
    { apply Qmult_le_compat_r; [|lra]. rewrite <- Zle_Qle. lia. }
    rewrite inject_Z_plus in Hle. change (inject_Z 1) with 1%Q in Hle.
    assert (E : ((inject_Z k1 + 1) * alpha == inject_Z k1 * alpha + alpha)%Q)
      by ring.
    rewrite E in Hle. exact Hle. }
  remember (inject_Z k1 * alpha)%Q as b1. remember (inject_Z k2 * alpha)%Q as b2.
  unfold eta in *. clearbody alpha. lra.
Qed.

(** X11: in binary64, for [1 <= N < 2^16] and an area side [areaSize] from
    [2^-900] up to the largest double, with [a] the real number [areaSize]
    stands for: the spacings [dx = a / (cols + 1)] and [dy = a / (rows + 1)]
    are positive, every station is at least [(1 - 2^-33) * dx] away from the
    left and right edges of the square and at least [(1 - 2^-33) * dy] away
    from the lower and upper edges, and two different stations are at least
    [(1 - 2^-32) * dx] apart in [x] or at least [(1 - 2^-32) * dy] apart in
    [y]. *)
Theorem stations_keep_margins :
  forall (N : Z) (areaSize : float),
    1 <= N < 2 ^ 16 ->
    PrimFloat.leb 0x1p-900 areaSize = true ->
    PrimFloat.leb areaSize 0x1.fffffffffffffp+1023 = true ->
    let rows := MultiCell.nRows (D:=float) N in
    let cols := MultiCell.nCols (D:=float) N in
    let stations := MultiCell.enb_positions (D:=float) areaSize N in
    exists a : Q,
      real_value areaSize = Some a
      /\ let dx := (a / inject_Z (cols + 1))%Q in
         let dy := (a / inject_Z (rows + 1))%Q in
         let near := (1 - (1 # 8589934592))%Q in
         let apart := (1 - (1 # 4294967296))%Q in
         (0 < dx)%Q /\ (0 < dy)%Q
         /\ Forall (fun p =>
                      exists x y : Q,
                        real_value (vx p) = Some x
                        /\ real_value (vy p) = Some y
                        /\ (- (a / 2) + near * dx <= x
                            /\ x <= a / 2 - near * dx)%Q
                        /\ (- (a / 2) + near * dy <= y
                            /\ y <= a / 2 - near * dy)%Q) stations
         /\ (forall (i j : nat) (pi pj : Vector float) (xi yi xj yj : Q),
               nth_error stations i = Some pi ->
               nth_error stations j = Some pj ->
               i <> j ->
               real_value (vx pi) = Some xi -> real_value (vy pi) = Some yi ->
               real_value (vx pj) = Some xj -> real_value (vy pj) = Some yj ->
               (apart * dx <= xi - xj)%Q \/ (apart * dx <= xj - xi)%Q
               \/ (apart * dy <= yi - yj)%Q \/ (apart * dy <= yj - yi)%Q).
Proof.
  intros N areaSize HN Hlo Hhi rows cols stations.
  destruct (area_normal areaSize Hlo Hhi) as [mA [eA [HA HeA]]].
  set (a := scaled (Zpos mA) eA).
  assert (Ha0 : (0 < a)%Q) by (apply scaled_pos; lia).
  pose proof (grid_shape binary64_grid_exact N HN) as Hs. cbv zeta in Hs.
  fold rows in Hs. fold cols in Hs.
  pose proof (station_coordinates N areaSize mA eA HN HA HeA) as Hpos.
  cbv zeta in Hpos. fold a in Hpos. fold stations in Hpos.
  fold rows in Hpos. fold cols in Hpos.
  destruct Hs as [Hr [Hc [HcN [Hrc _]]]].
  exists a. split; [apply (real_value_normal _ _ _ HA)|].
  cbv zeta.
  assert (HC : (0 < inject_Z (cols + 1))%Q).
  { change 0%Q with (inject_Z 0). rewrite <- Zlt_Qlt. lia. }
  assert (HR : (0 < inject_Z (rows + 1))%Q).
  { change 0%Q with (inject_Z 0). rewrite <- Zlt_Qlt. lia. }
  split; [apply Qlt_shift_div_l; [exact HC | lra]|].
  split; [apply Qlt_shift_div_l; [exact HR | lra]|].
  split.
  - apply Forall_forall. intros p Hin.
    apply In_nth_error in Hin. destruct Hin as [k Hk].
    destruct (Hpos k p Hk)
      as [[Hi [Hm [Hq _]]] [x [y [Hx [Hy [Hxlo [Hxhi [Hylo Hyhi]]]]]]]].
    exists x, y. split; [exact Hx|]. split; [exact Hy|]. split.
    + apply (offset_margin a (Z.of_nat k mod cols + 1) (cols + 1));
        try assumption; lia.
    + apply (offset_margin a (Z.of_nat k / cols + 1) (rows + 1));
        try assumption; lia.
  - intros i j pi pj xi yi xj yj Hi Hj Hne Hxi Hyi Hxj Hyj.
    destruct (Hpos i pi Hi)
      as [[Hbi [Hmi [Hqi Hdi]]]
            [x1 [y1 [Hx1 [Hy1 [Hx1lo [Hx1hi [Hy1lo Hy1hi]]]]]]]].
    destruct (Hpos j pj Hj)
      as [[Hbj [Hmj [Hqj Hdj]]]
            [x2 [y2 [Hx2 [Hy2 [Hx2lo [Hx2hi [Hy2lo Hy2hi]]]]]]]].
    rewrite Hxi in Hx1. rewrite Hyi in Hy1.
    rewrite Hxj in Hx2. rewrite Hyj in Hy2.
    inversion Hx1; subst x1. inversion Hy1; subst y1.
    inversion Hx2; subst x2. inversion Hy2; subst y2.
    set (ci := Z.of_nat i mod cols) in *. set (cj := Z.of_nat j mod cols) in *.
    set (ri := Z.of_nat i / cols) in *. set (rj := Z.of_nat j / cols) in *.
    assert (Hcase : ci < cj \/ cj < ci \/ ri < rj \/ rj < ri).
    { destruct (Z.eq_dec ci cj) as [Ec|Nc]; [|lia].
      destruct (Z.eq_dec ri rj) as [Er|Nr]; [|lia].
      exfalso. apply Hne. apply Nat2Z.inj. lia. }
    destruct Hcase as [Hc1|[Hc1|[Hc1|Hc1]]].
    + right. left.
      apply (offset_gap a (ci + 1) (cj + 1) (cols + 1) xi xj Ha0);
        try assumption; lia.
    + left.
      apply (offset_gap a (cj + 1) (ci + 1) (cols + 1) xj xi Ha0);
        try assumption; lia.
    + right. right. right.
      apply (offset_gap a (ri + 1) (rj + 1) (rows + 1) yi yj Ha0);
        try assumption; lia.
    + right. right. left.
      apply (offset_gap a (rj + 1) (ri + 1) (rows + 1) yj yi Ha0);
        try assumption; lia.
Qed.

Lemma stations_keep_margins_witness :
  1 <= 7 < 2 ^ 16
  /\ PrimFloat.leb 0x1p-900 (of_int 2000) = true
  /\ PrimFloat.leb (of_int 2000) 0x1.fffffffffffffp+1023 = true
  /\ exists a : Q, real_value (of_int 2000) = Some a
                   /\ (0 < a / inject_Z (MultiCell.nCols (D:=float) 7 + 1))%Q.
Proof.
  assert (Hrange : 1 <= 7 < 2 ^ 16) by (split; [discriminate | reflexivity]).
  assert (Hlo : PrimFloat.leb 0x1p-900 (of_int 2000) = true) by reflexivity.
  assert (Hhi : PrimFloat.leb (of_int 2000) 0x1.fffffffffffffp+1023 = true)
    by reflexivity.
  split; [exact Hrange|]. split; [exact Hlo|]. split; [exact Hhi|].
  pose proof (stations_keep_margins 7 (of_int 2000) Hrange Hlo Hhi) as Hall.
  destruct Hall as [a [Ha [Hdx _]]].
  exists a. split; [exact Ha | exact Hdx].
Defined.

(** Distinctness test, read as a property of the list. *)
Lemma pairwise_distinctb_spec (stations : list (Vector float)) :
  pairwise_distinctb stations = true ->
  forall (i j : nat) (pi pj : Vector float),
    nth_error stations i = Some pi ->
    nth_error stations j = Some pj ->
    (i < j)%nat ->
    same_placeb pi pj = false.
Proof.
  induction stations as [|p rest IH]; intros Hd i j pi pj Hi Hj Hlt.
  - destruct i; discriminate Hi.
  - cbn [pairwise_distinctb] in Hd. apply andb_true_iff in Hd.
    destruct Hd as [Hhead Hrest].
    destruct j as [|j]; [lia|]. cbn [nth_error] in Hj.
    destruct i as [|i].
    + cbn [nth_error] in Hi. inversion Hi; subst pi.
      rewrite forallb_forall in Hhead.
      apply nth_error_In in Hj. specialize (Hhead pj Hj).
      apply negb_true_iff in Hhead. exact Hhead.
    + cbn [nth_error] in Hi. apply (IH Hrest i j pi pj Hi Hj). lia.
Qed.

(** X13: in binary64, for the area sides 2000 m (the default) and 20000 m
    (the usage example in the header) and every station count from 1 to 120,
    the program places exactly [N] stations, each with [x] and [y] strictly
    between [-areaSize/2] and [areaSize/2], and no two of them at the same
    [x] and [y]. *)
Theorem documented_grids_in_binary64 :
  forall (N : Z) (areaSize : float),
    1 <= N <= 120 ->
    areaSize = of_int 2000 \/ areaSize = of_int 20000 ->
    let half := PrimFloat.div areaSize 2 in
    let stations := MultiCell.enb_positions (D:=float) areaSize N in
    List.length stations = Z.to_nat N
    /\ Forall (fun p => PrimFloat.ltb (PrimFloat.opp half) (vx p) = true
                        /\ PrimFloat.ltb (vx p) half = true
                        /\ PrimFloat.ltb (PrimFloat.opp half) (vy p) = true
                        /\ PrimFloat.ltb (vy p) half = true) stations
    /\ (forall (i j : nat) (pi pj : Vector float),
          nth_error stations i = Some pi ->
          nth_error stations j = Some pj ->
          (i < j)%nat ->
          PrimFloat.eqb (vx pi) (vx pj) && PrimFloat.eqb (vy pi) (vy pj)
          = false).
Proof.
  intros N areaSize HN Hside half stations.
  assert (Hok : stations_okb areaSize N = true).
  { destruct (binary64_stations_ok N HN) as [H1 H2].
    destruct Hside as [-> | ->]; assumption. }
  unfold stations_okb in Hok. fold stations in Hok.
  apply andb_true_iff in Hok. destruct Hok as [Hok Hdist].
  apply andb_true_iff in Hok. destruct Hok as [Hlen Hin].
  split; [|split].
  - apply Z.eqb_eq in Hlen. lia.
  - apply Forall_forall. intros p Hp.
    rewrite forallb_forall in Hin. specialize (Hin p Hp).
    unfold inside_squareb, strictly_between in Hin. fold half in Hin.
    apply andb_true_iff in Hin. destruct Hin as [Hx Hy].
    apply andb_true_iff in Hx. apply andb_true_iff in Hy.
    tauto.
  - intros i j pi pj Hi Hj Hlt.
    apply (pairwise_distinctb_spec stations Hdist i j pi pj Hi Hj Hlt).
Qed.

Lemma documented_grids_in_binary64_witness :
  1 <= 7 <= 120
  /\ ((of_int 2000 : float) = of_int 2000 \/ (of_int 2000 : float) = of_int 20000)
  /\ List.length (MultiCell.enb_positions (D:=float) (of_int 2000) 7)
     = Z.to_nat 7.
Proof.
  assert (Hrange : 1 <= 7 <= 120) by (split; discriminate).
  assert (Hside : (of_int 2000 : float) = of_int 2000
                  \/ (of_int 2000 : float) = of_int 20000)
    by (left; reflexivity).
  split; [exact Hrange|]. split; [exact Hside|].
  exact (proj1 (documented_grids_in_binary64 7 (of_int 2000) Hrange Hside)).
Defined.

(** ** Terminals, server and log *)

(** X14: in the multi-cell program the rectangle the terminals walk in is
    the square from [-A/2] to [A/2] of the station grid; the scenario lists
    one initial position per terminal, as many as there are clients; in
    rational arithmetic, for [A >= 0] and uniform variables that return
    values between their [Min] and [Max], every initial position lies in
    that rectangle, at height 1.5. *)
Theorem terminals_start_inside_their_walk :
  forall (posX posY : Q -> Q -> nat -> Q) (opts : MultiCell.Options (D:=Q))
         (rbs : Z),
    (forall lo hi k, (lo <= hi)%Q ->
                     (lo <= posX lo hi k /\ posX lo hi k <= hi)%Q) ->
    (forall lo hi k, (lo <= hi)%Q ->
                     (lo <= posY lo hi k /\ posY lo hi k <= hi)%Q) ->
    (0 <= MultiCell.areaSize opts)%Q ->
    let half := (MultiCell.areaSize opts / 2)%Q in
    let sc := MultiCell.scenario posX posY opts rbs in
    walkBounds Q sc
    = {| xMin := (- half)%Q; xMax := half; yMin := (- half)%Q; yMax := half |}
    /\ ueCount sc = MultiCell.nUes opts
    /\ exists positions,
         uePlacement Q sc = Listed Q positions
         /\ List.length positions = Z.to_nat (MultiCell.nUes opts)
         /\ List.length positions = List.length (clientApps sc)
         /\ Forall (fun p => (- half <= vx p /\ vx p <= half)%Q
                             /\ (- half <= vy p /\ vy p <= half)%Q
                             /\ Qeq (vz p) (15 # 10))
                   positions.
Proof.
  intros posX posY opts rbs HX HY HA half sc.
  assert (Hhalf : (- half <= half)%Q).
  { unfold half, Qdiv. change (/ 2)%Q with (1 # 2)%Q. lra. }
  split; [reflexivity|]. split; [reflexivity|].
  eexists. split; [reflexivity|].
  cbn [clientApps sc MultiCell.scenario].
  unfold MultiCell.ue_positions, MultiCell.udp_clients.
  rewrite !length_map, length_seq, upto_length.
  split; [reflexivity|]. split; [reflexivity|].
  apply Forall_forall. intros p Hp. apply in_map_iff in Hp.
  destruct Hp as [k [<- _]]. cbn [vx vy vz dopp ddiv of_int Exact.ops].
  fold half.
  split; [apply (HX _ _ k Hhalf)|]. split; [apply (HY _ _ k Hhalf)|].
  reflexivity.
Qed.

Lemma terminals_start_inside_their_walk_witness :
  let opts : MultiCell.Options (D:=Q) :=
    {| MultiCell.nUes := 100; MultiCell.nEnbs := 4;
       MultiCell.simTime := 60%Q; MultiCell.tech := "4g";
       MultiCell.verbose := true; MultiCell.areaSize := 2000%Q |} in
  (forall lo hi (k : nat), (lo <= hi)%Q -> (lo <= lo /\ lo <= hi)%Q)
  /\ (0 <= MultiCell.areaSize opts)%Q
  /\ ueCount (MultiCell.scenario (fun lo _ _ => lo) (fun lo _ _ => lo) opts 50)
     = 100.
Proof.
  cbv zeta.
  assert (Hdraw : forall lo hi (k : nat),
             (lo <= hi)%Q -> (lo <= lo /\ lo <= hi)%Q).
  { intros lo hi k Hle. split; [apply Qle_refl | exact Hle]. }
  assert (Harea : (0 <= 2000)%Q) by discriminate.
  split; [exact Hdraw|]. split; [exact Harea|].
  exact (proj1 (proj2 (terminals_start_inside_their_walk
                         (fun lo _ _ => lo) (fun lo _ _ => lo)
                         {| MultiCell.nUes := 100; MultiCell.nEnbs := 4;
                            MultiCell.simTime := 60%Q; MultiCell.tech := "4g";
                            MultiCell.verbose := true;
                            MultiCell.areaSize := 2000%Q |}
                         50 Hdraw Hdraw Harea))).
Defined.

(** X15: in both programs every client sends to the port the server listens
    on, the server starts at 0.1 s, before the clients at 0.5 s, and server,
    clients and simulation all stop at [simTime]. *)
Theorem server_outlasts_the_clients :
  forall (D : Type) (ops : DoubleOps D),
    (forall (opts : SingleCell.Options (D:=D)) (rbs : Z),
        let sc := SingleCell.scenario opts rbs in
        serverStart D sc = dlit 1 10
        /\ serverStop D sc = SingleCell.simTime opts
        /\ stopTime sc = SingleCell.simTime opts
        /\ Forall (fun c => client_port c = serverPort D sc
                            /\ client_start c = dlit 5 10
                            /\ client_stop c = serverStop D sc)
                  (clientApps sc))
    /\ (forall (posX posY : D -> D -> nat -> D)
               (opts : MultiCell.Options (D:=D)) (rbs : Z),
        let sc := MultiCell.scenario posX posY opts rbs in
        serverStart D sc = dlit 1 10
        /\ serverStop D sc = MultiCell.simTime opts
        /\ stopTime sc = MultiCell.simTime opts
        /\ Forall (fun c => client_port c = serverPort D sc
                            /\ client_start c = dlit 5 10
                            /\ client_stop c = serverStop D sc)
                  (clientApps sc))
    /\ PrimFloat.ltb (dlit 1 10) (dlit 5 10) = true
    /\ ((dlit 1 10 : Q) < dlit 5 10)%Q.
Proof.
  intros D ops. split; [|split; [|split]].
  - intros opts rbs sc.
    split; [reflexivity|]. split; [reflexivity|]. split; [reflexivity|].
    apply Forall_forall. intros c Hc.
    cbn [clientApps sc SingleCell.scenario] in Hc.
    unfold SingleCell.udp_clients in Hc. apply in_map_iff in Hc.
    destruct Hc as [i [<- _]]. repeat split.
  - intros posX posY opts rbs sc.
    split; [reflexivity|]. split; [reflexivity|]. split; [reflexivity|].
    apply Forall_forall. intros c Hc.
    cbn [clientApps sc MultiCell.scenario] in Hc.
    unfold MultiCell.udp_clients in Hc. apply in_map_iff in Hc.
    destruct Hc as [i [<- _]]. repeat split.
  - reflexivity.
  - reflexivity.
Qed.

(** X16: in both programs [verbose] changes the log and nothing else: with
    [verbose] off the log is empty, and the printed summary and exit code,
    or the abort message, are those of the run with [verbose] on.  With
    [verbose] on, a run that is not aborted logs the start-up line, then
    (multi-cell) one line per station in index order, then one line per
    flow record, [1 + nEnbs + number of flows] lines in all; an aborted run
    logs the start-up line only. *)
Theorem verbosity_only_changes_the_log :
  forall (D : Type) (ops : DoubleOps D) (engine : Engine D),
    (forall (n : Z) (T : D) (tech : string),
        let run verbose :=
          SingleCell.main engine
            {| SingleCell.nUes := n; SingleCell.simTime := T;
               SingleCell.tech := tech; SingleCell.verbose := verbose |} in
        match run true, run false with
        | Exited log out code, Exited log' out' code' =>
            log' = [] /\ out' = out /\ code' = code
            /\ exists sc,
                 SingleCell.configure
                   {| SingleCell.nUes := n; SingleCell.simTime := T;
                      SingleCell.tech := tech; SingleCell.verbose := true |}
                 = Some sc
                 /\ log = LogStartSingle n tech
                          :: map LogFlow
                               (fst (fst (value
                                  (aggregation_stage SingleCellSim T
                                     (FindFlow engine sc)
                                     (GetFlowStats engine sc)))))
                 /\ List.length log
                    = S (List.length (GetFlowStats engine sc))
        | Aborted log msg, Aborted log' msg' =>
            log' = [] /\ msg' = msg /\ log = [LogStartSingle n tech]
        | _, _ => False
        end)
    /\ (forall (posX posY : D -> D -> nat -> D) (n nEnbs : Z) (T : D)
               (tech : string) (areaSize : D),
        let run verbose :=
          MultiCell.main posX posY engine
            {| MultiCell.nUes := n; MultiCell.nEnbs := nEnbs;
               MultiCell.simTime := T; MultiCell.tech := tech;
               MultiCell.verbose := verbose;
               MultiCell.areaSize := areaSize |} in
        match run true, run false with
        | Exited log out code, Exited log' out' code' =>
            log' = [] /\ out' = out /\ code' = code
            /\ exists sc,
                 MultiCell.configure posX posY
                   {| MultiCell.nUes := n; MultiCell.nEnbs := nEnbs;
                      MultiCell.simTime := T; MultiCell.tech := tech;
                      MultiCell.verbose := true;
                      MultiCell.areaSize := areaSize |}
                 = Some sc
                 /\ log = LogStartMulti n nEnbs tech areaSize
                          :: map (fun i => LogEnb i (MultiCell.enb_position
                                                       areaSize nEnbs i))
                                 (upto nEnbs)
                          ++ map LogFlow
                               (fst (fst (value
                                  (aggregation_stage MultiCellSim T
                                     (FindFlow engine sc)
                                     (GetFlowStats engine sc)))))
                 /\ List.length log
                    = S (Z.to_nat nEnbs
                         + List.length (GetFlowStats engine sc))
        | Aborted log msg, Aborted log' msg' =>
            log' = [] /\ msg' = msg
            /\ log = [LogStartMulti n nEnbs tech areaSize]
        | _, _ => False
        end).
Proof.
  intros D ops engine. split.
  - intros n T tech run. unfold run, SingleCell.main, SingleCell.configure.
    cbn [SingleCell.tech SingleCell.verbose SingleCell.nUes SingleCell.simTime].
    destruct (SingleCell.bandwidth tech) as [rbs|]; cbn [when app].
    + split; [reflexivity|]. split; [reflexivity|]. split; [reflexivity|].
      eexists. split; [reflexivity|]. split; [reflexivity|].
      cbn [List.length]. f_equal. rewrite length_map.
      change (SingleCell.aggregate T ?c ?s)
        with (aggregation_stage SingleCellSim T c s).
      rewrite stage_lines, length_map. reflexivity.
    + repeat split.
  - intros posX posY n nEnbs T tech areaSize run.
    unfold run, MultiCell.main, MultiCell.configure.
    cbn [MultiCell.tech MultiCell.verbose MultiCell.nUes MultiCell.simTime
         MultiCell.nEnbs MultiCell.areaSize].
    destruct (MultiCell.bandwidth tech) as [rbs|]; cbn [when app].
    + split; [reflexivity|]. split; [reflexivity|]. split; [reflexivity|].
      eexists. split; [reflexivity|]. split; [reflexivity|].
      cbn [List.length]. f_equal. rewrite length_app, !length_map, upto_length.
      change (MultiCell.aggregate T ?c ?s)
        with (aggregation_stage MultiCellSim T c s).
      rewrite stage_lines, length_map. reflexivity.
    + repeat split.
Qed.
